(** * SFCC Knowledge Connector: a shallow embedding of the synchronization engine

    The development follows the cartridge's helper scripts:
    - [fieldTransformHelper.js]      (module [FieldTransform])
    - [siteConfigHelper.js]          (module [SiteConfig])
    - [contentMappingHelper.js]      (module [ContentMapping])
    - [salesforceKnowledgeHelper.js] (module [Knowledge])

    JavaScript values are modelled by the inductive type [JSValue]; objects are
    association lists in insertion order, the own enumerable properties, as
    [JSON.parse] makes them.  Of the prototype chain the development has what
    the copy loops of the cartridge meet: an assignment to [__proto__] makes
    no own property, and [obj.hasOwnProperty(k)] is a TypeError on an object
    with an own property of that name.  Strings are sequences of 8-bit
    characters and the character classes and case conversions are those of
    the ASCII range.  Numbers are the finite ones, written as rationals. *)

From Stdlib Require Import String Ascii List ZArith QArith Qround Bool Arith Lia.
Import ListNotations.
Open Scope string_scope.
Open Scope list_scope.
Open Scope nat_scope.

Set Implicit Arguments.
Set Warnings "-register-all".

(* ===================================================================== *)
(** ** JavaScript values *)
(* ===================================================================== *)

Module JS.

Inductive JSValue : Type :=
| JUndefined
| JNull
| JBool (b : bool)
| JNum (q : Q)
| JStr (s : string)
| JDate (ms : Z)
| JArr (elems : list JSValue)
| JObj (props : list (string * JSValue)).

(** Abrupt completion: [throw] of an error with the given message. *)
Inductive Completion (A : Type) : Type :=
| Normal (a : A)
| Throw (message : string).
Arguments Normal {A} a.
Arguments Throw {A} message.

(** Built-ins of the platform whose results the helpers only pass along. *)
Class Platform : Type := {
  numberToString : Q -> string;                      (* Number.prototype.toString *)
  dateToString : Z -> string;                        (* Date.prototype.toString *)
  JSON_stringify : JSValue -> JSValue;               (* JSON.stringify(value) *)
  stringToNumber : string -> option Q;               (* ToNumber of a string; None is NaN *)
  encodeURIComponent : string -> string;
  (* subject.replace(new RegExp(pattern, flags), replacement); a Throw is the
     SyntaxError of the RegExp constructor *)
  regExpReplace : string -> string -> string -> string -> Completion string;
  JSON_parse : string -> Completion JSValue          (* a Throw is its SyntaxError *)
}.

(** [typeof v] *)
Definition typeof (v : JSValue) : string :=
  match v with
  | JUndefined => "undefined"
  | JNull => "object"
  | JBool _ => "boolean"
  | JNum _ => "number"
  | JStr _ => "string"
  | JDate _ | JArr _ | JObj _ => "object"
  end.

(** ToBoolean: what [if (v)], [!v], [a || b] and [a && b] test. *)
Definition truthy (v : JSValue) : bool :=
  match v with
  | JUndefined | JNull => false
  | JBool b => b
  | JNum q => negb (Qeq_bool q 0)
  | JStr s => negb (String.eqb s "")
  | JDate _ | JArr _ | JObj _ => true
  end.

(** [a || b] *)
Definition or_else (a b : JSValue) : JSValue := if truthy a then a else b.

Definition isArray (v : JSValue) : bool :=
  match v with JArr _ => true | _ => false end.

(** *** Objects as association lists *)

Fixpoint assoc {A : Type} (k : string) (l : list (string * A)) : option A :=
  match l with
  | [] => None
  | (k', v) :: r => if String.eqb k k' then Some v else assoc k r
  end.

(** [obj[k] = v]: overwrite in place, or append a new property. *)
Fixpoint setProp {A : Type} (k : string) (v : A) (l : list (string * A)) : list (string * A) :=
  match l with
  | [] => [(k, v)]
  | (k', v') :: r => if String.eqb k k' then (k, v) :: r else (k', v') :: setProp k v r
  end.

Definition keys {A : Type} (l : list (string * A)) : list string := map fst l.

Definition hasKey {A : Type} (k : string) (l : list (string * A)) : bool :=
  match assoc k l with Some _ => true | None => false end.

(** [obj[k] = v] on an object that an object literal has made.  The name
    [__proto__] is the accessor of [Object.prototype]: an assignment to it
    makes no own property (an object or null becomes the prototype of [obj],
    any other value is ignored). *)
Definition assignProp {A : Type} (k : string) (v : A) (l : list (string * A))
  : list (string * A) :=
  if String.eqb k "__proto__" then l else setProp k v l.

(** A loop [for (k in src) if (src.hasOwnProperty(k)) dst[k] = src[k]], where
    it does not throw. *)
Definition assignAll {A : Type} (props acc : list (string * A)) : list (string * A) :=
  fold_left (fun dst kv => assignProp (fst kv) (snd kv) dst) props acc.

(** Decimal rendering of an array index. *)
Fixpoint digitsFuel (fuel n : nat) (acc : string) : string :=
  match fuel with
  | O => acc
  | S f =>
      let acc' := String (ascii_of_nat (48 + n mod 10)) acc in
      if n <? 10 then acc' else digitsFuel f (n / 10) acc'
  end.

Definition indexToString (n : nat) : string := digitsFuel (S n) n "".

Fixpoint indexed {A : Type} (i : nat) (l : list A) : list (string * A) :=
  match l with
  | [] => []
  | x :: r => (indexToString i, x) :: indexed (S i) r
  end.

Fixpoint chars (s : string) : list JSValue :=
  match s with
  | EmptyString => []
  | String c r => JStr (String c EmptyString) :: chars r
  end.

(** The properties a [for (k in v) if (v.hasOwnProperty(k))] loop visits, in
    order, with their values. *)
Definition ownProps (v : JSValue) : list (string * JSValue) :=
  match v with
  | JObj props => props
  | JArr elems => indexed 0 elems
  | JStr s => indexed 0 (chars s)
  | _ => []
  end.

(** [v[k]] on a value that is neither null nor undefined (own properties). *)
Definition getProp (v : JSValue) (k : string) : JSValue :=
  match assoc k (ownProps v) with
  | Some x => x
  | None => JUndefined
  end.

(** An object with an own property named [hasOwnProperty], which shadows the
    method of [Object.prototype] with a value that is no function:
    [v.hasOwnProperty(k)] is then a TypeError. *)
Definition shadowsHasOwnProperty (v : JSValue) : bool :=
  hasKey "hasOwnProperty" (ownProps v).

(** [v.k] as the interpreter evaluates it: a TypeError on null and undefined. *)
Definition getMember (v : JSValue) (k : string) : Completion JSValue :=
  match v with
  | JUndefined => Throw ("Cannot read property " ++ k ++ " of undefined")
  | JNull => Throw ("Cannot read property " ++ k ++ " of null")
  | _ => Normal (getProp v k)
  end.

(** *** Text *)

Definition isSpace (c : ascii) : bool :=
  let n := nat_of_ascii c in
  ((9 <=? n) && (n <=? 13)) || (n =? 32).

Definition isLower (c : ascii) : bool :=
  let n := nat_of_ascii c in (97 <=? n) && (n <=? 122).

Definition isUpper (c : ascii) : bool :=
  let n := nat_of_ascii c in (65 <=? n) && (n <=? 90).

Definition isDigit (c : ascii) : bool :=
  let n := nat_of_ascii c in (48 <=? n) && (n <=? 57).

Definition lowerChar (c : ascii) : ascii :=
  if isUpper c then ascii_of_nat (nat_of_ascii c + 32) else c.

Definition upperChar (c : ascii) : ascii :=
  if isLower c then ascii_of_nat (nat_of_ascii c - 32) else c.

Definition toLowerCase (s : list ascii) : list ascii := map lowerChar s.
Definition toUpperCase (s : list ascii) : list ascii := map upperChar s.

Fixpoint dropWhile {A : Type} (p : A -> bool) (l : list A) : list A :=
  match l with
  | [] => []
  | x :: r => if p x then dropWhile p r else l
  end.

Fixpoint takeWhile {A : Type} (p : A -> bool) (l : list A) : list A :=
  match l with
  | [] => []
  | x :: r => if p x then x :: takeWhile p r else []
  end.

(** [s.trim()] *)
Definition trimChars (s : list ascii) : list ascii :=
  rev (dropWhile isSpace (rev (dropWhile isSpace s))).

Definition trim (s : string) : string :=
  string_of_list_ascii (trimChars (list_ascii_of_string s)).

(** [s.split(c)] for a one-character separator: never the empty array. *)
Fixpoint splitChars (sep : ascii) (s : list ascii) : list (list ascii) :=
  match s with
  | [] => [[]]
  | x :: r =>
      if Ascii.eqb x sep then [] :: splitChars sep r
      else match splitChars sep r with
           | [] => [[x]]
           | p :: ps => (x :: p) :: ps
           end
  end.

Definition split (sep : ascii) (s : string) : list string :=
  map string_of_list_ascii (splitChars sep (list_ascii_of_string s)).

(** [parts.join(sep)] *)
Fixpoint join (sep : string) (parts : list string) : string :=
  match parts with
  | [] => ""
  | [p] => p
  | p :: r => p ++ sep ++ join sep r
  end.

Section WithPlatform.
Context {P : Platform}.

(** ToString: [String(v)] and the coercion of [+] with a string. *)
Fixpoint ToString (v : JSValue) : string :=
  match v with
  | JUndefined => "undefined"
  | JNull => "null"
  | JBool true => "true"
  | JBool false => "false"
  | JNum q => numberToString q
  | JStr s => s
  | JDate ms => dateToString ms
  | JArr elems =>
      join "," (map (fun e => match e with
                              | JUndefined | JNull => ""
                              | _ => ToString e
                              end) elems)
  | JObj _ => "[object Object]"
  end.

End WithPlatform.

End JS.
Import JS.

(* ===================================================================== *)
(** ** fieldTransformHelper.js *)
(* ===================================================================== *)

Module FieldTransform.

(** *** Global replacement with the regular expressions of the helper

    Every regular expression of this helper is free of capture groups and
    never matches the empty string.  A [Matcher] gives the length of the match
    that starts at the head of the remaining input, if there is one; its first
    argument tells whether the head is index 0 of the subject (for [^]). *)

Definition Matcher : Type := bool -> list ascii -> option nat.

(** The replacement text of [String.prototype.replace]: [$$], [$&], [$`] and
    [$'] are substituted; with no capture group a [$n] stays as it is. *)
Fixpoint expandReplacement (rep matched before after : list ascii) : list ascii :=
  match rep with
  | [] => []
  | "$"%char :: "$"%char :: r => "$"%char :: expandReplacement r matched before after
  | "$"%char :: "&"%char :: r => matched ++ expandReplacement r matched before after
  | "$"%char :: "`"%char :: r => before ++ expandReplacement r matched before after
  | "$"%char :: "'"%char :: r => after ++ expandReplacement r matched before after
  | c :: r => c :: expandReplacement r matched before after
  end.

(** [subject.replace(/re/g, rep)], scanning left to right; [skip] counts the
    characters of the current match that are still to be consumed and [before]
    is the part of the subject already scanned. *)
Fixpoint replaceAllFrom (m : Matcher) (rep : list ascii) (atStart : bool)
         (before s : list ascii) (skip : nat) : list ascii :=
  match s with
  | [] => []
  | c :: s' =>
      match skip with
      | S k => replaceAllFrom m rep false (before ++ [c]) s' k
      | O =>
          match m atStart s with
          | Some (S k) =>
              expandReplacement rep (firstn (S k) s) before (skipn (S k) s)
                ++ replaceAllFrom m rep false (before ++ [c]) s' k
          | _ => c :: replaceAllFrom m rep false (before ++ [c]) s' 0
          end
      end
  end.

Definition replaceAll (m : Matcher) (rep s : list ascii) : list ascii :=
  replaceAllFrom m rep true [] s 0.

(** [/\s+/] *)
Definition spaceRun : Matcher :=
  fun _ s => match List.length (takeWhile isSpace s) with
             | O => None
             | n => Some n
             end.

Fixpoint stripPrefix (p s : list ascii) : option (list ascii) :=
  match p, s with
  | [], _ => Some s
  | _ :: _, [] => None
  | a :: p', b :: s' => if Ascii.eqb a b then stripPrefix p' s' else None
  end.

(** [escapedSeparator + '+']: the characters of the separator are literal
    (the special ones are escaped) and the [+] binds to the last one only. *)
Definition sepRunAt (sep s : list ascii) : option nat :=
  match sep with
  | [] => None
  | _ :: _ =>
      match stripPrefix (removelast sep) s with
      | None => None
      | Some rest =>
          match List.length (takeWhile (Ascii.eqb (last sep "000"%char)) rest) with
          | O => None
          | n => Some (List.length (removelast sep) + n)
          end
      end
  end.

Definition sepRun (sep : list ascii) : Matcher := fun _ s => sepRunAt sep s.

(** ['^' + escapedSeparator + '+|' + escapedSeparator + '+$']: the first
    alternative is tried first; the greedy run of the second one has to reach
    the end of the subject. *)
Definition sepEdge (sep : list ascii) : Matcher :=
  fun atStart s =>
    match (if atStart then sepRunAt sep s else None) with
    | Some n => Some n
    | None =>
        match sepRunAt sep s with
        | Some n => if n =? List.length s then Some n else None
        | None => None
        end
    end.

(** The members that the separator adds to the class [[^a-z0-9...]]: a dash
    between two atoms makes a range, and a range out of order is a
    SyntaxError of the RegExp constructor. *)
Inductive ClassItem : Type :=
| Single (c : ascii)
| Range (lo hi : ascii).

Fixpoint parseClass (atoms : list ascii) : Completion (list ClassItem) :=
  match atoms with
  | [] => Normal []
  | a :: "-"%char :: b :: rest =>
      if nat_of_ascii b <? nat_of_ascii a
      then Throw "Invalid regular expression: range out of order in character class"
      else match parseClass rest with
           | Normal items => Normal (Range a b :: items)
           | Throw msg => Throw msg
           end
  | a :: rest =>
      match parseClass rest with
      | Normal items => Normal (Single a :: items)
      | Throw msg => Throw msg
      end
  end.

Definition inItem (x : ascii) (it : ClassItem) : bool :=
  match it with
  | Single c => Ascii.eqb x c
  | Range lo hi => (nat_of_ascii lo <=? nat_of_ascii x) && (nat_of_ascii x <=? nat_of_ascii hi)
  end.

(** Membership in [[a-z0-9<items>]]. *)
Definition inUrlSafeClass (items : list ClassItem) (x : ascii) : bool :=
  isLower x || isDigit x || existsb (inItem x) items.

(** [separator.replace(/[.*+?^${}()|[\]\\]/g, '\\$&')] *)
Definition isRegExpSpecial (c : ascii) : bool :=
  existsb (Ascii.eqb c) (list_ascii_of_string ".*+?^${}()|[]\").

Fixpoint escapeRegExp (s : list ascii) : list ascii :=
  match s with
  | [] => []
  | c :: r => if isRegExpSpecial c then "\"%char :: c :: escapeRegExp r
              else c :: escapeRegExp r
  end.

Section WithPlatform.
Context {P : Platform}.

(** [transformReplaceSpaces(value, replaceWith)] *)
Definition transformReplaceSpaces (value : string) (replaceWith : JSValue) : string :=
  let replaceWith := match replaceWith with
                     | JUndefined | JNull => JStr "-"
                     | _ => replaceWith
                     end in
  string_of_list_ascii
    (replaceAll spaceRun (list_ascii_of_string (ToString replaceWith))
                (list_ascii_of_string value)).

(** [transformUrlSafe(value, separator)] *)
Definition transformUrlSafe (value : string) (separator : JSValue) : Completion string :=
  let separator := match separator with
                   | JUndefined | JNull => JStr "-"
                   | _ => separator
                   end in
  match separator with
  | JStr sepS =>
      let sep := list_ascii_of_string sepS in
      (* Step 1: lowercase *)
      let result := toLowerCase (list_ascii_of_string value) in
      (* Step 2: whitespace runs become the separator *)
      let result := replaceAll spaceRun sep result in
      (* Step 3: new RegExp('[^a-z0-9' + escapedSeparator + ']', 'g') *)
      match parseClass sep with
      | Throw msg => Throw msg
      | Normal items =>
          let result := filter (inUrlSafeClass items) result in
          (* Step 4: new RegExp(escapedSeparator + '+', 'g') *)
          match sep with
          | [] => Throw "Invalid regular expression: nothing to repeat"
          | _ :: _ =>
              let result := replaceAll (sepRun sep) sep result in
              (* Step 5: leading and trailing separators *)
              let result := replaceAll (sepEdge sep) [] result in
              Normal (string_of_list_ascii result)
          end
      end
  | _ => Throw "separator.replace is not a function"
  end.

(** [transformLowercase], [transformUppercase], [transformRemoveSpaces] *)
Definition transformLowercase (value : string) : string :=
  string_of_list_ascii (toLowerCase (list_ascii_of_string value)).

Definition transformUppercase (value : string) : string :=
  string_of_list_ascii (toUpperCase (list_ascii_of_string value)).

Definition transformRemoveSpaces (value : string) : string :=
  string_of_list_ascii (replaceAll spaceRun [] (list_ascii_of_string value)).

(** [transformReplace(value, config)] *)
Definition transformReplace (value : string) (config : JSValue) : string :=
  if negb (truthy (getProp config "pattern")) then value
  else
    let replaceWith := match getProp config "replaceWith" with
                       | JUndefined => JStr ""
                       | v => v
                       end in
    let flags := or_else (getProp config "flags") (JStr "g") in
    match regExpReplace (ToString (getProp config "pattern")) (ToString flags)
                        (ToString replaceWith) value with
    | Normal r => r
    | Throw _ => value
    end.

(** [applyStringTransform(value, transform, fieldName)] *)
Definition applyStringTransform (value transform : string) : Completion string :=
  let parts := split ":"%char transform in
  let transformName := hd "" parts in
  let parameter := if 1 <? List.length parts then JStr (join ":" (tl parts)) else JNull in
  let orDash := match parameter with JNull => JStr "-" | p => p end in
  if String.eqb transformName "replaceSpaces" then Normal (transformReplaceSpaces value orDash)
  else if String.eqb transformName "urlSafe" then transformUrlSafe value orDash
  else if String.eqb transformName "lowercase" then Normal (transformLowercase value)
  else if String.eqb transformName "uppercase" then Normal (transformUppercase value)
  else if String.eqb transformName "removeSpaces" then Normal (transformRemoveSpaces value)
  else Normal value.

(** [applyObjectTransform(value, transform, fieldName)]; the [switch] compares
    with [===], so only a string [type] selects a case. *)
Definition applyObjectTransform (value : string) (transform : JSValue) : Completion string :=
  let type := getProp transform "type" in
  if negb (truthy type) then Normal value
  else
    match type with
    | JStr t =>
        if String.eqb t "replaceSpaces" then
          Normal (transformReplaceSpaces value
                    (or_else (getProp transform "with")
                       (or_else (getProp transform "replaceWith") (JStr "-"))))
        else if String.eqb t "urlSafe" then
          transformUrlSafe value
            (or_else (getProp transform "with")
               (or_else (getProp transform "separator") (JStr "-")))
        else if String.eqb t "lowercase" then Normal (transformLowercase value)
        else if String.eqb t "uppercase" then Normal (transformUppercase value)
        else if String.eqb t "removeSpaces" then Normal (transformRemoveSpaces value)
        else if String.eqb t "replace" then Normal (transformReplace value transform)
        else Normal value
    | _ => Normal value
    end.

(** [applyTransform(value, transform, fieldName)] *)
Definition applyTransform (value transform : JSValue) : JSValue :=
  if negb (truthy value) then value
  else
    let value := match value with JStr s => s | v => ToString v end in
    let attempt :=
      match transform with
      | JDate _ | JArr _ | JObj _ => applyObjectTransform value transform
      | JStr t => applyStringTransform value t
      | _ => Normal value
      end in
    match attempt with
    | Normal result => JStr result
    | Throw _ => JStr value          (* catch (e): the original value *)
    end.

(** [applyMultipleTransforms(value, transforms, fieldName)] *)
Definition applyMultipleTransforms (value transforms : JSValue) : JSValue :=
  match transforms with
  | JArr specs => fold_left applyTransform specs value
  | _ => value
  end.






End WithPlatform.

End FieldTransform.

(* ===================================================================== *)
(** ** siteConfigHelper.js *)
(* ===================================================================== *)

Module SiteConfig.

(** The double quote character inside the messages of the helper. *)
Definition dq : string := String (ascii_of_nat 34) EmptyString.

(** [mergeStaticFields(defaultStatic, siteStatic)].  Both loops test
    [hasOwnProperty] on the object they run over. *)
Definition mergeStaticFields (defaultStatic siteStatic : JSValue) : Completion JSValue :=
  if shadowsHasOwnProperty defaultStatic
  then Throw "defaultStatic.hasOwnProperty is not a function"
  else if shadowsHasOwnProperty siteStatic
  then Throw "siteStatic.hasOwnProperty is not a function"
  else Normal (JObj (assignAll (ownProps siteStatic) (assignAll (ownProps defaultStatic) []))).

(** The second loop of [mergeConfigurations]. *)
Fixpoint overrideKeys (defaults siteConfig : JSValue) (props : list (string * JSValue))
         (merged : list (string * JSValue)) : Completion (list (string * JSValue)) :=
  match props with
  | [] => Normal merged
  | (siteKey, value) :: rest =>
      if String.eqb siteKey "static" then
        match getMember defaults "static" with
        | Throw msg => Throw msg
        | Normal defaultStatic =>
            match getMember siteConfig "static" with
            | Throw msg => Throw msg
            | Normal siteStatic =>
                match mergeStaticFields (or_else defaultStatic (JObj []))
                                        (or_else siteStatic (JObj [])) with
                | Throw msg => Throw msg
                | Normal static =>
                    overrideKeys defaults siteConfig rest (setProp "static" static merged)
                end
            end
        end
      else overrideKeys defaults siteConfig rest (assignProp siteKey value merged)
  end.

(** [mergeConfigurations(defaults, siteConfig)].  The object returned is
    given by its own properties. *)
Definition mergeConfigurations (defaults siteConfig : JSValue) : Completion JSValue :=
  if shadowsHasOwnProperty defaults
  then Throw "defaults.hasOwnProperty is not a function"
  else
    let merged := assignAll (ownProps defaults) [] in
    if shadowsHasOwnProperty siteConfig
    then Throw "siteConfig.hasOwnProperty is not a function"
    else match overrideKeys defaults siteConfig (ownProps siteConfig) merged with
         | Throw msg => Throw msg
         | Normal merged => Normal (JObj merged)
         end.

(** [getSiteConfiguration(allConfigs, siteID)] *)
Definition getSiteConfiguration (allConfigs : JSValue) (siteID : string) : Completion JSValue :=
  if negb (truthy allConfigs) || negb (String.eqb (typeof allConfigs) "object") then Normal JNull
  else if negb (truthy (JStr siteID)) || String.eqb (trim siteID) "" then Normal JNull
  else
    let defaults := or_else (getProp allConfigs "_defaults") (JObj []) in
    let siteConfig := getProp allConfigs siteID in
    if negb (truthy siteConfig) then Normal defaults
    else mergeConfigurations defaults siteConfig.

(** The result objects [{ valid, errors, warnings }] and [{ valid, error }]. *)
Record Validation : Type := mkValidation {
  valid : bool;
  errors : list string;
  warnings : list string
}.

Definition pushError (msg : string) (r : Validation) : Validation :=
  mkValidation false (errors r ++ [msg]) (warnings r).

Definition pushWarning (msg : string) (r : Validation) : Validation :=
  mkValidation (valid r) (errors r) (warnings r ++ [msg]).

Record FolderCheck : Type := mkFolderCheck {
  folderValid : bool;
  folderError : string
}.

(** [validateContentFolderIDs(folderIDs)] *)
Definition validateContentFolderIDs (folderIDs : JSValue) : FolderCheck :=
  if negb (truthy folderIDs) then mkFolderCheck false "contentFolderIDs is required"
  else
    match folderIDs with
    | JStr s =>
        if String.eqb (trim s) ""
        then mkFolderCheck false "contentFolderIDs cannot be empty string"
        else mkFolderCheck true ""
    | JArr elems =>
        match elems with
        | [] => mkFolderCheck false "contentFolderIDs array cannot be empty"
        | _ =>
            if forallb (fun e => match e with
                                 | JStr s => negb (String.eqb (trim s) "")
                                 | _ => false
                                 end) elems
            then mkFolderCheck true ""
            else mkFolderCheck false "contentFolderIDs array must contain non-empty strings"
        end
    | _ => mkFolderCheck false "contentFolderIDs must be a string or array of strings"
    end.

Definition supportedTransforms : list string :=
  ["replaceSpaces"; "urlSafe"; "lowercase"; "uppercase"; "removeSpaces"; "replace"].

Definition isSupported (name : string) : bool :=
  existsb (String.eqb name) supportedTransforms.

(** The loop body of [validateTransforms]. *)
Definition validateTransform (result : Validation) (kv : string * JSValue) : Validation :=
  let fieldName := fst kv in
  let transform := snd kv in
  match transform with
  | JStr t =>
      let transformName := hd "" (split ":"%char t) in
      if isSupported transformName then result
      else pushWarning ("Unknown transform " ++ dq ++ transformName ++ dq
                          ++ " for field " ++ fieldName) result
  | JDate _ | JArr _ | JObj _ =>
      let type := getProp transform "type" in
      if negb (truthy type) then
        pushError ("Transform object for field " ++ fieldName ++ " must have a "
                     ++ dq ++ "type" ++ dq ++ " property") result
      else
        match type with
        | JStr t =>
            if isSupported t then result
            else pushWarning ("Unknown transform type " ++ dq ++ t ++ dq
                                ++ " for field " ++ fieldName) result
        | _ => pushError ("Transform type for field " ++ fieldName ++ " must be a string") result
        end
  | _ => pushError ("Transform for field " ++ fieldName ++ " must be a string or object") result
  end.

(** [validateTransforms(transforms)] *)
Definition validateTransforms (transforms : JSValue) : Validation :=
  let result := mkValidation true [] [] in
  if negb (String.eqb (typeof transforms) "object")
     || match transforms with JNull => true | _ => false end
  then pushError "transforms must be an object" result
  else fold_left validateTransform (ownProps transforms) result.

(** [x && typeof x !== t] *)
Definition presentButNot (t : string) (x : JSValue) : bool :=
  truthy x && negb (String.eqb (typeof x) t).

(** [x !== undefined && typeof x !== 'boolean'] *)
Definition definedButNotBoolean (x : JSValue) : bool :=
  match x with
  | JUndefined => false
  | _ => negb (String.eqb (typeof x) "boolean")
  end.

(** [typeof b !== 'number' || b < 1 || b > 500] *)
Definition batchSizeOutOfRange (b : JSValue) : bool :=
  match b with
  | JNum q => negb (Qle_bool 1 q) || negb (Qle_bool q 500)
  | _ => true
  end.

Definition batchSizeMessage : string := "batchSize must be a number between 1 and 500".

Definition when (c : bool) (f : Validation -> Validation) (r : Validation) : Validation :=
  if c then f r else r.

(** [validateConfiguration(config, siteID)] *)
Definition validateConfiguration (config : JSValue) (siteID : string) : Validation :=
  let result := mkValidation true [] [] in
  if negb (truthy config) || negb (String.eqb (typeof config) "object")
  then pushError ("Configuration is not a valid object for site: " ++ siteID) result
  else
    let result :=
      when (presentButNot "string" (getProp config "articleType"))
           (pushError "articleType must be a string") result in
    let result :=
      if truthy (getProp config "contentFolderIDs") then
        let folderIDsValid := validateContentFolderIDs (getProp config "contentFolderIDs") in
        when (negb (folderValid folderIDsValid))
             (pushError ("contentFolderIDs: " ++ folderError folderIDsValid)) result
      else result in
    let result :=
      match getProp config "batchSize" with
      | JUndefined => result
      | b => when (batchSizeOutOfRange b) (pushError batchSizeMessage) result
      end in
    let result :=
      let exportMode := getProp config "exportMode" in
      when (truthy exportMode
              && negb (match exportMode with JStr m => String.eqb m "delta" | _ => false end)
              && negb (match exportMode with JStr m => String.eqb m "full" | _ => false end))
           (pushError ("exportMode must be " ++ dq ++ "delta" ++ dq ++ " or " ++ dq ++ "full" ++ dq))
           result in
    let result :=
      when (definedButNotBoolean (getProp config "publishArticles"))
           (pushError "publishArticles must be a boolean") result in
    let result :=
      when (definedButNotBoolean (getProp config "enableDebugLogging"))
           (pushError "enableDebugLogging must be a boolean") result in
    let result :=
      when (definedButNotBoolean (getProp config "autoCreateFields"))
           (pushError "autoCreateFields must be a boolean") result in
    let result :=
      let fieldMapping := getProp config "fieldMapping" in
      if truthy fieldMapping then
        if negb (String.eqb (typeof fieldMapping) "object")
        then pushError "fieldMapping must be an object" result
        else match keys (ownProps fieldMapping) with
             | [] => pushWarning "fieldMapping is empty" result
             | _ => result
             end
      else result in
    let result :=
      if truthy (getProp config "transforms") then
        let transformsValid := validateTransforms (getProp config "transforms") in
        let result :=
          if negb (valid transformsValid)
          then mkValidation false (errors result ++ errors transformsValid) (warnings result)
          else result in
        match warnings transformsValid with
        | [] => result
        | ws => mkValidation (valid result) (errors result) (warnings result ++ ws)
        end
      else result in
    let result :=
      when (presentButNot "object" (getProp config "static"))
           (pushError "static must be an object") result in
    let result :=
      when (presentButNot "object" (getProp config "fieldMetadata"))
           (pushError "fieldMetadata must be an object") result in
    let result :=
      when (presentButNot "string" (getProp config "recordTypeName"))
           (pushError "recordTypeName must be a string") result in
    let result :=
      when (presentButNot "string" (getProp config "dataCategory"))
           (pushError "dataCategory must be a string") result in
    result.

(** [normalizeContentFolderIDs(folderIDs)] *)
Definition normalizeContentFolderIDs (folderIDs : JSValue) : JSValue :=
  if negb (truthy folderIDs) then JArr [JStr "root"]
  else
    match folderIDs with
    | JArr _ => folderIDs
    | JStr s =>
        if existsb (Ascii.eqb ","%char) (list_ascii_of_string s)
        then JArr (map JStr (filter (fun id => negb (String.eqb id ""))
                               (map trim (split ","%char s))))
        else JArr [JStr (trim s)]
    | _ => JArr [JStr "root"]
    end.

End SiteConfig.

(* ===================================================================== *)
(** ** contentMappingHelper.js *)
(* ===================================================================== *)

Module ContentMapping.

(** A content asset of the repository ([dw.content.Content]); dates are their
    [getTime()] in milliseconds, an absent date or object is [None]. *)
Record CustomAttributes : Type := mkCustom {
  body : JSValue;
  sfKnowledgeArticleId : JSValue;
  sfKnowledgeVersionId : JSValue;
  sfLastSyncDateTime : option Z;
  otherAttributes : list (string * JSValue)
}.

Record Content : Type := mkContent {
  ID : string;
  name : JSValue;
  description : JSValue;
  online : bool;
  pageTitle : JSValue;
  pageDescription : JSValue;
  pageKeywords : JSValue;
  pageURL : JSValue;
  template : JSValue;
  classificationFolder : option string;
  creationDate : option Z;
  lastModified : option Z;
  custom : option CustomAttributes
}.

Definition dateValue (d : option Z) : JSValue :=
  match d with Some ms => JDate ms | None => JNull end.

Definition customObject (c : option CustomAttributes) : JSValue :=
  match c with
  | None => JNull
  | Some a =>
      JObj ([("body", body a);
             ("sfKnowledgeArticleId", sfKnowledgeArticleId a);
             ("sfKnowledgeVersionId", sfKnowledgeVersionId a);
             ("sfLastSyncDateTime", dateValue (sfLastSyncDateTime a))]
              ++ otherAttributes a)
  end.

(** [asset.custom && asset.custom.x ? asset.custom.x : dflt] *)
Definition customOr (c : option CustomAttributes) (f : CustomAttributes -> JSValue)
           (dflt : JSValue) : JSValue :=
  match c with
  | Some a => if truthy (f a) then f a else dflt
  | None => dflt
  end.

(** [formatContentAsset(asset, enableDebugLogging)] for an asset that is not
    null; the [_asset] back reference is left out. *)
Definition formatContentAsset (asset : Content) : option JSValue :=
  Some (JObj [
    ("ID", JStr (ID asset));
    ("name", or_else (name asset) (JStr ""));
    ("description", or_else (description asset) (JStr ""));
    ("online", JBool (online asset));
    ("pageTitle", or_else (pageTitle asset) (JStr ""));
    ("pageDescription", or_else (pageDescription asset) (JStr ""));
    ("pageKeywords", or_else (pageKeywords asset) (JStr ""));
    ("pageURL", or_else (pageURL asset) (JStr ""));
    ("body", customOr (custom asset) body (JStr ""));
    ("template", or_else (template asset) (JStr ""));
    ("classificationFolder",
       match classificationFolder asset with Some f => JStr f | None => JStr "" end);
    ("creationDate", dateValue (creationDate asset));
    ("lastModified", dateValue (lastModified asset));
    ("sfKnowledgeArticleId", customOr (custom asset) sfKnowledgeArticleId JNull);
    ("sfKnowledgeVersionId", customOr (custom asset) sfKnowledgeVersionId JNull);
    ("sfLastSyncDateTime",
       match custom asset with
       | Some a => dateValue (sfLastSyncDateTime a)
       | None => JNull
       end);
    ("custom", customObject (custom asset))
  ]).

(** [asset.custom && asset.custom.sfLastSyncDateTime] *)
Definition lastSyncDateTime (asset : Content) : option Z :=
  match custom asset with
  | Some a => sfLastSyncDateTime a
  | None => None
  end.

(** The delta test of the loop: [true] when the asset is skipped as not
    modified since the last sync. *)
Definition notModifiedSinceLastSync (asset : Content) : bool :=
  match lastSyncDateTime asset, lastModified asset with
  | Some lastSync, Some modified => (modified <=? lastSync)%Z
  | _, _ => false
  end.

(** [var mode = exportMode || 'delta'; ... mode === 'delta'] *)
Definition isDeltaMode (exportMode : JSValue) : bool :=
  match or_else exportMode (JStr "delta") with
  | JStr m => String.eqb m "delta"
  | _ => false
  end.

(** One turn of the [while (contentIterator.hasNext())] loop: what it pushes. *)
Definition visitAsset (exportMode : JSValue) (asset : Content) : list JSValue :=
  if negb (online asset) then []
  else if isDeltaMode exportMode && notModifiedSinceLastSync asset then []
  else match formatContentAsset asset with
       | Some formattedAsset => [formattedAsset]
       | None => []
       end.

(** [getContentAssets(folderID, enableDebugLogging, exportMode)], over the
    assets that the content search of the folder returns. *)
Definition getContentAssets (searchResult : list Content) (exportMode : JSValue) : list JSValue :=
  flat_map (visitAsset exportMode) searchResult.

Section WithPlatform.
Context {P : Platform}.

(** [convertToSalesforceSafeValue(value)] *)
Definition convertToSalesforceSafeValue (value : JSValue) : JSValue :=
  match value with
  | JUndefined | JNull => JNull
  | JStr _ | JNum _ | JBool _ => value
  | JDate _ | JArr _ | JObj _ =>
      match getProp value "markup" with
      | JUndefined | JNull =>
          match getProp value "source" with
          | JUndefined | JNull =>
              let stringValue := ToString value in
              if truthy (JStr stringValue) && negb (String.eqb stringValue "[object Object]")
              then JStr stringValue
              else JSON_stringify value
          | source => JStr (ToString source)
          end
      | markup => JStr (ToString markup)
      end
  end.

(** The [for] loop of [getNestedProperty]. *)
Fixpoint traverse (parts : list string) (current : JSValue) : JSValue :=
  match parts with
  | [] => current
  | p :: rest =>
      match current with
      | JUndefined | JNull => JNull
      | _ =>
          let part := trim p in
          if String.eqb part "" then traverse rest current
          else traverse rest (getProp current part)
      end
  end.

(** [getNestedProperty(obj, path)]; a path that is truthy but not a string has
    no [split] method. *)
Definition getNestedProperty (obj path : JSValue) : Completion JSValue :=
  if negb (truthy obj) || negb (truthy path) then Normal JNull
  else match path with
       | JStr p => Normal (traverse (split "."%char p) obj)
       | _ => Throw "path.split is not a function"
       end.

(** [value !== null && value !== undefined && value !== ''] *)
Definition includable (value : JSValue) : bool :=
  match value with
  | JNull | JUndefined => false
  | JStr s => negb (String.eqb s "")
  | _ => true
  end.

(** The mapping loop; a throw leaves the loop with the article built so far. *)
Fixpoint mapFields (contentAsset : JSValue) (entries : list (string * JSValue))
         (article : list (string * JSValue)) : Completion (list (string * JSValue)) * list (string * JSValue) :=
  match entries with
  | [] => (Normal article, article)
  | (sfField, b2cFieldPath) :: rest =>
      match getNestedProperty contentAsset b2cFieldPath with
      | Throw msg => (Throw msg, article)
      | Normal rawValue =>
          let value := convertToSalesforceSafeValue rawValue in
          mapFields contentAsset rest
            (if includable value then assignProp sfField value article else article)
      end
  end.

(** [mapContentToArticle] after its first statement.  Whatever the [try]
    block throws (a [fieldMapping] whose [hasOwnProperty] is no function, a
    path or a [dataCategory] that is truthy but not a string) is caught and
    logged, and the article built so far is returned. *)
Definition mapArticle (contentAsset articleType fieldMapping dataCategory : JSValue)
           (isCreate : bool) : list (string * JSValue) :=
  let article := [("attributes", JObj [("type", articleType)])] in
  if shadowsHasOwnProperty fieldMapping then article
  else
    match mapFields contentAsset (ownProps fieldMapping) article with
    | (Throw _, article) => article
    | (Normal _, article) =>
        let article := if isCreate then setProp "Language" (JStr "en_US") article else article in
        if truthy dataCategory then
          match dataCategory with
          | JStr dc =>
              if negb (String.eqb (trim dc) "")
              then setProp "DataCategorySelections" (JObj [("DataCategory", dataCategory)]) article
              else article
          | _ => article
          end
        else article
    end.

(** [mapContentToArticle(contentAsset, articleType, fieldMapping, dataCategory,
    isCreate, enableDebugLogging)]; [isCreate] is [isCreate !== false].  The
    first statement reads [contentAsset.ID] outside the [try]. *)
Definition mapContentToArticle (contentAsset articleType fieldMapping dataCategory : JSValue)
           (isCreate : bool) : Completion (list (string * JSValue)) :=
  match getMember contentAsset "ID" with
  | Throw msg => Throw msg
  | Normal _ =>
      Normal (mapArticle contentAsset articleType fieldMapping dataCategory isCreate)
  end.

End WithPlatform.

(** *** The batch orchestrator *)

(** What the orchestrator reads of a batch result; [None] is [undefined]. *)
Record BatchOutcome : Type := mkBatchOutcome {
  batchSuccess : bool;
  batchSuccessCount : option nat;
  batchError : option string
}.

Record BatchError : Type := mkBatchError {
  batch : nat;
  error : string
}.

Record ExportResult : Type := mkExportResult {
  totalProcessed : nat;
  totalSuccess : nat;
  totalFailed : nat;
  errors : list BatchError
}.

(** What the export function returns: [undefined], [null], or a value of
    which the orchestrator reads [success], [successCount] and [error]. *)
Inductive Returned : Type :=
| ReturnedUndefined
| ReturnedNull
| ReturnedValue (batchResult : BatchOutcome).

Section Orchestrator.
Variables (A W : Type).
(** The export function runs against the outside world [W] and may throw. *)
Variable exportFunction : list A -> W -> Completion Returned * W.

(** [contentAssets.slice(startIdx, endIdx)] for indices that are not
    negative: a fractional index is truncated. *)
Definition slice (contentAssets : list A) (startIdx endIdx : Q) : list A :=
  let k := Z.to_nat (Qfloor startIdx) in
  let final := Z.to_nat (Qfloor endIdx) in
  firstn (final - k) (skipn k contentAssets).

(** [Math.ceil(contentAssets.length / batchSize)] for a [batchSize] that is
    not zero; a negative number of batches is no batch. *)
Definition ceilDiv (n : nat) (batchSize : Q) : nat :=
  Z.to_nat (Qceiling (inject_Z (Z.of_nat n) / batchSize)).

(** [Math.min(x, y)] *)
Definition minNumber (x y : Q) : Q := if Qle_bool x y then x else y.

(** The batch of turn [i]. *)
Definition batchAt (contentAssets : list A) (batchSize : Q) (i : nat) : list A :=
  let startIdx := (inject_Z (Z.of_nat i) * batchSize)%Q in
  let endIdx := minNumber (startIdx + batchSize)%Q
                          (inject_Z (Z.of_nat (List.length contentAssets))) in
  slice contentAssets startIdx endIdx.

(** [x || y] on a count that may be undefined. *)
Definition countOr (x : option nat) (y : nat) : nat :=
  match x with
  | Some (S k) => S k
  | _ => y
  end.

(** The [catch] block, for a batch of [n] records. *)
Definition caught (result : ExportResult) (n i : nat) (message : string) : ExportResult :=
  mkExportResult (totalProcessed result + n) (totalSuccess result) (totalFailed result + n)
                 (errors result ++ [mkBatchError (i + 1) message]).

(** [result.totalProcessed += batch.length] *)
Definition counted (result : ExportResult) (n : nat) : ExportResult :=
  mkExportResult (totalProcessed result + n) (totalSuccess result) (totalFailed result)
                 (errors result).

(** The body of the [for] loop.  When the export function returns [null] or
    [undefined], the batch has been counted as processed before
    [batchResult.success] throws, and the [catch] block counts it again. *)
Definition processBatch (contentAssets : list A) (batchSize : Q)
           (acc : ExportResult * W) (i : nat) : ExportResult * W :=
  let (result, w) := acc in
  let batch := batchAt contentAssets batchSize i in
  match exportFunction batch w with
  | (Normal (ReturnedValue batchResult), w') =>
      let processed := totalProcessed result + List.length batch in
      if batchSuccess batchResult
      then (mkExportResult processed
              (totalSuccess result + countOr (batchSuccessCount batchResult) (List.length batch))
              (totalFailed result) (errors result), w')
      else (mkExportResult processed (totalSuccess result)
              (totalFailed result + List.length batch)
              (errors result ++ [mkBatchError (i + 1)
                 (match batchError batchResult with
                  | Some e => if String.eqb e "" then "Unknown error" else e
                  | None => "Unknown error"
                  end)]), w')
  | (Normal ReturnedNull, w') =>
      (caught (counted result (List.length batch)) (List.length batch) i
              "Cannot read property success of null", w')
  | (Normal ReturnedUndefined, w') =>
      (caught (counted result (List.length batch)) (List.length batch) i
              "Cannot read property success of undefined", w')
  | (Throw message, w') => (caught result (List.length batch) i message, w')
  end.

(** [exportToExternalAPI(contentAssets, batchSize, exportFunction)].  With
    [batchSize = 0] the number of batches is [Infinity] and the loop does not
    end: [None]. *)
Definition exportToExternalAPI (contentAssets : list A) (batchSize : Q) (w : W)
  : option (ExportResult * W) :=
  let result := mkExportResult 0 0 0 [] in
  match contentAssets with
  | [] => Some (result, w)
  | _ :: _ =>
      if Qeq_bool batchSize 0 then None
      else
        let totalBatches := ceilDiv (List.length contentAssets) batchSize in
        Some (fold_left (processBatch contentAssets batchSize) (seq 0 totalBatches) (result, w))
  end.

End Orchestrator.

End ContentMapping.

(* ===================================================================== *)
(** ** salesforceKnowledgeHelper.js *)
(* ===================================================================== *)

Module Knowledge.

Definition API_VERSION : string := "v58.0".
Definition EXTERNAL_ID_FIELD : string := "SFCC_External_ID__c".

(** The SOQL texts that the helper sends: the version lookup by external id,
    with or without a status filter, and the lookup of a version by its id. *)
Inductive Soql : Type :=
| SelectVersions (articleType escapedId : string) (statusFilter : option string)
| SelectById (articleType articleId : string).

Definition selectVersion : string :=
  "SELECT Id, KnowledgeArticleId, Title, " ++ EXTERNAL_ID_FIELD ++ ", PublishStatus, VersionNumber ".

Definition soqlText (q : Soql) : string :=
  match q with
  | SelectVersions articleType escapedId statusFilter =>
      selectVersion ++ "FROM " ++ articleType
        ++ " WHERE " ++ EXTERNAL_ID_FIELD ++ " = '" ++ escapedId ++ "' "
        ++ match statusFilter with
           | Some st => "AND PublishStatus = '" ++ st ++ "' "
           | None => ""
           end
        ++ "ORDER BY VersionNumber DESC LIMIT 1"
  | SelectById articleType articleId =>
      "SELECT Id, KnowledgeArticleId FROM " ++ articleType ++ " WHERE Id = '" ++ articleId ++ "'"
  end.

(** The five kinds of request of the helper.  A request is kept in this
    structured form; [endpoint], [method] and [body] below render the
    parameters that the source passes to [service.call]. *)
Inductive Operation : Type :=
| Query (q : Soql)
| Create (articleType : string) (articleData : JSValue)
| Update (articleType draftId : string) (articleData : JSValue)
| EditOnline (knowledgeArticleId : JSValue)
| Publish (articleVersionId : JSValue).

Record Request : Type := mkRequest {
  accessToken : JSValue;
  instanceUrl : JSValue;
  operation : Operation
}.

Definition endpoint {P : Platform} (req : Request) : string :=
  match operation req with
  | Query q => "/query?q=" ++ encodeURIComponent (soqlText q)
  | Create articleType _ => "/sobjects/" ++ articleType
  | Update articleType draftId _ => "/sobjects/" ++ articleType ++ "/" ++ draftId
  | EditOnline _ => "/knowledgeManagement/articleVersions/masterVersions"
  | Publish _ => "/actions/standard/publishKnowledgeArticles"
  end.

Definition method (req : Request) : string :=
  match operation req with
  | Query _ => "GET"
  | Update _ _ _ => "PATCH"
  | Create _ _ | EditOnline _ | Publish _ => "POST"
  end.

Definition body (req : Request) : JSValue :=
  match operation req with
  | Query _ => JObj []
  | Create _ articleData | Update _ _ articleData => articleData
  | EditOnline knowledgeArticleId => JObj [("articleId", knowledgeArticleId)]
  | Publish articleVersionId =>
      JObj [("inputs", JArr [JObj [("articleVersionIdList", JArr [articleVersionId]);
                                   ("pubAction", JStr "PUBLISH_ARTICLE")]])]
  end.

Definition isPublish (req : Request) : bool :=
  match operation req with Publish _ => true | _ => false end.

(** What [parseResponse] of the Knowledge service builds:
    [{ statusCode, success, data, error }]. *)
Record ResponseObject : Type := mkResponseObject {
  statusCode : Z;
  responseSuccess : bool;
  data : JSValue;
  responseError : JSValue
}.

(** The [dw.svc.Result] of a call. *)
Record ServiceResult : Type := mkServiceResult {
  status : string;
  object : option ResponseObject;
  errorMessage : JSValue
}.

(** The result of [authHelper.getAccessToken]. *)
Record AuthResult : Type := mkAuthResult {
  authSuccess : bool;
  authAccessToken : JSValue;
  authInstanceUrl : JSValue;
  authError : JSValue
}.

(** The result of one upsert; an absent property is [JUndefined]. *)
Record SyncResult : Type := mkSyncResult {
  success : bool;
  knowledgeArticleId : JSValue;
  versionId : JSValue;
  syncOperation : JSValue;
  publishStatus : JSValue;
  error : JSValue;
  warning : JSValue;
  contentId : JSValue
}.

Record EditResult : Type := mkEditResult {
  editSuccess : bool;
  draftId : JSValue;
  editError : JSValue
}.

Record PublishResult : Type := mkPublishResult {
  publishSuccess : bool;
  publishError : JSValue
}.

Record BatchResult : Type := mkBatchResult {
  batchOk : bool;
  successCount : nat;
  failureCount : nat;
  details : list SyncResult;
  batchErrorMessage : JSValue
}.

Record MetadataResult : Type := mkMetadataResult {
  metadataSuccess : bool;
  metadataError : JSValue
}.

(** The collaborators of the engine, acting on the outside world [W]:
    [services.getKnowledgeService(serviceID).call(params)], which may throw,
    [authHelper.getAccessToken(serviceID)] and
    [contentMappingHelper.updateSyncMetadata(id, masterId, versionId)]. *)
Class Collaborators (W : Type) : Type := {
  serviceCall : string -> Request -> W -> Completion ServiceResult * W;
  getAccessToken : string -> W -> AuthResult * W;
  updateSyncMetadata : JSValue -> JSValue -> JSValue -> W -> MetadataResult * W
}.

(** A request together with what came back: a result, or an exception. *)
Record Exchange : Type := mkExchange {
  request : Request;
  answer : Completion ServiceResult
}.

(** The world together with the exchanges so far. *)
Record Session (W : Type) : Type := mkSession {
  world : W;
  calls : list Exchange
}.

(** [externalId.replace(/'/g, "\\'")] *)
Fixpoint escapeQuotes (s : string) : string :=
  match s with
  | EmptyString => EmptyString
  | String c r =>
      if Ascii.eqb c "'"%char then String "\"%char (String "'"%char (escapeQuotes r))
      else String c (escapeQuotes r)
  end.

Definition failure (err op : JSValue) : SyncResult :=
  mkSyncResult false JUndefined JUndefined op JUndefined err JUndefined JUndefined.

Definition succeeded (masterId version op pubStatus warn : JSValue) : SyncResult :=
  mkSyncResult true masterId version op pubStatus JUndefined warn JUndefined.

Definition withContentId (r : SyncResult) (id : JSValue) : SyncResult :=
  mkSyncResult (success r) (knowledgeArticleId r) (versionId r) (syncOperation r)
               (publishStatus r) (error r) (warning r) id.

Section Engine.
Context {P : Platform} {W : Type} {C : Collaborators W}.

(** Computations of the engine: they act on the session and may throw. *)
Definition Exec (A : Type) : Type := Session W -> Completion A * Session W.

Definition ret {A : Type} (a : A) : Exec A := fun s => (Normal a, s).

Definition bind {A B : Type} (c : Exec A) (k : A -> Exec B) : Exec B :=
  fun s => match c s with
           | (Normal a, s') => k a s'
           | (Throw msg, s') => (Throw msg, s')
           end.

Definition lift {A : Type} (c : Completion A) : Exec A := fun s => (c, s).

Definition tryCatch {A : Type} (block : Exec A) (handler : string -> Exec A) : Exec A :=
  fun s => match block s with
           | (Normal a, s') => (Normal a, s')
           | (Throw msg, s') => handler msg s'
           end.

Notation "x <- c ;; k" := (bind c (fun x => k))
  (at level 61, c at next level, right associativity).

(** [services.getKnowledgeService(serviceID).call(params)] *)
Definition call (serviceID : string) (req : Request) : Exec ServiceResult :=
  fun s => let (r, w') := serviceCall serviceID req (world s) in
           (r, mkSession w' (calls s ++ [mkExchange req r])).

Definition authenticate (serviceID : string) : Exec AuthResult :=
  fun s => let (r, w') := getAccessToken serviceID (world s) in
           (Normal r, mkSession w' (calls s)).

(** [result.status === 'OK' && result.object && result.object.success] *)
Definition isOK (result : ServiceResult) : bool :=
  String.eqb (status result) "OK"
  && match object result with
     | Some o => responseSuccess o
     | None => false
     end.

(** [result.object.data], read where [isOK] holds. *)
Definition dataOf (result : ServiceResult) : JSValue :=
  match object result with
  | Some o => data o
  | None => JUndefined
  end.

(** [result.object ? result.object.errorMessage : (result.errorMessage || dflt)];
    the response object has no [errorMessage] property. *)
Definition errorMessageOf (result : ServiceResult) (dflt : string) : JSValue :=
  match object result with
  | Some _ => JUndefined
  | None => or_else (errorMessage result) (JStr dflt)
  end.

(** [v.length] *)
Definition lengthOf (v : JSValue) : JSValue :=
  match v with
  | JArr elems => JNum (inject_Z (Z.of_nat (List.length elems)))
  | JStr s => JNum (inject_Z (Z.of_nat (String.length s)))
  | _ => getProp v "length"
  end.

(** [v > 0] *)
Definition greaterThanZero (v : JSValue) : bool :=
  match v with
  | JUndefined | JNull => false
  | JBool b => b
  | JNum q => negb (Qle_bool q 0)
  | JDate ms => (0 <? ms)%Z
  | JStr _ | JArr _ | JObj _ =>
      match stringToNumber (ToString v) with
      | Some q => negb (Qle_bool q 0)
      | None => false
      end
  end.

(** [records && records.length > 0] *)
Definition hasRecords (records : JSValue) : bool :=
  truthy records && greaterThanZero (lengthOf records).

Definition queryRequest (token url : JSValue) (q : Soql) : Request :=
  mkRequest token url (Query q).

(** One step of [findArticleByExternalId]: run the query and return its first
    record, or go on with [next]. *)
Definition firstRecordOr (serviceID : string) (token url : JSValue) (query : Soql)
           (next : Exec JSValue) : Exec JSValue :=
  result <- call serviceID (queryRequest token url query) ;;
  if isOK result then
    records <- lift (getMember (dataOf result) "records") ;;
    if hasRecords records then
      let article := getProp records "0" in
      _ <- lift (getMember article "Id") ;;              (* read by logger.info *)
      ret article
    else next
  else next.

(** [findArticleByExternalId(accessToken, instanceUrl, externalId, articleType,
    serviceID)]: the article found, or [JNull]. *)
Definition findArticleByExternalId (token url externalId articleType : JSValue)
           (serviceID : string) : Exec JSValue :=
  tryCatch
    (match externalId with
     | JStr id =>
         let escapedId := escapeQuotes id in
         let type := ToString articleType in
         firstRecordOr serviceID token url (SelectVersions type escapedId (Some "Draft"))
           (firstRecordOr serviceID token url (SelectVersions type escapedId (Some "Online"))
              (firstRecordOr serviceID token url (SelectVersions type escapedId None)
                 (ret JNull)))
     | _ => lift (Throw "externalId.replace is not a function")
     end)
    (fun _ => ret JNull).

(** [editOnlineArticle(accessToken, instanceUrl, knowledgeArticleId, serviceID)] *)
Definition editOnlineArticle (token url masterId : JSValue) (serviceID : string)
  : Exec EditResult :=
  tryCatch
    (result <- call serviceID (mkRequest token url (EditOnline masterId)) ;;
     if isOK result then
       id <- lift (getMember (dataOf result) "id") ;;
       ret (mkEditResult true id JUndefined)
     else
       ret (mkEditResult false JUndefined
              (errorMessageOf result "Failed to create draft version")))
    (fun msg => ret (mkEditResult false JUndefined (JStr ("Exception: " ++ msg)))).

(** [publishArticle(accessToken, instanceUrl, articleVersionId, serviceID)] *)
Definition publishArticle (token url articleVersionId : JSValue) (serviceID : string)
  : Exec PublishResult :=
  tryCatch
    (result <- call serviceID (mkRequest token url (Publish articleVersionId)) ;;
     if isOK result then
       let responseData := dataOf result in
       if truthy responseData && isArray responseData
          && greaterThanZero (lengthOf responseData) then
         let actionResult := getProp responseData "0" in
         isSuccess <- lift (getMember actionResult "isSuccess") ;;
         if truthy isSuccess then ret (mkPublishResult true JUndefined)
         else
           let errs := getProp actionResult "errors" in
           ret (mkPublishResult false
                  (if truthy errs && greaterThanZero (lengthOf errs)
                   then JSON_stringify errs
                   else JStr "Publish failed"))
       else
         ret (mkPublishResult false (JStr "Unexpected response structure from Actions API"))
     else
       ret (mkPublishResult false (errorMessageOf result "Publish failed")))
    (fun msg => ret (mkPublishResult false (JStr ("Exception: " ++ msg)))).

(** The tail shared by the update and the create path: publish when
    [publishArticles] is truthy. *)
Definition publishStep (token url masterId version : JSValue) (op : string)
           (publishArticles : JSValue) (serviceID : string) : Exec SyncResult :=
  if truthy publishArticles then
    publishResult <- publishArticle token url version serviceID ;;
    if negb (publishSuccess publishResult) then
      ret (succeeded masterId version (JStr op) (JStr "draft")
             (JStr ("Publish failed: " ++ ToString (publishError publishResult))))
    else
      ret (succeeded masterId version (JStr op) (JStr "online") JUndefined)
  else
    ret (succeeded masterId version (JStr op) (JStr "draft") JUndefined).

(** [updateArticleWithVersioning(accessToken, instanceUrl, existingArticle,
    articleData, articleType, enableDebugLogging, publishArticles, serviceID)]
    for an [existingArticle] that is truthy. *)
Definition updateArticleWithVersioning (token url existingArticle articleData articleType
                                         publishArticles : JSValue) (serviceID : string)
  : Exec SyncResult :=
  tryCatch
    (let masterId := getProp existingArticle "KnowledgeArticleId" in
     let isOnline := match getProp existingArticle "PublishStatus" with
                     | JStr st => String.eqb st "Online"
                     | _ => false
                     end in
     let continue (draft : JSValue) : Exec SyncResult :=
       updateResult <- call serviceID
                         (mkRequest token url
                            (Update (ToString articleType) (ToString draft) articleData)) ;;
       if negb (isOK updateResult) then
         ret (failure (JStr ("Failed to update draft: "
                               ++ ToString (errorMessageOf updateResult "Update failed")))
                      (JStr "update_draft"))
       else publishStep token url masterId draft "update" publishArticles serviceID in
     if isOnline then
       editResult <- editOnlineArticle token url masterId serviceID ;;
       if negb (editSuccess editResult) then
         ret (failure (JStr ("Failed to create draft: " ++ ToString (editError editResult)))
                      (JStr "edit_online"))
       else continue (draftId editResult)
     else
       (* 'Draft', or any other status with a logged warning *)
       continue (getProp existingArticle "Id"))
    (fun msg => ret (failure (JStr ("Exception: " ++ msg)) (JStr "update"))).

(** [createArticle(accessToken, instanceUrl, articleData, articleType,
    enableDebugLogging, publishArticles, serviceID)] *)
Definition createArticle (token url articleData articleType publishArticles : JSValue)
           (serviceID : string) : Exec SyncResult :=
  tryCatch
    (result <- call serviceID
                 (mkRequest token url (Create (ToString articleType) articleData)) ;;
     if isOK result then
       articleId <- lift (getMember (dataOf result) "id") ;;
       queryResult <- call serviceID
                        (queryRequest token url
                           (SelectById (ToString articleType) (ToString articleId))) ;;
       masterId <-
         (if isOK queryResult then
            records <- lift (getMember (dataOf queryResult) "records") ;;
            if hasRecords records then
              let record := getProp records "0" in
              _ <- lift (getMember record "Id") ;;        (* read by logger.info *)
              ret (getProp record "KnowledgeArticleId")
            else ret articleId
          else ret articleId) ;;
       publishStep token url masterId articleId "create" publishArticles serviceID
     else
       ret (failure (errorMessageOf result "Create failed") (JStr "create")))
    (fun msg => ret (failure (JStr ("Exception: " ++ msg)) (JStr "create"))).

(** [(config && config.k) || dflt] *)
Definition configOr (config : JSValue) (k : string) (dflt : JSValue) : JSValue :=
  or_else (if truthy config then getProp config k else config) dflt.

(** [JSON.parse(text)] of the platform. *)
Definition parseJSON (text : JSValue) : Completion JSValue := JSON_parse (ToString text).

(** [upsertKnowledgeArticle(contentAsset, config)].  The first statement reads
    [contentAsset.ID] outside the [try]. *)
Definition upsertKnowledgeArticle (contentAsset config : JSValue) : Exec SyncResult :=
  contentID <- lift (getMember contentAsset "ID") ;;
  tryCatch
    (let articleType := configOr config "articleType" (JStr "Knowledge__kav") in
     let fieldMappingJSON := configOr config "fieldMapping" (JStr "{}") in
     let dataCategory := configOr config "dataCategory" JNull in
     let publishArticles := configOr config "publishArticles" (JBool false) in
     let serviceID := configOr config "serviceID" JNull in
     if negb (truthy serviceID) then
       ret (failure (JStr "Service ID is required but not provided in configuration") JUndefined)
     else
       match serviceID with
       | JStr sid =>
           if String.eqb (trim sid) "" then
             ret (failure (JStr "Service ID is required but not provided in configuration")
                          JUndefined)
           else
             match parseJSON fieldMappingJSON with
             | Throw _ =>
                 ret (failure (JStr "Invalid field mapping configuration") JUndefined)
             | Normal fieldMapping =>
                 authResult <- authenticate sid ;;
                 if negb (authSuccess authResult) then
                   ret (failure (JStr ("Authentication failed: "
                                         ++ ToString (authError authResult))) JUndefined)
                 else
                   let token := authAccessToken authResult in
                   let url := authInstanceUrl authResult in
                   existingArticle <-
                     findArticleByExternalId token url contentID articleType sid ;;
                   let isCreate := negb (truthy existingArticle) in
                   articleData <-
                     lift (ContentMapping.mapContentToArticle contentAsset articleType
                             fieldMapping dataCategory isCreate) ;;
                   if List.length (keys articleData) <=? 1 then
                     ret (failure (JStr "Failed to map content to article") JUndefined)
                   else
                     let articleData := JObj (setProp EXTERNAL_ID_FIELD contentID articleData) in
                     result <-
                       (if truthy existingArticle
                        then updateArticleWithVersioning token url existingArticle articleData
                               articleType publishArticles sid
                        else createArticle token url articleData articleType
                               publishArticles sid) ;;
                     ret (withContentId result contentID)
             end
       | _ => lift (Throw "serviceID.trim is not a function")
       end)
    (fun msg => ret (withContentId (failure (JStr ("Exception: " ++ msg)) JUndefined) contentID)).

(** The [for] loop of [exportBatch]. *)
Fixpoint exportAssets (contentAssets : list JSValue) (config : JSValue) (result : BatchResult)
  : Session W -> Completion BatchResult * BatchResult * Session W :=
  fun s =>
    match contentAssets with
    | [] => (Normal result, result, s)
    | contentAsset :: rest =>
        match upsertKnowledgeArticle contentAsset config s with
        | (Throw msg, s') => (Throw msg, result, s')
        | (Normal upsertResult, s') =>
            let detail := withContentId upsertResult (getProp contentAsset "ID") in
            let result' :=
              if success upsertResult
              then mkBatchResult (batchOk result) (S (successCount result)) (failureCount result)
                                 (details result ++ [detail]) (batchErrorMessage result)
              else mkBatchResult (batchOk result) (successCount result) (S (failureCount result))
                                 (details result ++ [detail]) (batchErrorMessage result) in
            exportAssets rest config result' s'
        end
    end.

(** [exportBatch(contentAssets, config)] *)
Definition exportBatch (contentAssets : list JSValue) (config : JSValue)
  : Session W -> BatchResult * Session W :=
  fun s =>
    let result := mkBatchResult true 0 0 [] JUndefined in
    match contentAssets with
    | [] => (mkBatchResult true 0 0 [] (JStr "Empty batch"), s)
    | _ :: _ =>
        match exportAssets contentAssets config result s with
        | (Normal r, _, s') => (r, s')
        | (Throw msg, partial, s') =>
            (mkBatchResult false (successCount partial) (failureCount partial)
                           (details partial) (JStr ("Batch exception: " ++ msg)), s')
        end
    end.

End Engine.

End Knowledge.

(* ===================================================================== *)
(** ** ExportContentToKnowledge.js, step 5 *)
(* ===================================================================== *)

Module ExportJob.
Import Knowledge.

Section Job.
Context {P : Platform} {W : Type} {C : Collaborators W}.

(** The loop over [batchResult.details] in the callback of step 5. *)
Fixpoint updateMetadataFor (batchDetails : list SyncResult) (w : W) : W :=
  match batchDetails with
  | [] => w
  | detail :: rest =>
      if success detail && truthy (knowledgeArticleId detail) && truthy (versionId detail)
      then updateMetadataFor rest
             (snd (updateSyncMetadata (contentId detail) (knowledgeArticleId detail)
                                      (versionId detail) w))
      else updateMetadataFor rest w
  end.

(** What the orchestrator reads of the result of [exportBatch]. *)
Definition outcomeOf (batchResult : BatchResult) : ContentMapping.BatchOutcome :=
  ContentMapping.mkBatchOutcome (batchOk batchResult) (Some (successCount batchResult))
    (match batchErrorMessage batchResult with
     | JStr e => Some e
     | _ => None
     end).

(** [function (batch) { ... return batchResult; }] *)
Definition batchCallback (config : JSValue) (batch : list JSValue)
  : Session W -> Completion ContentMapping.BatchOutcome * Session W :=
  fun s =>
    let (batchResult, s1) := exportBatch batch config s in
    let s2 :=
      match batchOk batchResult, details batchResult with
      | true, _ :: _ => mkSession (updateMetadataFor (details batchResult) (world s1)) (calls s1)
      | _, _ => s1
      end in
    (Normal (outcomeOf batchResult), s2).

(** [contentMappingHelper.exportToExternalAPI(contentAssets, batchSize, function (batch) ...)];
    the callback returns the batch result, an object. *)
Definition exportStep (config : JSValue) (contentAssets : list JSValue) (batchSize : Q)
  : Session W -> option (ContentMapping.ExportResult * Session W) :=
  ContentMapping.exportToExternalAPI
    (fun batch s =>
       match batchCallback config batch s with
       | (Normal batchResult, s') => (Normal (ContentMapping.ReturnedValue batchResult), s')
       | (Throw message, s') => (Throw message, s')
       end)
    contentAssets batchSize.

End Job.

End ExportJob.

(* ===================================================================== *)
(** ** The remote knowledge base *)
(* ===================================================================== *)

Module Remote.
Import Knowledge.

(** *** A remote that plays back recorded answers

    The world is the list of the answers still to give; a call with no answer
    left throws. *)
Definition Script : Type := list (Completion ServiceResult).

Definition scriptedCall (serviceID : string) (req : Request) (w : Script)
  : Completion ServiceResult * Script :=
  match w with
  | [] => (Throw "no answer", [])
  | answer :: rest => (answer, rest)
  end.

Definition okAuth : AuthResult :=
  mkAuthResult true (JStr "token") (JStr "https://remote.example") JUndefined.

Definition scripted : Collaborators Script := {|
  serviceCall := scriptedCall;
  getAccessToken := fun _ w => (okAuth, w);
  updateSyncMetadata := fun _ _ _ w => (mkMetadataResult true JUndefined, w)
|}.

Definition answerOK (code : Z) (d : JSValue) : Completion ServiceResult :=
  Normal (mkServiceResult "OK" (Some (mkResponseObject code true d JNull)) JNull).

Definition answerError (msg : string) : Completion ServiceResult :=
  Normal (mkServiceResult "ERROR" None (JStr msg)).

(** *** A remote that cannot be reached

    Every call comes back with the status [ERROR] and no response object. *)
Definition unreachable : Collaborators unit := {|
  serviceCall := fun _ _ w => (answerError "Connection refused", w);
  getAccessToken := fun _ w => (okAuth, w);
  updateSyncMetadata := fun _ _ _ w => (mkMetadataResult true JUndefined, w)
|}.

(** *** A simulated knowledge base

    Modelled from the spec: the remote versioned-resource collaborator, which
    is outside the repository.  It stores article versions
    ([TargetArticleVersion]), answers the lookups with the newest matching
    version (it reads the string literal of a lookup by the rules of the
    query language, not by those of the engine, and answers a malformed
    lookup with an error), creates versions as drafts, creates a draft from a
    published master unless the master already has one, updates drafts only,
    and publishes a draft by archiving the online version of its master. *)
Record Version : Type := mkVersion {
  versionKey : string;
  masterKey : string;
  objectType : string;
  versionStatus : string;
  externalId : JSValue;
  versionNumber : nat
}.

Record Org : Type := mkOrg {
  versions : list Version;
  issued : nat
}.

Definition row (v : Version) : JSValue :=
  JObj [("Id", JStr (versionKey v));
        ("KnowledgeArticleId", JStr (masterKey v));
        (EXTERNAL_ID_FIELD, externalId v);
        ("PublishStatus", JStr (versionStatus v));
        ("VersionNumber", JNum (inject_Z (Z.of_nat (versionNumber v))))].

(** The character that an escape sequence of the query language denotes:
    backslash with a quote, a double quote or a backslash, and with [n], [r],
    [t], [b] or [f] in either case. *)
Definition escaped (c : ascii) : option ascii :=
  let n := nat_of_ascii c in
  if (n =? 39) || (n =? 34) || (n =? 92) then Some c
  else if (n =? 110) || (n =? 78) then Some (ascii_of_nat 10)
  else if (n =? 114) || (n =? 82) then Some (ascii_of_nat 13)
  else if (n =? 116) || (n =? 84) then Some (ascii_of_nat 9)
  else if (n =? 98) || (n =? 66) then Some (ascii_of_nat 8)
  else if (n =? 102) || (n =? 70) then Some (ascii_of_nat 12)
  else None.

(** The text that the string literal ['literal'] of a query denotes.  A quote
    that no backslash escapes ends the literal before its end, and a
    backslash must start an escape sequence: otherwise the query is
    malformed. *)
Fixpoint literalValue (literal : string) : option string :=
  match literal with
  | EmptyString => Some EmptyString
  | String c rest =>
      if Ascii.eqb c "'"%char then None
      else if Ascii.eqb c "\"%char then
        match rest with
        | EmptyString => None
        | String e rest' =>
            match escaped e, literalValue rest' with
            | Some x, Some tail => Some (String x tail)
            | _, _ => None
            end
        end
      else
        match literalValue rest with
        | Some tail => Some (String c tail)
        | None => None
        end
  end.

Definition wellFormed (q : Soql) : bool :=
  match q with
  | SelectVersions _ literal _ =>
      match literalValue literal with Some _ => true | None => false end
  | SelectById _ _ => true
  end.

(** The external id of the version is the text that the literal denotes. *)
Definition hasExternalId (literal : string) (v : Version) : bool :=
  match literalValue literal, externalId v with
  | Some id, JStr x => String.eqb x id
  | _, _ => false
  end.

Definition selects (q : Soql) (v : Version) : bool :=
  match q with
  | SelectVersions articleType escapedId statusFilter =>
      String.eqb (objectType v) articleType
      && hasExternalId escapedId v
      && match statusFilter with
         | Some st => String.eqb (versionStatus v) st
         | None => true
         end
  | SelectById articleType articleId =>
      String.eqb (objectType v) articleType && String.eqb (versionKey v) articleId
  end.

(** [ORDER BY VersionNumber DESC LIMIT 1]: the first version with the
    greatest number. *)
Definition newer (best : option Version) (v : Version) : option Version :=
  match best with
  | None => Some v
  | Some b => if versionNumber b <? versionNumber v then Some v else Some b
  end.

Definition newest (p : Version -> bool) (l : list Version) : option Version :=
  fold_left (fun best v => if p v then newer best v else best) l None.

Definition answerQuery (q : Soql) (org : Org) : JSValue :=
  match q with
  | SelectVersions _ _ _ =>
      JObj [("done", JBool true);
            ("records", JArr (match newest (selects q) (versions org) with
                              | Some v => [row v]
                              | None => []
                              end))]
  | SelectById _ _ =>
      JObj [("done", JBool true);
            ("records", JArr (map row (filter (selects q) (versions org))))]
  end.

Definition newKey (pre : string) (org : Org) : string := pre ++ indexToString (issued org).

Definition isDraft (v : Version) : bool := String.eqb (versionStatus v) "Draft".
Definition isOnline (v : Version) : bool := String.eqb (versionStatus v) "Online".

Definition patchable (articleType draftId : string) (v : Version) : bool :=
  String.eqb (versionKey v) draftId && String.eqb (objectType v) articleType && isDraft v.

Definition patch (articleType draftId : string) (articleData : JSValue) (v : Version) : Version :=
  if patchable articleType draftId v
  then mkVersion (versionKey v) (masterKey v) (objectType v) (versionStatus v)
                 (match assoc EXTERNAL_ID_FIELD (ownProps articleData) with
                  | Some x => x
                  | None => externalId v
                  end)
                 (versionNumber v)
  else v.

Definition withStatus (st : string) (v : Version) : Version :=
  mkVersion (versionKey v) (masterKey v) (objectType v) st (externalId v) (versionNumber v).

Definition publishIn (draft : Version) (v : Version) : Version :=
  if String.eqb (versionKey v) (versionKey draft) && isDraft v then withStatus "Online" v
  else if String.eqb (masterKey v) (masterKey draft) && isOnline v then withStatus "Archived" v
  else v.

Definition respond (req : Request) (org : Org) : Completion ServiceResult * Org :=
  match operation req with
  | Query q =>
      if wellFormed q then (answerOK 200 (answerQuery q org), org)
      else (answerError "MALFORMED_QUERY", org)
  | Create articleType articleData =>
      let v := mkVersion (newKey "ka" org) (newKey "kA" org) articleType "Draft"
                         (getProp articleData EXTERNAL_ID_FIELD) 1 in
      (answerOK 201 (JObj [("id", JStr (versionKey v)); ("success", JBool true)]),
       mkOrg (versions org ++ [v]) (S (issued org)))
  | Update articleType draftId articleData =>
      if existsb (patchable articleType draftId) (versions org)
      then (answerOK 204 JNull,
            mkOrg (map (patch articleType draftId articleData) (versions org)) (issued org))
      else (answerError "NOT_FOUND", org)
  | EditOnline (JStr master) =>
      match find (fun v => String.eqb (masterKey v) master && isOnline v) (versions org) with
      | Some published =>
          if existsb (fun v => String.eqb (masterKey v) master && isDraft v) (versions org)
          then (answerError "TRANSLATIONALREADYEXIST", org)
          else
            let v := mkVersion (newKey "ka" org) master (objectType published) "Draft"
                               (externalId published) (S (versionNumber published)) in
            (answerOK 201 (JObj [("id", JStr (versionKey v))]),
             mkOrg (versions org ++ [v]) (S (issued org)))
      | None => (answerError "NOT_FOUND", org)
      end
  | EditOnline _ => (answerError "INVALID_ID", org)
  | Publish (JStr version) =>
      match find (fun v => String.eqb (versionKey v) version && isDraft v) (versions org) with
      | Some draft =>
          (answerOK 200 (JArr [JObj [("isSuccess", JBool true)]]),
           mkOrg (map (publishIn draft) (versions org)) (issued org))
      | None =>
          (answerOK 200 (JArr [JObj [("isSuccess", JBool false);
                                     ("errors", JArr [JStr "NOT_A_DRAFT"])]]), org)
      end
  | Publish _ => (answerError "INVALID_ID", org)
  end.

Definition simulated : Collaborators Org := {|
  serviceCall := fun _ req org => respond req org;
  getAccessToken := fun _ org => (okAuth, org);
  updateSyncMetadata := fun _ _ _ org => (mkMetadataResult true JUndefined, org)
|}.

End Remote.

(* ===================================================================== *)
(** ** The responses of the Knowledge service *)
(* ===================================================================== *)

Module KnowledgeService.
Import Knowledge.

Section WithPlatform.
Context {P : Platform}.

(** [parseResponse(svc, httpClient)] of the Knowledge service, on
    [httpClient.statusCode] and [httpClient.text] (a string, or null). *)
Definition parseResponse (code : Z) (responseText : option string) : ResponseObject :=
  let ok := (200 <=? code)%Z && (code <? 300)%Z in
  let parsed :=
    match responseText with
    | Some text =>
        if truthy (JStr text) then
          match JSON_parse text with
          | Normal v => v
          | Throw _ => JStr text
          end
        else JNull
    | None => JNull
    end in
  mkResponseObject code ok parsed
    (if negb ok
     then or_else parsed (JStr ("HTTP " ++ numberToString (inject_Z code)))
     else JNull).

End WithPlatform.

End KnowledgeService.

(* ===================================================================== *)
(** ** The record type lookup *)
(* ===================================================================== *)

Module RecordType.
Import Knowledge.

(** The request of the lookup: [{ accessToken, instanceUrl, endpoint,
    method: 'GET', body: {} }]. *)
Record Lookup : Type := mkLookup {
  lookupToken : JSValue;
  lookupUrl : JSValue;
  lookupEndpoint : string
}.

(** [services.getKnowledgeService(serviceID)] followed by [service.call]:
    either of them may throw; [None] is a service that is falsy. *)
Class LookupService (W : Type) : Type := {
  lookupCall : JSValue -> Lookup -> W -> Completion (option ServiceResult) * W
}.

(** What the functions of the helper return; an absent property is
    [JUndefined]. *)
Record RecordTypeResult : Type := mkRecordTypeResult {
  rtSuccess : bool;
  recordTypeId : JSValue;
  cached : JSValue;
  rtError : JSValue;
  recordTypeName : JSValue;
  developerName : JSValue
}.

(** The module variable [recordTypeCache] and the world of the service. *)
Record Store (W : Type) : Type := mkStore {
  recordTypeCache : list (string * JSValue);
  remote : W
}.

Definition notLookedUp : RecordTypeResult :=
  mkRecordTypeResult true JNull JUndefined JUndefined JUndefined JUndefined.

Definition fromCache (id : JSValue) : RecordTypeResult :=
  mkRecordTypeResult true id (JBool true) JUndefined JUndefined JUndefined.

Definition lookupFailed (err : string) : RecordTypeResult :=
  mkRecordTypeResult false JUndefined JUndefined (JStr err) JUndefined JUndefined.

(** [escapeSoql(value)] *)
Definition escapeSoql (value : JSValue) : Completion JSValue :=
  if negb (truthy value) then Normal value
  else match value with
       | JStr s => Normal (JStr (escapeQuotes s))
       | _ => Throw "value.replace is not a function"
       end.

(** [!recordTypeName || recordTypeName.trim() === ''] *)
Definition blankName (recordTypeName : JSValue) : Completion bool :=
  if negb (truthy recordTypeName) then Normal true
  else match recordTypeName with
       | JStr s => Normal (String.eqb (trim s) "")
       | _ => Throw "recordTypeName.trim is not a function"
       end.

(** [records.length === 0] *)
Definition noRecords (records : JSValue) : bool :=
  match lengthOf records with
  | JNum q => Qeq_bool q 0
  | _ => false
  end.

Section Helper.
Context {P : Platform} {W : Type} {L : LookupService W}.

(** [articleType + ':' + recordTypeName] *)
Definition cacheKeyOf (recordTypeName articleType : JSValue) : string :=
  ToString articleType ++ ":" ++ ToString recordTypeName.

Definition recordTypeQuery (escapedType escapedName : JSValue) : string :=
  "SELECT Id, Name, DeveloperName, Description "
    ++ "FROM RecordType "
    ++ "WHERE SObjectType = '" ++ ToString escapedType ++ "' "
    ++ "AND DeveloperName = '" ++ ToString escapedName ++ "' "
    ++ "LIMIT 1".

(** What follows the call, for a result of the service. *)
Definition readRecordType (recordTypeName articleType : JSValue) (result : ServiceResult)
           (cache : list (string * JSValue))
  : Completion RecordTypeResult * list (string * JSValue) :=
  if negb (String.eqb (status result) "OK") then
    (Normal (lookupFailed ("Service call failed with status: " ++ status result)), cache)
  else
    match object result with
    | None => (Normal (lookupFailed "Unknown error"), cache)
    | Some o =>
        if negb (responseSuccess o) then (Normal (lookupFailed "Unknown error"), cache)
        else
          let records :=
            if truthy (data o) && truthy (getProp (data o) "records")
            then getProp (data o) "records"
            else JArr [] in
          if noRecords records then
            (Normal (lookupFailed ("Record Type " ++ SiteConfig.dq ++ ToString recordTypeName
                                     ++ SiteConfig.dq ++ " not found for "
                                     ++ ToString articleType)), cache)
          else
            let recordType := getProp records "0" in
            match getMember recordType "Id" with
            | Throw msg => (Throw msg, cache)
            | Normal id =>
                (Normal (mkRecordTypeResult true id JUndefined JUndefined
                           (getProp recordType "Name") (getProp recordType "DeveloperName")),
                 setProp (cacheKeyOf recordTypeName articleType) id cache)
            end
    end.

(** The body of the [try] of [getRecordTypeId]. *)
Definition lookUp (recordTypeName articleType accessToken instanceUrl serviceID : JSValue)
           (st : Store W) : Completion RecordTypeResult * Store W :=
  match escapeSoql articleType with
  | Throw msg => (Throw msg, st)
  | Normal escapedType =>
      match escapeSoql recordTypeName with
      | Throw msg => (Throw msg, st)
      | Normal escapedName =>
          let query := recordTypeQuery escapedType escapedName in
          match lookupCall serviceID
                  (mkLookup accessToken instanceUrl ("/query?q=" ++ encodeURIComponent query))
                  (remote st) with
          | (Throw msg, w) => (Throw msg, mkStore (recordTypeCache st) w)
          | (Normal None, w) =>
              (Normal (lookupFailed ("Service not found: " ++ ToString serviceID)),
               mkStore (recordTypeCache st) w)
          | (Normal (Some result), w) =>
              let (r, cache) := readRecordType recordTypeName articleType result
                                               (recordTypeCache st) in
              (r, mkStore cache w)
          end
      end
  end.

(** [getRecordTypeId(recordTypeName, articleType, accessToken, instanceUrl,
    serviceID)]; the test of the name is outside the [try]. *)
Definition getRecordTypeId (recordTypeName articleType accessToken instanceUrl
                             serviceID : JSValue) (st : Store W)
  : Completion RecordTypeResult * Store W :=
  match blankName recordTypeName with
  | Throw msg => (Throw msg, st)
  | Normal true => (Normal notLookedUp, st)
  | Normal false =>
      let cacheKey := cacheKeyOf recordTypeName articleType in
      let hit := getProp (JObj (recordTypeCache st)) cacheKey in
      if truthy hit then (Normal (fromCache hit), st)
      else
        match lookUp recordTypeName articleType accessToken instanceUrl serviceID st with
        | (Normal r, st') => (Normal r, st')
        | (Throw msg, st') => (Normal (lookupFailed ("Exception: " ++ msg)), st')
        end
  end.

(** [clearCache()] *)
Definition clearCache (st : Store W) : Store W := mkStore [] (remote st).

(** [getCacheStats().size] *)
Definition cacheSize (st : Store W) : nat := List.length (recordTypeCache st).

(** [getRecordTypeIdFromConfig(config, accessToken, instanceUrl, serviceID)] *)
Definition getRecordTypeIdFromConfig (config accessToken instanceUrl serviceID : JSValue)
           (st : Store W) : Completion RecordTypeResult * Store W :=
  if negb (truthy config) then (Normal notLookedUp, st)
  else getRecordTypeId (getProp config "recordTypeName")
                       (or_else (getProp config "articleType") (JStr "Knowledge__kav"))
                       accessToken instanceUrl serviceID st.

End Helper.

End RecordType.

(* ===================================================================== *)
(** ** The token of the OAuth service *)
(* ===================================================================== *)

Module Auth.

(** [dw.svc.ServiceCredential]: [user] and [password] are strings or null,
    [custom] holds the custom attributes. *)
Record Credentials : Type := mkCredentials {
  credUser : option string;
  credPassword : option string;
  credCustom : JSValue
}.

Record ServiceConfiguration : Type := mkServiceConfiguration {
  getCredential : option Credentials
}.

Record OAuthService : Type := mkOAuthService {
  getConfiguration : option ServiceConfiguration
}.

(** The [params] of the call. *)
Inductive Grant : Type :=
| ClientCredentials (clientId clientSecret : JSValue)
| PasswordGrant (clientId clientSecret : JSValue) (username passwordAndToken : string).

(** What [authService.call(params)] returns: [status], [object],
    [errorMessage], [msg] and [error]. *)
Record OAuthCallResult : Type := mkOAuthCallResult {
  callStatus : string;
  callObject : JSValue;
  callErrorMessage : JSValue;
  callMsg : JSValue;
  callError : JSValue
}.

(** [services.getOAuthService(serviceId)], which may throw and whose result
    may be falsy, and [authService.call(params)]. *)
Class OAuthPlatform (W : Type) : Type := {
  getOAuthService : string -> W -> Completion (option OAuthService);
  oauthCall : string -> Grant -> W -> Completion OAuthCallResult * W
}.

(** The result of [getAccessToken]; an absent property is [JUndefined]. *)
Record TokenResult : Type := mkTokenResult {
  tokenSuccess : bool;
  tokenAccessToken : JSValue;
  tokenInstanceUrl : JSValue;
  tokenType : JSValue;
  issuedAt : JSValue;
  userId : JSValue;
  orgId : JSValue;
  tokenError : JSValue;
  tokenStatusCode : JSValue
}.

(** [request.custom]: falsy, or an object with or without an entry for
    [CACHE_KEY]; and the world of the service. *)
Record AuthState (W : Type) : Type := mkAuthState {
  requestCustom : option (option TokenResult);
  oauthWorld : W
}.

Record Validation : Type := mkValidation {
  valid : bool;
  errors : list string;
  warnings : list string
}.

Definition tokenFailure (err : JSValue) (code : JSValue) : TokenResult :=
  mkTokenResult false JUndefined JUndefined JUndefined JUndefined JUndefined JUndefined err code.

Definition refused (err : string) : TokenResult := tokenFailure (JStr err) JUndefined.

(** [!serviceId || serviceId.trim() === ''] *)
Definition blankId (serviceId : JSValue) : Completion bool :=
  if negb (truthy serviceId) then Normal true
  else match serviceId with
       | JStr s => Normal (String.eqb (trim s) "")
       | _ => Throw "serviceId.trim is not a function"
       end.

(** Truthiness of a string that may be null. *)
Definition present (s : option string) : bool :=
  match s with
  | Some text => negb (String.eqb text "")
  | None => false
  end.

(** [!s || s.trim() === ''] on a string that may be null. *)
Definition blankText (s : option string) : bool :=
  match s with
  | Some text => String.eqb text "" || String.eqb (trim text) ""
  | None => true
  end.

(** [credentials.custom.granttype], or its first element when it is an
    array. *)
Definition grantTypeOf (custom : JSValue) : JSValue :=
  let grantType := getProp custom "granttype" in
  if truthy grantType && String.eqb (typeof grantType) "object"
     && truthy (Knowledge.lengthOf grantType)
  then getProp grantType "0"
  else grantType.

(** [None] when [!grantType || typeof grantType !== 'string' ||
    grantType.trim() === '']; else [grantType.toString().trim()]. *)
Definition usableGrantType (grantType : JSValue) : option string :=
  match grantType with
  | JStr s => if negb (truthy grantType) || String.eqb (trim s) "" then None else Some (trim s)
  | _ => None
  end.

Definition invalidGrantType : string :=
  "Invalid grant type. Must be " ++ SiteConfig.dq ++ "password" ++ SiteConfig.dq
    ++ " or " ++ SiteConfig.dq ++ "client_credentials" ++ SiteConfig.dq.

Section Helper.
Context {P : Platform} {W : Type} {O : OAuthPlatform W}.

(** From the credentials to the parameters of the call, or to the failure
    that [getAccessToken] returns. *)
Definition grantFor (credentials : Credentials) : TokenResult + Grant :=
  let custom := credCustom credentials in
  if negb (truthy custom) || negb (truthy (getProp custom "clientid"))
     || negb (truthy (getProp custom "clientsecret"))
  then inl (refused ("Incomplete service credentials. "
                       ++ "Add clientid, clientsecret, and granttype as custom fields"))
  else
    match usableGrantType (grantTypeOf custom) with
    | None => inl (refused "Grant type not configured in service credentials")
    | Some grantType =>
        if String.eqb grantType "client_credentials" then
          inr (ClientCredentials (getProp custom "clientid") (getProp custom "clientsecret"))
        else if String.eqb grantType "password" then
          match credUser credentials, credPassword credentials with
          | Some user, Some password =>
              if negb (present (Some user)) || negb (present (Some password)) then
                inl (refused "Username and password must be configured for password grant type")
              else
                inr (PasswordGrant (getProp custom "clientid") (getProp custom "clientsecret")
                       user
                       (password ++ ToString (or_else (getProp custom "securityToken")
                                                      (JStr ""))))
          | _, _ =>
              inl (refused "Username and password must be configured for password grant type")
          end
        else inl (refused invalidGrantType)
    end.

(** [orgId] and [userId] from [oauthResponse.id]. *)
Definition idParts (id : JSValue) : Completion (JSValue * JSValue) :=
  if truthy id then
    match id with
    | JStr s =>
        let parts := split "/"%char s in
        let n := List.length parts in
        if 2 <=? n
        then Normal (JStr (nth (n - 2) parts ""), JStr (nth (n - 1) parts ""))
        else Normal (JNull, JNull)
    | _ => Throw "oauthResponse.id.split is not a function"
    end
  else Normal (JNull, JNull).

(** What follows the call: the result, and whether it is to be cached. *)
Definition readToken (result : OAuthCallResult) : Completion (TokenResult * bool) :=
  if String.eqb (callStatus result) "OK" && truthy (callObject result) then
    let oauthResponse := callObject result in
    if truthy (getProp oauthResponse "access_token")
       && truthy (getProp oauthResponse "instance_url") then
      match idParts (getProp oauthResponse "id") with
      | Throw msg => Throw msg
      | Normal (org, user) =>
          Normal (mkTokenResult true
                    (getProp oauthResponse "access_token")
                    (getProp oauthResponse "instance_url")
                    (or_else (getProp oauthResponse "token_type") (JStr "Bearer"))
                    (getProp oauthResponse "issued_at")
                    user org JUndefined JUndefined,
                  true)
      end
    else
      Normal (refused "Invalid OAuth response structure - missing access_token or instance_url",
              false)
  else
    let errorMsg := or_else (or_else (callErrorMessage result) (callMsg result))
                            (JStr "Unknown OAuth error") in
    let userError :=
      if truthy (callObject result) && truthy (getProp (callObject result) "error_description")
      then getProp (callObject result) "error_description"
      else errorMsg in
    Normal (tokenFailure userError (callError result), false).

(** The call and what follows it, inside the [try]. *)
Definition requestToken (serviceId : string) (grant : Grant) (st : AuthState W)
  : TokenResult * AuthState W :=
  match oauthCall serviceId grant (oauthWorld st) with
  | (Throw msg, w) => (refused ("OAuth exception: " ++ msg), mkAuthState (requestCustom st) w)
  | (Normal result, w) =>
      match readToken result with
      | Throw msg => (refused ("OAuth exception: " ++ msg), mkAuthState (requestCustom st) w)
      | Normal (authResult, true) => (authResult, mkAuthState (Some (Some authResult)) w)
      | Normal (authResult, false) => (authResult, mkAuthState (requestCustom st) w)
      end
  end.

(** [getAccessToken(serviceId)]; the test of the service id is outside the
    [try]. *)
Definition getAccessToken (serviceId : JSValue) (st : AuthState W)
  : Completion TokenResult * AuthState W :=
  match blankId serviceId with
  | Throw msg => (Throw msg, st)
  | Normal true =>
      (Normal (refused "Service ID is required but not configured in job parameters"), st)
  | Normal false =>
      match requestCustom st with
      | Some (Some cachedResult) => (Normal cachedResult, st)
      | _ =>
          match getOAuthService (ToString serviceId) (oauthWorld st) with
          | Throw _ =>
              (Normal (refused ("Salesforce OAuth service is not configured in Business Manager. "
                                  ++ "Please configure service with ID: " ++ ToString serviceId
                                  ++ " at Administration > Operations > Services")), st)
          | Normal None => (Normal (refused "OAuth service not configured"), st)
          | Normal (Some authService) =>
              match getConfiguration authService with
              | None =>
                  (Normal (refused ("OAuth exception: "
                                      ++ "Cannot call method getCredential of null")), st)
              | Some serviceConfig =>
                  match getCredential serviceConfig with
                  | None => (Normal (refused "Service credentials not configured"), st)
                  | Some credentials =>
                      match grantFor credentials with
                      | inl failure => (Normal failure, st)
                      | inr grant =>
                          let (authResult, st') :=
                            requestToken (ToString serviceId) grant st in
                          (Normal authResult, st')
                      end
                  end
              end
          end
      end
  end.

(** [clearCachedToken()] *)
Definition clearCachedToken (st : AuthState W) : AuthState W :=
  match requestCustom st with
  | Some (Some _) => mkAuthState (Some None) (oauthWorld st)
  | _ => st
  end.

Definition pushWhen (c : bool) (message : string) : list string := if c then [message] else [].

(** The checks of [validateConfiguration] on the credentials: the errors and
    the warnings, in the order in which they are pushed. *)
Definition checkCredentials (credentials : Credentials) : list string * list string :=
  let custom := credCustom credentials in
  if negb (truthy custom) then (["Custom credential fields not configured"], [])
  else
    let missing :=
      pushWhen (negb (truthy (getProp custom "clientid")))
           ("Custom field " ++ SiteConfig.dq ++ "clientid" ++ SiteConfig.dq ++ " not configured")
      ++ pushWhen (negb (truthy (getProp custom "clientsecret")))
              ("Custom field " ++ SiteConfig.dq ++ "clientsecret" ++ SiteConfig.dq
                 ++ " not configured") in
    match usableGrantType (grantTypeOf custom) with
    | None =>
        (missing ++ [("Custom field " ++ SiteConfig.dq ++ "granttype" ++ SiteConfig.dq
                        ++ " not configured. Must be " ++ SiteConfig.dq ++ "password"
                        ++ SiteConfig.dq ++ " or " ++ SiteConfig.dq ++ "client_credentials"
                        ++ SiteConfig.dq)%string], [])
    | Some grantType =>
        if String.eqb grantType "password" then
          (missing
             ++ pushWhen (blankText (credUser credentials))
                     "Username not configured (required for password grant type)"
             ++ pushWhen (blankText (credPassword credentials))
                     "Password not configured (required for password grant type)",
           pushWhen (negb (truthy (getProp custom "securityToken")))
                ("Custom field " ++ SiteConfig.dq ++ "securityToken" ++ SiteConfig.dq
                   ++ " not configured (may be required for password grant)"))
        else if String.eqb grantType "client_credentials" then
          (missing,
           pushWhen (present (credUser credentials) || present (credPassword credentials))
                "Username/password configured but not used for client_credentials grant type")
        else
          (missing ++ [("Invalid granttype: " ++ SiteConfig.dq ++ grantType ++ SiteConfig.dq
                          ++ ". Must be " ++ SiteConfig.dq ++ "password" ++ SiteConfig.dq
                          ++ " or " ++ SiteConfig.dq ++ "client_credentials"
                          ++ SiteConfig.dq)%string],
           [])
    end.

Definition invalid (messages : list string) : Validation := mkValidation false messages [].

(** [validateConfiguration(serviceId)] *)
Definition validateConfiguration (serviceId : JSValue) (w : W) : Completion Validation :=
  match blankId serviceId with
  | Throw msg => Throw msg
  | Normal true =>
      Normal (invalid ["Service ID not provided. Configure ServiceID parameter in job step."])
  | Normal false =>
      match getOAuthService (ToString serviceId) w with
      | Throw _ =>
          Normal (invalid [("Salesforce OAuth service (ID: " ++ ToString serviceId
                              ++ ") is not configured in Business Manager")%string;
                           "Configure at: Administration > Operations > Services"])
      | Normal None =>
          Normal (invalid [("OAuth service not found (ID: " ++ ToString serviceId
                              ++ ")")%string])
      | Normal (Some authService) =>
          match getConfiguration authService with
          | None => Normal (invalid ["Service configuration not found"])
          | Some serviceConfig =>
              match getCredential serviceConfig with
              | None => Normal (invalid ["Service credentials not configured"])
              | Some credentials =>
                  let (errs, warns) := checkCredentials credentials in
                  Normal (mkValidation (List.length errs =? 0) errs warns)
              end
          end
      end
  end.

End Helper.

End Auth.

(* ===================================================================== *)
(** ** A platform for closed runs *)
(* ===================================================================== *)

Module Runs.

(** The text [{"Title":"name"}]. *)
Definition titleMappingText : string :=
  "{" ++ SiteConfig.dq ++ "Title" ++ SiteConfig.dq ++ ":"
      ++ SiteConfig.dq ++ "name" ++ SiteConfig.dq ++ "}".

Definition renderZ (z : Z) : string :=
  match z with
  | Z0 => "0"
  | Zpos p => indexToString (Pos.to_nat p)
  | Zneg p => "-" ++ indexToString (Pos.to_nat p)
  end.

(** The runs below read two JSON texts and never render a fraction, a date
    or an object: [JSON.parse] is tabulated on these texts and the renderings
    are plain. *)
Definition platform : Platform := {|
  numberToString := fun q => renderZ (Qnum q / Zpos (Qden q));
  dateToString := fun ms => renderZ ms;
  JSON_stringify := fun v => match v with JUndefined => JUndefined | _ => JStr "{}" end;
  stringToNumber := fun _ => None;
  encodeURIComponent := fun s => s;
  regExpReplace := fun _ _ _ subject => Normal subject;
  JSON_parse := fun text =>
    if String.eqb text "{}" then Normal (JObj [])
    else if String.eqb text titleMappingText then Normal (JObj [("Title", JStr "name")])
    else Throw "Unexpected token"
|}.

End Runs.

(* ===================================================================== *)
(** * Properties *)
(* ===================================================================== *)

(** ** Association lists *)

Section AssocFacts.
Variable A : Type.
Implicit Types (l : list (string * A)) (k : string) (v : A).

Lemma assoc_setProp_same k v l : assoc k (setProp k v l) = Some v.
Proof.
  induction l as [|[k' v'] r IH]; simpl.
  - now rewrite String.eqb_refl.
  - destruct (String.eqb k k') eqn:E; simpl.
    + now rewrite String.eqb_refl.
    + now rewrite E.
Qed.

Lemma assoc_setProp_other k k' v l : k <> k' -> assoc k (setProp k' v l) = assoc k l.
Proof.
  intros N. induction l as [|[k2 v2] r IH]; simpl.
  - destruct (String.eqb k k') eqn:E; [apply String.eqb_eq in E; contradiction | reflexivity].
  - destruct (String.eqb k' k2) eqn:E; simpl.
    + apply String.eqb_eq in E. subst k2.
      destruct (String.eqb k k') eqn:E2; [apply String.eqb_eq in E2; contradiction | reflexivity].
    + destruct (String.eqb k k2); [reflexivity | exact IH].
Qed.

Lemma assoc_setProp k k' v l :
  assoc k (setProp k' v l) = if String.eqb k k' then Some v else assoc k l.
Proof.
  destruct (String.eqb k k') eqn:E.
  - apply String.eqb_eq in E. subst. apply assoc_setProp_same.
  - apply assoc_setProp_other. intros ->. now rewrite String.eqb_refl in E.
Qed.

Lemma assoc_In k v l : assoc k l = Some v -> In (k, v) l.
Proof.
  induction l as [|[k' v'] r IH]; simpl; [discriminate|].
  destruct (String.eqb k k') eqn:E.
  - apply String.eqb_eq in E. subst. intros [= ->]. now left.
  - intros H. right. now apply IH.
Qed.

Lemma assoc_None_keys k l : assoc k l = None <-> ~ In k (keys l).
Proof.
  induction l as [|[k' v'] r IH]; simpl.
  - tauto.
  - destruct (String.eqb k k') eqn:E.
    + apply String.eqb_eq in E. subst. split; [discriminate | intros H; exfalso; apply H; now left].
    + rewrite IH. split.
      * intros H [H1|H1]; [subst; now rewrite String.eqb_refl in E | tauto].
      * tauto.
Qed.

Lemma assoc_Some_keys k l : (exists v, assoc k l = Some v) <-> In k (keys l).
Proof.
  destruct (assoc k l) eqn:E.
  - split; [intros _ | intros _; eauto].
    apply assoc_In in E. unfold keys. change k with (fst (k, a)). now apply in_map.
  - split; [intros [v H]; discriminate | intros H].
    apply assoc_None_keys in E. contradiction.
Qed.

Lemma In_assoc_NoDup k v l : NoDup (keys l) -> In (k, v) l -> assoc k l = Some v.
Proof.
  induction l as [|[k' v'] r IH]; simpl; [tauto|].
  intros ND [H|H].
  - inversion H; subst. now rewrite String.eqb_refl.
  - inversion ND as [|? ? Hn ND']; subst.
    destruct (String.eqb k k') eqn:E.
    + apply String.eqb_eq in E. subst. exfalso. apply Hn.
      unfold keys. change k' with (fst (k', v)). now apply in_map.
    + now apply IH.
Qed.

Lemma keys_setProp k v l : forall x, In x (keys (setProp k v l)) <-> x = k \/ In x (keys l).
Proof.
  induction l as [|[k' v'] r IH]; simpl; intros x.
  - intuition.
  - destruct (String.eqb k k') eqn:E; simpl.
    + apply String.eqb_eq in E. subst. intuition.
    + rewrite IH. intuition.
Qed.


Lemma keys_setProp_absent k v l : ~ In k (keys l) -> keys (setProp k v l) = keys l ++ [k].
Proof.
  induction l as [|[k' v'] r IH]; simpl; [reflexivity|].
  intros H. destruct (String.eqb k k') eqn:E; simpl.
  - apply String.eqb_eq in E. subst. tauto.
  - rewrite IH; tauto.
Qed.




Lemma assoc_assignProp k k' v l :
  k <> "__proto__" ->
  assoc k (assignProp k' v l) = if String.eqb k k' then Some v else assoc k l.
Proof.
  intros N. unfold assignProp. destruct (String.eqb k' "__proto__") eqn:E.
  - apply String.eqb_eq in E. subst k'.
    destruct (String.eqb k "__proto__") eqn:E'; [|reflexivity].
    apply String.eqb_eq in E'. contradiction.
  - apply assoc_setProp.
Qed.

Lemma keys_assignProp k v l : forall x,
  In x (keys (assignProp k v l)) <-> (x = k /\ x <> "__proto__") \/ In x (keys l).
Proof.
  intros x. unfold assignProp. destruct (String.eqb k "__proto__") eqn:E.
  - apply String.eqb_eq in E. subst k. tauto.
  - rewrite keys_setProp.
    assert (N : k <> "__proto__") by (intros ->; now rewrite String.eqb_refl in E).
    split; [intros [->|H]; tauto | tauto].
Qed.

Lemma assoc_assignAll (props : list (string * A)) : forall acc k,
  NoDup (keys props) ->
  k <> "__proto__" ->
  assoc k (assignAll props acc) = match assoc k props with
                                  | Some v => Some v
                                  | None => assoc k acc
                                  end.
Proof.
  induction props as [|[k' v'] r IH]; simpl; intros acc k ND N; [reflexivity|].
  inversion ND as [|? ? Hn ND']; subst.
  unfold assignAll in *. simpl. rewrite IH by assumption.
  destruct (String.eqb k k') eqn:E.
  - apply String.eqb_eq in E. subst.
    apply assoc_None_keys in Hn. rewrite Hn.
    rewrite assoc_assignProp by assumption. now rewrite String.eqb_refl.
  - destruct (assoc k r); [reflexivity|].
    rewrite assoc_assignProp by assumption. now rewrite E.
Qed.

Lemma keys_assignAll (props : list (string * A)) : forall acc x,
  In x (keys (assignAll props acc))
  <-> (In x (keys props) /\ x <> "__proto__") \/ In x (keys acc).
Proof.
  induction props as [|[k' v'] r IH]; simpl; intros acc x.
  - unfold assignAll. simpl. tauto.
  - unfold assignAll in *. simpl. rewrite IH. rewrite keys_assignProp.
    split; [intros [H|[[-> H]|H]]; tauto | intros [[[->|H] N]|H]; tauto].
Qed.


End AssocFacts.

(** No own property of the object is named [hasOwnProperty]. *)
Definition plain (v : JSValue) : Prop := shadowsHasOwnProperty v = false.

Lemma plain_keys (v : JSValue) : plain v <-> ~ In "hasOwnProperty" (keys (ownProps v)).
Proof.
  unfold plain, shadowsHasOwnProperty, hasKey. rewrite <- assoc_None_keys.
  destruct (assoc "hasOwnProperty" (ownProps v)); split; congruence.
Qed.

(** ** The delta filter *)

Module DeltaFilterFacts.
Import ContentMapping.

Lemma isDeltaMode_delta : isDeltaMode (JStr "delta") = true.
Proof. reflexivity. Qed.

Lemma isDeltaMode_default : isDeltaMode JUndefined = true.
Proof. reflexivity. Qed.

Lemma isDeltaMode_full : isDeltaMode (JStr "full") = false.
Proof. reflexivity. Qed.

(** The loop keeps the order of the search result. *)
Lemma getContentAssets_app (l1 l2 : list Content) (mode : JSValue) :
  getContentAssets (l1 ++ l2) mode = getContentAssets l1 mode ++ getContentAssets l2 mode.
Proof. unfold getContentAssets. apply flat_map_app. Qed.

(** What one turn of the loop does with an asset. *)
Definition kept (exportMode : JSValue) (asset : Content) : Prop :=
  exists formatted, formatContentAsset asset = Some formatted
                    /\ getContentAssets [asset] exportMode = [formatted].

Definition skipped (exportMode : JSValue) (asset : Content) : Prop :=
  getContentAssets [asset] exportMode = [].

Lemma visit_alone (exportMode : JSValue) (asset : Content) :
  getContentAssets [asset] exportMode = visitAsset exportMode asset.
Proof. unfold getContentAssets. simpl. apply app_nil_r. Qed.

Lemma kept_not_skipped (exportMode : JSValue) (asset : Content) :
  kept exportMode asset -> ~ skipped exportMode asset.
Proof. intros [f [_ H]] S. unfold skipped in S. rewrite H in S. discriminate. Qed.

(** C6. In delta mode an online asset (carrying its [lastModified] date, as
    every content asset of the repository does) is included when it has no
    last sync date, and otherwise exactly when [lastModified] is strictly
    later than the last sync date: an asset modified at or before its last
    sync is excluded.  In full mode every online asset is included. *)
Theorem delta_filter_includes_iff_modified_after_sync
        (asset : Content) (modified : Z) (exportMode : JSValue) :
  online asset = true ->
  lastModified asset = Some modified ->
  (isDeltaMode exportMode = true ->
     (lastSyncDateTime asset = None -> kept exportMode asset)
     /\ (forall lastSync, lastSyncDateTime asset = Some lastSync ->
           (kept exportMode asset <-> (lastSync < modified)%Z)
           /\ (skipped exportMode asset <-> (modified <= lastSync)%Z)))
  /\ (isDeltaMode exportMode = false -> kept exportMode asset).
Proof.
  intros Hon Hmod.
  assert (V : visitAsset exportMode asset
              = if isDeltaMode exportMode && notModifiedSinceLastSync asset then []
                else match formatContentAsset asset with Some f => [f] | None => [] end).
  { unfold visitAsset. now rewrite Hon. }
  assert (K : isDeltaMode exportMode && notModifiedSinceLastSync asset = false ->
              kept exportMode asset).
  { intros E. unfold kept. rewrite visit_alone, V, E.
    unfold formatContentAsset. eexists. split; reflexivity. }
  assert (S : isDeltaMode exportMode && notModifiedSinceLastSync asset = true ->
              skipped exportMode asset).
  { intros E. unfold skipped. now rewrite visit_alone, V, E. }
  split.
  - intros Hd. rewrite Hd in K, S. simpl in K, S.
    unfold notModifiedSinceLastSync in K, S. rewrite Hmod in K, S. split.
    + intros Hs. rewrite Hs in K. now apply K.
    + intros lastSync Hs. rewrite Hs in K, S.
      destruct (Z.leb_spec modified lastSync) as [Hle|Hlt].
      * specialize (S eq_refl). split; split; intros H; try lia; try assumption.
        exfalso. exact (kept_not_skipped H S).
      * specialize (K eq_refl). split; split; intros H; try lia; try assumption.
        exfalso. exact (kept_not_skipped K H).
  - intros Hd. apply K. now rewrite Hd.
Qed.

Definition sampleAsset (modified : Z) (lastSync : option Z) : Content :=
  mkContent "faq-001" (JStr "How to Reset Password?") JNull true JNull JNull JNull JNull JNull
            None (Some 1000%Z) (Some modified)
            (Some (mkCustom JNull JNull JNull lastSync [])).

Lemma delta_filter_witness :
  skipped (JStr "delta") (sampleAsset 5000 (Some 5000%Z))
  /\ kept (JStr "delta") (sampleAsset 5001 (Some 5000%Z))
  /\ kept (JStr "delta") (sampleAsset 5000 None)
  /\ kept (JStr "full") (sampleAsset 5000 (Some 5000%Z)).
Proof.
  pose proof (delta_filter_includes_iff_modified_after_sync
                (sampleAsset 5000 (Some 5000%Z)) (JStr "delta") eq_refl eq_refl) as [H1 _].
  pose proof (delta_filter_includes_iff_modified_after_sync
                (sampleAsset 5001 (Some 5000%Z)) (JStr "delta") eq_refl eq_refl) as [H2 _].
  pose proof (delta_filter_includes_iff_modified_after_sync
                (sampleAsset 5000 None) (JStr "delta") eq_refl eq_refl) as [H3 _].
  pose proof (delta_filter_includes_iff_modified_after_sync
                (sampleAsset 5000 (Some 5000%Z)) (JStr "full") eq_refl eq_refl) as [_ H4].
  destruct (H1 eq_refl) as [_ H1']. destruct (H2 eq_refl) as [_ H2'].
  destruct (H3 eq_refl) as [H3' _].
  destruct (H1' 5000%Z eq_refl) as [_ S1]. destruct (H2' 5000%Z eq_refl) as [K2 _].
  split; [|split; [|split]].
  - apply S1. lia.
  - apply K2. lia.
  - apply H3'. reflexivity.
  - apply H4. reflexivity.
Defined.

End DeltaFilterFacts.

(** ** The configuration resolver *)

Module SiteConfigFacts.
Import SiteConfig.





















(** *** Merging the defaults with a tenant block *)

Lemma ownProps_or_empty (x : JSValue) : ownProps (or_else x (JObj [])) = ownProps x.
Proof. unfold or_else. destruct x as [| |b|q|s| | |]; simpl; try reflexivity.
  - now destruct b.
  - now destruct (Qeq_bool q 0).
  - now destruct s.
Qed.

Lemma shadows_or_empty (x : JSValue) :
  shadowsHasOwnProperty (or_else x (JObj [])) = shadowsHasOwnProperty x.
Proof. unfold or_else. destruct x as [| |b|q|s| | |]; simpl; try reflexivity.
  - now destruct b.
  - now destruct (Qeq_bool q 0).
  - now destruct s.
Qed.

Lemma truthy_or_empty (x : JSValue) : truthy (or_else x (JObj [])) = true.
Proof. unfold or_else. destruct (truthy x) eqn:E; [exact E | reflexivity]. Qed.

Lemma getMember_truthy (v : JSValue) (k : string) :
  truthy v = true -> getMember v k = Normal (getProp v k).
Proof. destruct v; simpl; intros H; try reflexivity; discriminate. Qed.

(** The objects of the configuration document have one property per name. *)
Definition distinctKeys (v : JSValue) : Prop := NoDup (keys (ownProps v)).

(** The shallow merge of two [static] objects. *)
Definition mergedStatic (defaultStatic siteStatic : JSValue) : JSValue :=
  JObj (assignAll (ownProps siteStatic) (assignAll (ownProps defaultStatic) [])).

Lemma mergeStaticFields_run (defaultStatic siteStatic : JSValue) :
  plain defaultStatic -> plain siteStatic ->
  mergeStaticFields (or_else defaultStatic (JObj [])) (or_else siteStatic (JObj []))
  = Normal (mergedStatic defaultStatic siteStatic).
Proof.
  unfold plain, mergeStaticFields, mergedStatic. intros H1 H2.
  now rewrite !shadows_or_empty, H1, H2, !ownProps_or_empty.
Qed.

Lemma assoc_mergedStatic (defaultStatic siteStatic : JSValue) (k : string) :
  distinctKeys defaultStatic ->
  distinctKeys siteStatic ->
  k <> "__proto__" ->
  assoc k (ownProps (mergedStatic defaultStatic siteStatic))
  = match assoc k (ownProps siteStatic) with
    | Some v => Some v
    | None => assoc k (ownProps defaultStatic)
    end.
Proof.
  intros N1 N2 Nk. unfold mergedStatic. simpl.
  rewrite assoc_assignAll by assumption.
  destruct (assoc k (ownProps siteStatic)); [reflexivity|].
  rewrite assoc_assignAll by assumption.
  now destruct (assoc k (ownProps defaultStatic)).
Qed.

(** The second loop of [mergeConfigurations] on objects whose [static]
    objects can be merged: it returns, and every key of the tenant block but
    [__proto__] is set, [static] to the merged object. *)
Lemma overrideKeys_run (defaults siteConfig : JSValue) (props : list (string * JSValue)) :
  truthy defaults = true ->
  truthy siteConfig = true ->
  (In "static" (keys props) ->
   plain (getProp defaults "static") /\ plain (getProp siteConfig "static")) ->
  forall acc,
    NoDup (keys props) ->
    exists merged,
      overrideKeys defaults siteConfig props acc = Normal merged
      /\ (forall k, k <> "__proto__" ->
            assoc k merged
            = match assoc k props with
              | Some v =>
                  Some (if String.eqb k "static"
                        then mergedStatic (getProp defaults "static")
                                          (getProp siteConfig "static")
                        else v)
              | None => assoc k acc
              end)
      /\ (forall x, In x (keys merged)
                    <-> (In x (keys props) /\ x <> "__proto__") \/ In x (keys acc)).
Proof.
  intros Td Ts. induction props as [|[k' v'] r IH]; intros Hs acc ND.
  - exists acc. simpl. split; [reflexivity | split; [reflexivity | tauto]].
  - inversion ND as [|? ? Hn ND']; subst.
    cbn [overrideKeys].
    assert (Hs' : In "static" (keys r) ->
                  plain (getProp defaults "static") /\ plain (getProp siteConfig "static")).
    { intros H. apply Hs. now right. }
    destruct (String.eqb k' "static") eqn:Es.
    + apply String.eqb_eq in Es. subst k'.
      destruct Hs as [P1 P2]; [now left|].
      rewrite (@getMember_truthy _ _ Td), (@getMember_truthy _ _ Ts).
      rewrite (mergeStaticFields_run P1 P2).
      destruct (IH Hs' (setProp "static" (mergedStatic (getProp defaults "static")
                                                      (getProp siteConfig "static")) acc) ND')
        as [merged [Hrun [Hassoc Hkeys]]].
      exists merged. split; [exact Hrun | split].
      * intros k Nk. rewrite (Hassoc k Nk). cbn [assoc].
        destruct (String.eqb k "static") eqn:E.
        -- apply String.eqb_eq in E. subst k.
           apply assoc_None_keys in Hn. rewrite Hn. apply assoc_setProp_same.
        -- destruct (assoc k r); [reflexivity|].
           apply assoc_setProp_other. intros ->. now rewrite String.eqb_refl in E.
      * intros x. rewrite Hkeys, keys_setProp. cbn [keys map fst In].
        split; [intros [H|[->|H]]; try tauto; left; split; [now left | discriminate]
               | intros [[[<-|H] N]|H]; tauto].
    + destruct (IH Hs' (assignProp k' v' acc) ND') as [merged [Hrun [Hassoc Hkeys]]].
      exists merged. split; [exact Hrun | split].
      * intros k Nk. rewrite (Hassoc k Nk). cbn [assoc].
        destruct (String.eqb k k') eqn:E.
        -- apply String.eqb_eq in E. subst k'.
           apply assoc_None_keys in Hn. rewrite Hn.
           rewrite assoc_assignProp by assumption. rewrite String.eqb_refl.
           now rewrite Es.
        -- destruct (assoc k r); [reflexivity|].
           rewrite assoc_assignProp by assumption. now rewrite E.
      * intros x. rewrite Hkeys, keys_assignProp. cbn [keys map fst In].
        split; [intros [H|[[-> N]|H]]; tauto | intros [[[<-|H] N]|H]; tauto].
Qed.

(** [mergeConfigurations] on blocks without a property [hasOwnProperty]. *)
Lemma mergeConfigurations_run (defaults siteConfig : JSValue) :
  truthy defaults = true ->
  truthy siteConfig = true ->
  plain defaults ->
  plain siteConfig ->
  (In "static" (keys (ownProps siteConfig)) ->
   plain (getProp defaults "static") /\ plain (getProp siteConfig "static")) ->
  distinctKeys defaults ->
  distinctKeys siteConfig ->
  exists merged,
    mergeConfigurations defaults siteConfig = Normal (JObj merged)
    /\ (forall k, k <> "__proto__" ->
          assoc k merged
          = match assoc k (ownProps siteConfig) with
            | Some v =>
                Some (if String.eqb k "static"
                      then mergedStatic (getProp defaults "static")
                                        (getProp siteConfig "static")
                      else v)
            | None => assoc k (ownProps defaults)
            end)
    /\ (forall x, In x (keys merged)
                  <-> (In x (keys (ownProps siteConfig)) \/ In x (keys (ownProps defaults)))
                      /\ x <> "__proto__").
Proof.
  intros Td Ts Pd Ps Pst Dd Dt.
  destruct (@overrideKeys_run defaults siteConfig (ownProps siteConfig) Td Ts Pst
              (assignAll (ownProps defaults) []) Dt) as [merged [Hrun [Hassoc Hkeys]]].
  exists merged. unfold mergeConfigurations. unfold plain in Pd, Ps.
  rewrite Pd, Ps. cbv zeta. rewrite Hrun. split; [reflexivity | split].
  - intros k Nk. rewrite (Hassoc k Nk).
    destruct (assoc k (ownProps siteConfig)); [reflexivity|].
    rewrite assoc_assignAll by assumption.
    now destruct (assoc k (ownProps defaults)).
  - intros x. rewrite Hkeys, keys_assignAll. cbn [keys map In]. tauto.
Qed.

(** The own entry [k] of the own [static] object of a configuration. *)
Definition staticEntry (config : JSValue) (k : string) : option JSValue :=
  assoc k (ownProps (getProp config "static")).

(** C5, as the code has it.  For a configuration document and a tenant id:
    when the document has no block for the tenant, the effective
    configuration is the defaults block alone.  Otherwise, the two blocks and
    the [static] objects to merge having no property named [hasOwnProperty],
    the merge returns a configuration in which every key of the tenant block
    other than [static] and [__proto__] is an own property with exactly the
    tenant's value, and whose [static] object is the shallow merge: an entry
    of the tenant's [static] wins, an entry of the defaults' [static] is kept
    when the tenant does not override it (entries other than [__proto__]). *)
Theorem tenant_overrides_defaults_static_merged (allConfigs : JSValue) (siteID : string) :
  let defaults := or_else (getProp allConfigs "_defaults") (JObj []) in
  let tenant := getProp allConfigs siteID in
  truthy allConfigs = true ->
  typeof allConfigs = "object" ->
  trim siteID <> "" ->
  distinctKeys defaults ->
  distinctKeys tenant ->
  distinctKeys (getProp defaults "static") ->
  distinctKeys (getProp tenant "static") ->
  (truthy tenant = false -> getSiteConfiguration allConfigs siteID = Normal defaults)
  /\ (truthy tenant = true ->
      plain defaults ->
      plain tenant ->
      (In "static" (keys (ownProps tenant)) ->
       plain (getProp defaults "static") /\ plain (getProp tenant "static")) ->
      exists result,
        getSiteConfiguration allConfigs siteID = Normal result
        /\ (forall k v, k <> "static" -> k <> "__proto__" ->
                        assoc k (ownProps tenant) = Some v ->
                        assoc k (ownProps result) = Some v)
        /\ (forall k, k <> "__proto__" ->
              staticEntry result k
              = match staticEntry tenant k with
                | Some v => Some v
                | None => staticEntry defaults k
                end)).
Proof.
  intros defaults tenant Ht Hty Hid Dd Dt Dds Dts.
  assert (G : getSiteConfiguration allConfigs siteID
              = if negb (truthy tenant) then Normal defaults
                else mergeConfigurations defaults tenant).
  { unfold getSiteConfiguration. rewrite Ht, Hty. simpl.
    destruct (String.eqb (trim siteID) "") eqn:E.
    - apply String.eqb_eq in E. contradiction.
    - destruct siteID; [exfalso; apply Hid; reflexivity | reflexivity]. }
  rewrite G. clear G.
  split; intros Hten; rewrite Hten; simpl; [reflexivity|].
  intros Pd Pt Pst.
  destruct (@mergeConfigurations_run defaults tenant (truthy_or_empty _) Hten Pd Pt Pst Dd Dt)
    as [merged [Hrun [M _]]].
  exists (JObj merged). split; [exact Hrun | split].
  - intros k v Nk Np Hk. cbn [ownProps]. rewrite (M k Np), Hk.
    destruct (String.eqb k "static") eqn:E; [apply String.eqb_eq in E; contradiction|].
    reflexivity.
  - intros k Nk. unfold staticEntry. unfold getProp at 1. cbn [ownProps].
    rewrite M by discriminate.
    destruct (assoc "static" (ownProps tenant)) as [ts|] eqn:Es.
    + rewrite (String.eqb_refl "static"). cbv beta iota.
      now rewrite assoc_mergedStatic.
    + assert (U : getProp tenant "static" = JUndefined).
      { unfold getProp. now rewrite Es. }
      rewrite U. simpl. reflexivity.
Qed.

Definition sampleConfigs : JSValue :=
  JObj [("_defaults",
         JObj [("articleType", JStr "Knowledge__kav");
               ("batchSize", JNum 50);
               ("fieldMapping", JObj [("Title", JStr "name"); ("Summary", JStr "pageDescription")]);
               ("static", JObj [("Source__c", JStr "SFCC"); ("Region__c", JStr "GLOBAL")])]);
        ("RefArch",
         JObj [("batchSize", JNum 100);
               ("fieldMapping", JObj [("UrlName", JStr "ID")]);
               ("static", JObj [("Region__c", JStr "US"); ("Brand__c", JStr "RA")])])].

Lemma tenant_overrides_defaults_static_merged_witness :
  (exists result,
      getSiteConfiguration sampleConfigs "RefArch" = Normal result
      /\ assoc "fieldMapping" (ownProps result) = Some (JObj [("UrlName", JStr "ID")])
      /\ staticEntry result "Region__c" = Some (JStr "US")
      /\ staticEntry result "Source__c" = Some (JStr "SFCC"))
  /\ getSiteConfiguration sampleConfigs "RefArchGlobal"
     = Normal (getProp sampleConfigs "_defaults").
Proof.
  assert (D : forall l : list string,
            (if list_eq_dec string_dec (nodup string_dec l) l then True else False) ->
            NoDup l).
  { intros l. destruct (list_eq_dec string_dec (nodup string_dec l) l) as [E|]; [|tauto].
    intros _. rewrite <- E. apply NoDup_nodup. }
  destruct (@tenant_overrides_defaults_static_merged sampleConfigs "RefArch")
    as [_ H]; try reflexivity; try discriminate; try (apply D; exact I).
  destruct (@tenant_overrides_defaults_static_merged sampleConfigs "RefArchGlobal")
    as [H' _]; try reflexivity; try discriminate; try (apply D; exact I).
  destruct (H eq_refl eq_refl eq_refl (fun _ => conj eq_refl eq_refl))
    as [result [Hrun [H1 H2]]].
  split.
  - exists result. split; [exact Hrun | split; [|split]].
    + apply H1; [discriminate | discriminate | reflexivity].
    + rewrite H2 by discriminate. reflexivity.
    + rewrite H2 by discriminate. reflexivity.
  - apply H'. reflexivity.
Defined.

(** A document as [JSON.parse] returns it for a tenant block with the keys
    [__proto__] and [batchSize]. *)
Definition protoConfigs : JSValue :=
  JObj [("_defaults", JObj [("batchSize", JNum 50)]);
        ("RefArch", JObj [("__proto__", JNum 5); ("batchSize", JNum 100)])].

(** C5, counterexample: the key [__proto__] of the tenant block, which is not
    [static], is not mapped to the tenant's value: the assignment
    [merged[siteKey] = value] makes no property of that name, and the
    effective configuration has the key [batchSize] alone.  And for a tenant
    block with a key [hasOwnProperty] the merge returns nothing: the test
    [siteConfig.hasOwnProperty(siteKey)] is a TypeError. *)
Lemma tenant_key_lost_in_merge :
  assoc "__proto__" (ownProps (getProp protoConfigs "RefArch")) = Some (JNum 5)
  /\ getSiteConfiguration protoConfigs "RefArch" = Normal (JObj [("batchSize", JNum 100)])
  /\ getSiteConfiguration
       (JObj [("RefArch", JObj [("hasOwnProperty", JNum 1); ("batchSize", JNum 100)])])
       "RefArch"
     = Throw "siteConfig.hasOwnProperty is not a function".
Proof. repeat split. Qed.

End SiteConfigFacts.

(** ** The transform engine *)

Module FieldTransformFacts.
Import FieldTransform.

Section WithPlatform.
Context {P : Platform}.






End WithPlatform.





(** *** The regular expressions of [transformUrlSafe] *)

(** Replacing every maximal run of characters that satisfy [p] by [rep]:
    [inRun] tells that the previous character was part of a run. *)
Fixpoint collapseRuns (p : ascii -> bool) (rep : list ascii) (inRun : bool)
         (s : list ascii) : list ascii :=
  match s with
  | [] => []
  | x :: r =>
      if p x then (if inRun then collapseRuns p rep true r
                   else rep ++ collapseRuns p rep true r)
      else x :: collapseRuns p rep false r
  end.

Definition runOf (p : ascii -> bool) : Matcher :=
  fun _ s => match List.length (takeWhile p s) with
             | O => None
             | n => Some n
             end.

Lemma replaceAllFrom_skip (m : Matcher) (rep : list ascii) :
  forall s k b before,
    replaceAllFrom m rep b before s k
    = replaceAllFrom m rep (match k with O => b | S _ => false end)
                     (before ++ firstn k s) (skipn k s) 0.
Proof.
  induction s as [|x s IH]; intros k b before.
  - destruct k; reflexivity.
  - destruct k as [|k].
    + simpl firstn. simpl skipn. now rewrite app_nil_r.
    + simpl. rewrite IH. rewrite <- app_assoc. simpl. now destruct k.
Qed.

Lemma replaceAllFrom_skip_inner (m : Matcher) (rep : list ascii) s k before :
  replaceAllFrom m rep false before s k
  = replaceAllFrom m rep false (before ++ firstn k s) (skipn k s) 0.
Proof. rewrite replaceAllFrom_skip. now destruct k. Qed.

Lemma replaceAllFrom_skip_all (m : Matcher) (rep : list ascii) s k b before :
  List.length s <= k -> replaceAllFrom m rep b before s k = [].
Proof.
  intros H. rewrite replaceAllFrom_skip. rewrite skipn_all2 by exact H. reflexivity.
Qed.

(** A replacement text without [$] pattern is inserted as it is. *)
Definition plainReplacement (rep : list ascii) : Prop :=
  forall matched before after, expandReplacement rep matched before after = rep.

Lemma plain_empty : plainReplacement [].
Proof. intros m b a. reflexivity. Qed.

Lemma plain_single (c : ascii) : plainReplacement [c].
Proof.
  intros m b a. simpl.
  destruct c as [[] [] [] [] [] [] [] []]; reflexivity.
Qed.

Lemma replaceAll_runs (p : ascii -> bool) (rep : list ascii) (m : Matcher) :
  plainReplacement rep ->
  (forall b s, m b s = runOf p b s) ->
  forall s,
    (forall b before, replaceAllFrom m rep b before s 0 = collapseRuns p rep false s)
    /\ (forall b before, replaceAllFrom m rep b before s (List.length (takeWhile p s))
                         = collapseRuns p rep true s).
Proof.
  intros Hrep Hm.
  induction s as [|x s [IH0 IH1]]; [split; reflexivity|].
  assert (B : forall b before,
            replaceAllFrom m rep b before (x :: s) 0 = collapseRuns p rep false (x :: s)).
  { intros b before. simpl. rewrite Hm. unfold runOf. simpl.
    destruct (p x) eqn:Px; simpl.
    - rewrite Hrep. now rewrite IH1.
    - now rewrite IH0. }
  split; [exact B|].
  intros b before. simpl takeWhile. destruct (p x) eqn:Px.
  - simpl. rewrite Px. apply IH1.
  - simpl List.length. rewrite B. simpl. now rewrite Px.
Qed.

Lemma sepRunAt_single (c : ascii) (s : list ascii) :
  sepRunAt [c] s = runOf (Ascii.eqb c) true s.
Proof.
  unfold sepRunAt, runOf. simpl.
  now destruct (List.length (takeWhile (Ascii.eqb c) s)).
Qed.

(** Dropping a trailing run of [c]. *)
Fixpoint dropTrailing (c : ascii) (s : list ascii) : list ascii :=
  match s with
  | [] => []
  | x :: r => if forallb (Ascii.eqb c) (x :: r) then [] else x :: dropTrailing c r
  end.

Definition trimEdges (c : ascii) (s : list ascii) : list ascii :=
  dropTrailing c (dropWhile (Ascii.eqb c) s).

Lemma takeWhile_all (p : ascii -> bool) (s : list ascii) :
  List.length (takeWhile p s) = List.length s <-> forallb p s = true.
Proof.
  induction s as [|x s IH]; simpl; [tauto|].
  destruct (p x); simpl.
  - rewrite <- IH. split; [intros [= H]; exact H | intros H; now rewrite H].
  - split; discriminate.
Qed.

Lemma takeWhile_length_le (p : ascii -> bool) (s : list ascii) :
  List.length (takeWhile p s) <= List.length s.
Proof. induction s as [|x s IH]; simpl; [lia|]. destruct (p x); simpl; lia. Qed.

Lemma skipn_takeWhile (p : ascii -> bool) (s : list ascii) :
  skipn (List.length (takeWhile p s)) s = dropWhile p s.
Proof. induction s as [|x s IH]; simpl; [reflexivity|]. destruct (p x); simpl; auto. Qed.

Lemma replaceAll_edges_inner (c : ascii) :
  forall s before,
    replaceAllFrom (sepEdge [c]) [] false before s 0 = dropTrailing c s.
Proof.
  induction s as [|x s IH]; intros before; [reflexivity|].
  cbn [replaceAllFrom]. unfold sepEdge at 1. rewrite sepRunAt_single. unfold runOf.
  cbn [dropTrailing].
  destruct (List.length (takeWhile (Ascii.eqb c) (x :: s))) as [|n] eqn:L.
  - assert (F : forallb (Ascii.eqb c) (x :: s) = false).
    { destruct (forallb (Ascii.eqb c) (x :: s)) eqn:F; [|reflexivity].
      apply takeWhile_all in F. rewrite L in F. discriminate. }
    rewrite F. now rewrite IH.
  - destruct (Nat.eqb_spec (S n) (List.length (x :: s))) as [E|E].
    + assert (F : forallb (Ascii.eqb c) (x :: s) = true).
      { apply takeWhile_all. now rewrite L. }
      rewrite F. simpl. apply replaceAllFrom_skip_all. simpl in E. lia.
    + assert (F : forallb (Ascii.eqb c) (x :: s) = false).
      { destruct (forallb (Ascii.eqb c) (x :: s)) eqn:F; [|reflexivity].
        apply takeWhile_all in F. rewrite L in F. contradiction. }
      rewrite F. now rewrite IH.
Qed.

Lemma replaceAll_edges (c : ascii) (s : list ascii) :
  replaceAll (sepEdge [c]) [] s = trimEdges c s.
Proof.
  unfold replaceAll, trimEdges. destruct s as [|x s]; [reflexivity|].
  cbn [replaceAllFrom]. unfold sepEdge at 1. rewrite sepRunAt_single. unfold runOf.
  destruct (List.length (takeWhile (Ascii.eqb c) (x :: s))) as [|n] eqn:L.
  - assert (X : Ascii.eqb c x = false).
    { simpl in L. destruct (Ascii.eqb c x); [discriminate | reflexivity]. }
    rewrite replaceAll_edges_inner. simpl dropWhile. rewrite X. cbn [dropTrailing].
    simpl forallb. rewrite X. reflexivity.
  - cbn [expandReplacement app]. rewrite replaceAllFrom_skip_inner.
    rewrite replaceAll_edges_inner.
    f_equal. rewrite <- (skipn_takeWhile (Ascii.eqb c) (x :: s)). rewrite L. reflexivity.
Qed.

(** What the claim asks of an output, for a separator [sep]. *)
Definition urlSafeOutput (sep out : list ascii) : Prop :=
  (forall x, In x out -> isLower x = true \/ isDigit x = true \/ In x sep)
  /\ (~ exists l1 l2, out = l1 ++ sep ++ sep ++ l2)
  /\ (~ exists l, out = sep ++ l)
  /\ (~ exists l, out = l ++ sep).

(** No two adjacent [c], as a computation. *)
Fixpoint doubled (c : ascii) (s : list ascii) : bool :=
  match s with
  | x :: ((y :: _) as r) => (Ascii.eqb c x && Ascii.eqb c y) || doubled c r
  | _ => false
  end.

Definition startsWith (c : ascii) (s : list ascii) : bool :=
  match s with
  | x :: _ => Ascii.eqb c x
  | [] => false
  end.

Lemma doubled_cons c x s :
  doubled c (x :: s) = (Ascii.eqb c x && startsWith c s) || doubled c s.
Proof. destruct s; simpl; [now rewrite andb_false_r | reflexivity]. Qed.

Lemma doubled_app c l1 l2 :
  doubled c (l1 ++ l2) = false -> doubled c l1 = false /\ doubled c l2 = false.
Proof.
  induction l1 as [|x l1 IH]; [simpl; auto|].
  change ((x :: l1) ++ l2) with (x :: (l1 ++ l2)). rewrite !doubled_cons.
  rewrite !orb_false_iff. intros [H1 H2]. destruct (IH H2) as [A B].
  repeat split; auto.
  destruct l1; [simpl; now rewrite andb_false_r | exact H1].
Qed.

Lemma doubled_found c l1 l2 : doubled c (l1 ++ c :: c :: l2) = true.
Proof.
  induction l1 as [|x l1 IH].
  - simpl. now rewrite Ascii.eqb_refl.
  - change ((x :: l1) ++ c :: c :: l2) with (x :: (l1 ++ c :: c :: l2)).
    rewrite doubled_cons, IH. apply orb_true_r.
Qed.

Lemma collapse_no_double (c : ascii) : forall s,
  doubled c (collapseRuns (Ascii.eqb c) [c] false s) = false
  /\ doubled c (collapseRuns (Ascii.eqb c) [c] true s) = false
  /\ startsWith c (collapseRuns (Ascii.eqb c) [c] true s) = false.
Proof.
  induction s as [|x s [A [B S]]]; [simpl; auto|].
  simpl. destruct (Ascii.eqb c x) eqn:X.
  - simpl app. rewrite doubled_cons. rewrite S, B, andb_false_r. auto.
  - rewrite doubled_cons. cbn [startsWith]. rewrite X, A. auto.
Qed.

Lemma collapse_chars (p : ascii -> bool) (rep : list ascii) : forall s b x,
  In x (collapseRuns p rep b s) -> In x rep \/ In x s.
Proof.
  induction s as [|y s IH]; simpl; intros b x H; [tauto|].
  destruct (p y).
  - destruct b.
    + destruct (IH _ _ H); auto.
    + apply in_app_or in H. destruct H as [H|H]; [auto|]. destruct (IH _ _ H); auto.
  - destruct H as [H|H]; [auto|]. destruct (IH _ _ H); auto.
Qed.

Lemma dropWhile_suffix (p : ascii -> bool) (s : list ascii) :
  s = takeWhile p s ++ dropWhile p s.
Proof. induction s as [|x s IH]; simpl; [reflexivity|]. destruct (p x); simpl; congruence. Qed.

Lemma dropTrailing_prefix (c : ascii) : forall s, exists t, s = dropTrailing c s ++ t.
Proof.
  induction s as [|x s [t IH]]; [exists []; reflexivity|].
  cbn [dropTrailing]. destruct (forallb (Ascii.eqb c) (x :: s)).
  - exists (x :: s). reflexivity.
  - exists t. simpl. congruence.
Qed.

Lemma dropTrailing_nil (c : ascii) : forall s,
  dropTrailing c s = [] -> forallb (Ascii.eqb c) s = true.
Proof.
  destruct s as [|x s]; [reflexivity|]. cbn [dropTrailing].
  destruct (forallb (Ascii.eqb c) (x :: s)); [reflexivity | discriminate].
Qed.

Lemma dropTrailing_last (c : ascii) : forall s l, dropTrailing c s <> l ++ [c].
Proof.
  induction s as [|x s IH]; intros l; [destruct l; discriminate|].
  cbn [dropTrailing]. destruct (forallb (Ascii.eqb c) (x :: s)) eqn:F.
  - destruct l; discriminate.
  - destruct l as [|y l]; simpl.
    + intros [= -> H]. apply dropTrailing_nil in H.
      simpl in F. rewrite Ascii.eqb_refl, H in F. discriminate.
    + intros [= _ H]. exact (IH _ H).
Qed.

Lemma dropTrailing_head (c : ascii) (s : list ascii) :
  startsWith c s = false -> startsWith c (dropTrailing c s) = false.
Proof.
  destruct s as [|x s]; [reflexivity|]. cbn [dropTrailing].
  destruct (forallb (Ascii.eqb c) (x :: s)); [reflexivity | auto].
Qed.

Lemma dropWhile_head (c : ascii) : forall s,
  startsWith c (dropWhile (Ascii.eqb c) s) = false.
Proof.
  induction s as [|x s IH]; [reflexivity|]. simpl.
  destruct (Ascii.eqb c x) eqn:X; [exact IH | simpl; exact X].
Qed.

Lemma trimEdges_sub (c : ascii) (s : list ascii) :
  exists l1 l2, s = l1 ++ trimEdges c s ++ l2.
Proof.
  unfold trimEdges. destruct (dropTrailing_prefix c (dropWhile (Ascii.eqb c) s)) as [t H].
  exists (takeWhile (Ascii.eqb c) s), t. rewrite <- H. apply dropWhile_suffix.
Qed.

(** The five steps of [transformUrlSafe] for a separator of one character. *)
Lemma transformUrlSafe_single (value : string) (c : ascii) :
  transformUrlSafe value (JStr (String c EmptyString))
  = Normal (string_of_list_ascii
              (trimEdges c
                 (collapseRuns (Ascii.eqb c) [c] false
                    (filter (inUrlSafeClass [Single c])
                       (collapseRuns isSpace [c] false
                          (toLowerCase (list_ascii_of_string value))))))).
Proof.
  unfold transformUrlSafe. cbn [list_ascii_of_string parseClass].
  rewrite replaceAll_edges. unfold replaceAll.
  destruct (@replaceAll_runs isSpace [c] spaceRun (plain_single c) (fun _ _ => eq_refl)
              (toLowerCase (list_ascii_of_string value))) as [R1 _].
  rewrite R1.
  assert (Hm : forall b s, sepRun [c] b s = runOf (Ascii.eqb c) b s).
  { intros b s. unfold sepRun. apply sepRunAt_single. }
  destruct (@replaceAll_runs (Ascii.eqb c) [c] (sepRun [c]) (plain_single c) Hm
              (filter (inUrlSafeClass [Single c])
                 (collapseRuns isSpace [c] false (toLowerCase (list_ascii_of_string value)))))
    as [R2 _].
  rewrite R2. reflexivity.
Qed.

(** C8, as the code has it.  For every input string and every separator of
    one character, [transformUrlSafe] returns a string that has no character
    outside [a-z0-9] and the separator, no two separators in a row, and no
    separator at either end; and
    [transformUrlSafe("How to Reset Password?", "-")] is
    ["how-to-reset-password"]. *)
Theorem transformUrlSafe_one_character_separator :
  (forall (value : string) (c : ascii),
      exists out, transformUrlSafe value (JStr (String c EmptyString)) = Normal out
                  /\ urlSafeOutput [c] (list_ascii_of_string out))
  /\ transformUrlSafe "How to Reset Password?" (JStr "-") = Normal "how-to-reset-password".
Proof.
  split; [|reflexivity].
  intros value c. rewrite transformUrlSafe_single.
  eexists. split; [reflexivity|]. rewrite list_ascii_of_string_of_list_ascii.
  set (r3 := filter (inUrlSafeClass [Single c]) _).
  set (r4 := collapseRuns (Ascii.eqb c) [c] false r3).
  destruct (trimEdges_sub c r4) as [l1 [l2 Sub]].
  assert (D4 : doubled c r4 = false) by apply collapse_no_double.
  assert (D5 : doubled c (trimEdges c r4) = false).
  { rewrite Sub in D4. apply doubled_app in D4. destruct D4 as [_ D4].
    apply doubled_app in D4. tauto. }
  unfold urlSafeOutput. split; [|split; [|split]].
  - intros x Hx.
    assert (H4 : In x r4).
    { rewrite Sub. apply in_or_app. right. apply in_or_app. now left. }
    apply collapse_chars in H4. destruct H4 as [H4|H4]; [auto|].
    subst r3. apply filter_In in H4. destruct H4 as [_ K].
    unfold inUrlSafeClass in K. simpl in K. rewrite orb_false_r in K.
    apply orb_true_iff in K. destruct K as [K|K].
    + apply orb_true_iff in K. tauto.
    + apply Ascii.eqb_eq in K. subst. right. right. now left.
  - intros [a [b E]]. rewrite E in D5. simpl in D5.
    rewrite doubled_found in D5. discriminate.
  - intros [l E]. simpl in E.
    assert (S : startsWith c (trimEdges c r4) = false).
    { unfold trimEdges. apply dropTrailing_head. apply dropWhile_head. }
    rewrite E in S. simpl in S. rewrite Ascii.eqb_refl in S. discriminate.
  - intros [l E]. unfold trimEdges in E. exact (dropTrailing_last _ _ _ E).
Qed.

(** C8, counterexample: with the separator ["_-"] the output keeps two
    separators in a row. *)
Lemma transformUrlSafe_two_character_separator :
  transformUrlSafe "a _- b" (JStr "_-") = Normal "a_-_-_-b"
  /\ ~ urlSafeOutput (list_ascii_of_string "_-") (list_ascii_of_string "a_-_-_-b").
Proof.
  split; [reflexivity|].
  intros [_ [H _]]. apply H.
  exists (list_ascii_of_string "a"), (list_ascii_of_string "_-b"). reflexivity.
Qed.

(** With the empty separator the construction of [/+/] throws. *)
Lemma transformUrlSafe_empty_separator (value : string) :
  exists msg, transformUrlSafe value (JStr "") = Throw msg.
Proof. unfold transformUrlSafe. simpl. eexists. reflexivity. Qed.

End FieldTransformFacts.

(** ** The field mapper *)

Module FieldMapperFacts.
Import ContentMapping.

Section WithPlatform.
Context {P : Platform}.

(** A field mapping whose source paths are strings, as an object. *)
Definition mappingObject (fieldMapping : list (string * string)) : JSValue :=
  JObj (map (fun entry => (fst entry, JStr (snd entry))) fieldMapping).

(** The safe value that the mapper computes for a source path. *)
Definition safeValue (contentAsset : JSValue) (path : string) : JSValue :=
  convertToSalesforceSafeValue
    (match getNestedProperty contentAsset (JStr path) with
     | Normal rawValue => rawValue
     | Throw _ => JNull
     end).

Lemma getNestedProperty_string (contentAsset : JSValue) (path : string) :
  exists rawValue, getNestedProperty contentAsset (JStr path) = Normal rawValue.
Proof.
  unfold getNestedProperty.
  destruct (negb (truthy contentAsset) || negb (truthy (JStr path))); eexists; reflexivity.
Qed.

(** With string paths the mapping loop never throws. *)
Lemma mapFields_strings (contentAsset : JSValue) (fieldMapping : list (string * string)) :
  forall article,
    exists article',
      mapFields contentAsset (ownProps (mappingObject fieldMapping)) article
      = (Normal article', article')
      /\ forall k,
          NoDup (keys fieldMapping) ->
          k <> "__proto__" ->
          assoc k article'
          = match assoc k fieldMapping with
            | Some path =>
                if includable (safeValue contentAsset path)
                then Some (safeValue contentAsset path)
                else assoc k article
            | None => assoc k article
            end.
Proof.
  induction fieldMapping as [|[sf path] rest IH]; intros article.
  - exists article. split; reflexivity.
  - cbn [mappingObject ownProps map mapFields fst snd].
    destruct (getNestedProperty_string contentAsset path) as [raw Hraw].
    assert (SV : convertToSalesforceSafeValue raw = safeValue contentAsset path).
    { unfold safeValue. now rewrite Hraw. }
    rewrite Hraw, SV.
    destruct (IH (if includable (safeValue contentAsset path)
                  then assignProp sf (safeValue contentAsset path) article
                  else article)) as [article' [Hrun Hassoc]].
    exists article'. split; [exact Hrun|].
    intros k ND Np. inversion ND as [|? ? Hn ND']; subst.
    rewrite (Hassoc k ND' Np). cbn [assoc].
    destruct (String.eqb k sf) eqn:E.
    + apply String.eqb_eq in E. subst k.
      apply assoc_None_keys in Hn. rewrite Hn.
      destruct (includable (safeValue contentAsset path)); [|reflexivity].
      rewrite assoc_assignProp by exact Np. now rewrite String.eqb_refl.
    + destruct (assoc k rest) as [p|].
      * destruct (includable (safeValue contentAsset p)); [reflexivity|].
        destruct (includable (safeValue contentAsset path)); [|reflexivity].
        rewrite assoc_assignProp by exact Np. now rewrite E.
      * destruct (includable (safeValue contentAsset path)); [|reflexivity].
        rewrite assoc_assignProp by exact Np. now rewrite E.
Qed.

(** The names that the mapper itself gives to properties of the article. *)
Definition reserved (sfField : string) : Prop :=
  sfField = "attributes" \/ sfField = "Language" \/ sfField = "DataCategorySelections".

Lemma plain_mappingObject (fieldMapping : list (string * string)) :
  ~ In "hasOwnProperty" (keys fieldMapping) ->
  shadowsHasOwnProperty (mappingObject fieldMapping) = false.
Proof.
  intros N. apply plain_keys. unfold mappingObject. cbn [ownProps].
  unfold keys in *. rewrite map_map. exact N.
Qed.

(** For a record that is neither null nor undefined the first statement of
    the mapper reads [contentAsset.ID], and the mapper returns the article. *)
Lemma mapContentToArticle_returns (contentAsset articleType fieldMapping dataCategory : JSValue)
      (isCreate : bool) :
  contentAsset <> JNull ->
  contentAsset <> JUndefined ->
  mapContentToArticle contentAsset articleType fieldMapping dataCategory isCreate
  = Normal (mapArticle contentAsset articleType fieldMapping dataCategory isCreate).
Proof.
  intros N1 N2. unfold mapContentToArticle.
  destruct contentAsset; try reflexivity; congruence.
Qed.

(** The article after the mapping loop, for string paths. *)
Lemma mapArticle_assoc (contentAsset articleType : JSValue)
      (fieldMapping : list (string * string)) (dataCategory : JSValue) (isCreate : bool)
      (k : string) :
  NoDup (keys fieldMapping) ->
  ~ In "hasOwnProperty" (keys fieldMapping) ->
  k <> "DataCategorySelections" ->
  k <> "attributes" ->
  k <> "__proto__" ->
  assoc k (mapArticle contentAsset articleType (mappingObject fieldMapping)
                      dataCategory isCreate)
  = if isCreate && String.eqb k "Language" then Some (JStr "en_US")
    else match assoc k fieldMapping with
         | Some path =>
             if includable (safeValue contentAsset path)
             then Some (safeValue contentAsset path)
             else None
         | None => None
         end.
Proof.
  intros ND Nh Nd Na Np. unfold mapArticle. cbv zeta.
  rewrite (plain_mappingObject _ Nh).
  destruct (mapFields_strings contentAsset fieldMapping
              [("attributes", JObj [("type", articleType)])]) as [article' [Hrun Hassoc]].
  rewrite Hrun.
  assert (L : assoc k (if isCreate then setProp "Language" (JStr "en_US") article' else article')
              = if isCreate && String.eqb k "Language" then Some (JStr "en_US")
                else match assoc k fieldMapping with
                     | Some path =>
                         if includable (safeValue contentAsset path)
                         then Some (safeValue contentAsset path)
                         else None
                     | None => None
                     end).
  { assert (B : assoc k article'
                = match assoc k fieldMapping with
                  | Some path =>
                      if includable (safeValue contentAsset path)
                      then Some (safeValue contentAsset path)
                      else None
                  | None => None
                  end).
    { rewrite (Hassoc k ND Np). cbn [assoc].
      destruct (String.eqb k "attributes") eqn:E;
        [apply String.eqb_eq in E; contradiction | reflexivity]. }
    destruct isCreate; cbn [andb]; [|exact B].
    rewrite assoc_setProp. destruct (String.eqb k "Language"); [reflexivity | exact B]. }
  assert (S : forall (v : JSValue) a,
            assoc k (setProp "DataCategorySelections" v a) = assoc k a).
  { intros v a. now apply assoc_setProp_other. }
  destruct (truthy dataCategory); [|exact L].
  destruct dataCategory; try exact L.
  destruct (negb _); [rewrite S; exact L | exact L].
Qed.

(** The payload of the mapper, for a record that is given and a field
    mapping with string source paths and distinct target names, none of them
    [hasOwnProperty]: a target field other than [__proto__] and the mapper's
    own [attributes], [Language] and [DataCategorySelections] is in the
    payload, with its safe value, exactly when that value is neither null,
    nor undefined, nor the empty string, and is absent otherwise.  The mapper
    adds [Language = 'en_US'] to every create payload; an update payload has
    a [Language] property exactly when the mapping itself has a [Language]
    target with a non-empty safe value. *)
Lemma mapped_field_included_iff_nonempty
      (contentAsset articleType : JSValue) (fieldMapping : list (string * string))
      (dataCategory : JSValue) (isCreate : bool) :
  contentAsset <> JNull ->
  contentAsset <> JUndefined ->
  NoDup (keys fieldMapping) ->
  ~ In "hasOwnProperty" (keys fieldMapping) ->
  exists article,
    mapContentToArticle contentAsset articleType (mappingObject fieldMapping)
                        dataCategory isCreate = Normal article
    /\ (forall sfField path,
          In (sfField, path) fieldMapping ->
          ~ reserved sfField ->
          sfField <> "__proto__" ->
          assoc sfField article
          = if includable (safeValue contentAsset path)
            then Some (safeValue contentAsset path)
            else None)
    /\ (isCreate = true -> assoc "Language" article = Some (JStr "en_US"))
    /\ (isCreate = false ->
        (In "Language" (keys article)
         <-> exists path, In ("Language", path) fieldMapping
                          /\ includable (safeValue contentAsset path) = true)).
Proof.
  intros N1 N2 ND Nh. eexists. split; [now apply mapContentToArticle_returns|].
  split; [|split].
  - intros sf path Hin Hres Np.
    rewrite mapArticle_assoc; try assumption;
      try (intros ->; apply Hres; unfold reserved; tauto).
    assert (NL : String.eqb sf "Language" = false).
    { destruct (String.eqb sf "Language") eqn:E; [|reflexivity].
      apply String.eqb_eq in E. exfalso. apply Hres. unfold reserved. tauto. }
    rewrite NL, andb_false_r.
    now rewrite (In_assoc_NoDup _ _ _ ND Hin).
  - intros ->. rewrite mapArticle_assoc; try assumption; try discriminate.
    reflexivity.
  - intros ->. rewrite <- assoc_Some_keys.
    rewrite mapArticle_assoc; try assumption; try discriminate.
    cbn [andb]. split.
    + intros [v Hv]. destruct (assoc "Language" fieldMapping) as [path|] eqn:E; [|discriminate].
      exists path. split; [now apply assoc_In|].
      destruct (includable (safeValue contentAsset path)); [reflexivity | discriminate].
    + intros [path [Hin Hinc]]. rewrite (In_assoc_NoDup _ _ _ ND Hin), Hinc. eauto.
Qed.

End WithPlatform.

Definition sampleRecord : JSValue :=
  JObj [("ID", JStr "faq-001"); ("name", JStr "How to Reset Password?");
        ("pageDescription", JStr "")].

Lemma mapped_field_included_iff_nonempty_witness :
  exists article,
    mapContentToArticle (P := Runs.platform) sampleRecord (JStr "Knowledge__kav")
      (mappingObject [("Title", "name"); ("Summary", "pageDescription")]) JNull false
    = Normal article
    /\ assoc "Title" article = Some (JStr "How to Reset Password?")
    /\ assoc "Summary" article = None.
Proof.
  assert (ND : NoDup (keys [("Title", "name"); ("Summary", "pageDescription")])).
  { simpl. repeat constructor; simpl; intuition discriminate. }
  destruct (@mapped_field_included_iff_nonempty Runs.platform sampleRecord (JStr "Knowledge__kav")
              [("Title", "name"); ("Summary", "pageDescription")] JNull false)
    as [article [Hrun [H _]]]; try discriminate; try exact ND.
  - simpl. intuition discriminate.
  - exists article. split; [exact Hrun | split].
    + apply (H "Title" "name");
        [now left | unfold reserved; intuition discriminate | discriminate].
    + apply (H "Summary" "pageDescription");
        [right; now left | unfold reserved; intuition discriminate | discriminate].
Defined.

(** C7, at the failing input.  The mapper is called for an update
    ([isCreate] false) with the field mapping [{ Language: 'name' }]: the
    payload it returns has a [Language] property, the record's name.  The
    claim, and the comment and the log line of the code ("Add Language field
    only during creation (not during updates)", "Included in payload: false
    (UPDATE - field cannot be modified)"), have no [Language] in an update
    payload. *)
Theorem update_payload_with_mapped_Language :
  mapContentToArticle (P := Runs.platform) sampleRecord (JStr "Knowledge__kav")
                      (JObj [("Language", JStr "name")]) JNull false
  = Normal [("attributes", JObj [("type", JStr "Knowledge__kav")]);
            ("Language", JStr "How to Reset Password?")].
Proof. reflexivity. Qed.

End FieldMapperFacts.

(** ** The batch orchestrator *)

Module OrchestratorFacts.
Import ContentMapping.

(** A batch size that is a whole number. *)
Definition whole (n : nat) : Q := inject_Z (Z.of_nat n).

Lemma whole_mul (i n : nat) : (whole i * whole n)%Q = whole (i * n).
Proof. unfold whole. now rewrite Nat2Z.inj_mul, inject_Z_mult. Qed.

Lemma whole_add (a b : nat) : (whole a + whole b)%Q = whole (a + b).
Proof. unfold whole. now rewrite Nat2Z.inj_add, inject_Z_plus. Qed.

Lemma floor_whole (n : nat) : Z.to_nat (Qfloor (whole n)) = n.
Proof. unfold whole. rewrite Qfloor_Z. apply Nat2Z.id. Qed.

Lemma minNumber_whole (a b : nat) : minNumber (whole a) (whole b) = whole (Nat.min a b).
Proof.
  unfold minNumber. destruct (Qle_bool (whole a) (whole b)) eqn:E.
  - apply Qle_bool_iff in E. unfold whole in E. rewrite <- Zle_Qle in E.
    now rewrite Nat.min_l by lia.
  - assert (N : ~ (whole a <= whole b)%Q).
    { intros H. apply Qle_bool_iff in H. congruence. }
    unfold whole in N. rewrite <- Zle_Qle in N.
    now rewrite Nat.min_r by lia.
Qed.

Lemma ceiling_div (a b : Z) : (0 < b)%Z -> (- ((- a) / b) = (a + b - 1) / b)%Z.
Proof.
  intros H.
  pose proof (Z.div_mod (- a) b ltac:(lia)) as E.
  pose proof (Z.mod_pos_bound (- a) b H) as B.
  apply Z.div_unique with (r := (b - 1 - (- a) mod b)%Z); [left; lia | nia].
Qed.

(** For a whole batch size, the number of batches in whole numbers. *)
Lemma ceilDiv_whole (n batchSize : nat) :
  1 <= batchSize -> ceilDiv n (whole batchSize) = (n + batchSize - 1) / batchSize.
Proof.
  intros H. unfold ceilDiv, whole.
  assert (E : Qceiling (inject_Z (Z.of_nat n) / inject_Z (Z.of_nat batchSize))
              = (- ((- Z.of_nat n) / Z.of_nat batchSize))%Z).
  { destruct batchSize as [|m]; [lia|].
    unfold Qceiling, Qfloor, Qopp, Qdiv, Qmult, Qinv, inject_Z.
    cbn [Qnum Qden Z.of_nat]. now rewrite Z.mul_1_r, Pos.mul_1_l. }
  rewrite E, ceiling_div by lia.
  replace (Z.of_nat n + Z.of_nat batchSize - 1)%Z with (Z.of_nat (n + batchSize - 1)) by lia.
  rewrite <- Nat2Z.inj_div. apply Nat2Z.id.
Qed.

Lemma whole_not_zero (batchSize : nat) : 1 <= batchSize -> Qeq_bool (whole batchSize) 0 = false.
Proof.
  intros H. destruct (Qeq_bool (whole batchSize) 0) eqn:E; [|reflexivity].
  apply Qeq_bool_iff in E. unfold whole, Qeq, inject_Z in E. simpl in E. lia.
Qed.

Section Batches.
Variables (A W : Type).
Variable exportFunction : list A -> W -> Completion Returned * W.

Lemma firstn_add_skipn (a b : nat) : forall l : list A,
  firstn (a + b) l = firstn a l ++ firstn b (skipn a l).
Proof.
  induction a as [|a IH]; intros l; [reflexivity|].
  destruct l as [|x l]; simpl.
  - now rewrite firstn_nil.
  - now rewrite IH.
Qed.

(** A batch of a whole size is the next [batchSize] records, as far as there
    are any. *)
Lemma batchAt_window (l : list A) (batchSize i : nat) :
  batchAt l (whole batchSize) i = firstn batchSize (skipn (i * batchSize) l).
Proof.
  unfold batchAt, slice.
  change (inject_Z (Z.of_nat i)) with (whole i).
  change (inject_Z (Z.of_nat (List.length l))) with (whole (List.length l)).
  rewrite whole_mul, whole_add, minNumber_whole, !floor_whole.
  destruct (Nat.le_ge_cases (i * batchSize + batchSize) (List.length l)) as [H|H].
  - rewrite Nat.min_l by exact H. f_equal. lia.
  - rewrite Nat.min_r by exact H.
    rewrite (firstn_all2 (n := batchSize)) by (rewrite length_skipn; lia).
    apply firstn_all2. rewrite length_skipn. lia.
Qed.

(** The batches are contiguous and in the original order: the first [k] of
    them make up the first [k * batchSize] records. *)
Lemma batches_concat (l : list A) (batchSize : nat) : forall k,
  concat (map (batchAt l (whole batchSize)) (seq 0 k)) = firstn (k * batchSize) l.
Proof.
  induction k as [|k IH]; [reflexivity|].
  rewrite seq_S, map_app, concat_app, IH. simpl. rewrite app_nil_r.
  rewrite batchAt_window.
  replace (batchSize + k * batchSize) with (k * batchSize + batchSize) by lia.
  now rewrite firstn_add_skipn.
Qed.

Lemma ceilDiv_covers (n batchSize : nat) :
  1 <= batchSize -> n <= ceilDiv n (whole batchSize) * batchSize.
Proof.
  intros H. rewrite ceilDiv_whole by exact H.
  pose proof (Nat.div_mod_eq (n + batchSize - 1) batchSize) as E.
  pose proof (Nat.mod_upper_bound (n + batchSize - 1) batchSize) as U.
  nia.
Qed.

Lemma ceilDiv_tight (n batchSize : nat) :
  1 <= batchSize -> 1 <= n -> (ceilDiv n (whole batchSize) - 1) * batchSize < n.
Proof.
  intros H Hn. rewrite ceilDiv_whole by exact H.
  pose proof (Nat.div_mod_eq (n + batchSize - 1) batchSize) as E.
  pose proof (Nat.mod_upper_bound (n + batchSize - 1) batchSize) as U.
  nia.
Qed.

(** The batches of a run partition the records. *)
Lemma batches_partition (l : list A) (batchSize : nat) :
  1 <= batchSize ->
  concat (map (batchAt l (whole batchSize))
              (seq 0 (ceilDiv (List.length l) (whole batchSize)))) = l.
Proof.
  intros H. rewrite batches_concat. apply firstn_all2. now apply ceilDiv_covers.
Qed.

(** Every batch but the last is full, and no batch before the end is empty. *)
Lemma batch_length (l : list A) (batchSize i : nat) :
  List.length (batchAt l (whole batchSize) i)
  = Nat.min batchSize (List.length l - i * batchSize).
Proof. rewrite batchAt_window, length_firstn, length_skipn. reflexivity. Qed.

(** A run with a whole batch size of at least one ends. *)
Lemma exportToExternalAPI_whole (l : list A) (batchSize : nat) (w : W) :
  1 <= batchSize ->
  exportToExternalAPI exportFunction l (whole batchSize) w
  = Some (fold_left (processBatch exportFunction l (whole batchSize))
                    (seq 0 (ceilDiv (List.length l) (whole batchSize)))
                    (mkExportResult 0 0 0 [], w)).
Proof.
  intros H. unfold exportToExternalAPI. destruct l as [|x l].
  - cbn [List.length]. rewrite ceilDiv_whole by exact H.
    rewrite Nat.div_small by lia. reflexivity.
  - now rewrite whole_not_zero.
Qed.

(** The export function returns a value or throws: it never returns [null]
    or [undefined]. *)
Definition answers (c : Completion Returned) : Prop :=
  match c with
  | Normal ReturnedNull | Normal ReturnedUndefined => False
  | _ => True
  end.

Hypothesis exportFunction_answers : forall slice w, answers (fst (exportFunction slice w)).

Lemma processed_step (l : list A) (batchSize : Q) (acc : ExportResult * W) (i : nat) :
  totalProcessed (fst (processBatch exportFunction l batchSize acc i))
  = totalProcessed (fst acc) + List.length (batchAt l batchSize i).
Proof.
  unfold processBatch. destruct acc as [result w].
  pose proof (exportFunction_answers (batchAt l batchSize i) w) as Ha.
  destruct (exportFunction (batchAt l batchSize i) w) as [[[| |batchResult]|msg] w'];
    cbn [fst answers] in Ha; try contradiction;
    [destruct (batchSuccess batchResult)|]; reflexivity.
Qed.

Lemma processed_fold (l : list A) (batchSize : Q) : forall indices acc,
  totalProcessed (fst (fold_left (processBatch exportFunction l batchSize) indices acc))
  = totalProcessed (fst acc) + List.length (concat (map (batchAt l batchSize) indices)).
Proof.
  induction indices as [|i indices IH]; intros acc; simpl; [lia|].
  rewrite IH, processed_step, length_app. lia.
Qed.

(** Whatever the export function answers or throws, a run with a whole batch
    size of at least one ends, and it has processed every record. *)
Lemma exportToExternalAPI_processes_all (l : list A) (batchSize : nat) (w : W) :
  1 <= batchSize ->
  exists result w',
    exportToExternalAPI exportFunction l (whole batchSize) w = Some (result, w')
    /\ totalProcessed result = List.length l.
Proof.
  intros H. rewrite exportToExternalAPI_whole by exact H.
  set (run := fold_left _ _ _).
  exists (fst run), (snd run). split; [now destruct run|].
  subst run. rewrite processed_fold. simpl totalProcessed.
  now rewrite batches_partition.
Qed.

End Batches.

(** For 237 records and a batch size of 50 there are five batches, of sizes
    50, 50, 50, 50 and 37. *)
Lemma batches_237_by_50 :
  ceilDiv 237 50 = 5
  /\ map (fun i => List.length (batchAt (seq 0 237) 50 i)) (seq 0 (ceilDiv 237 50))
     = [50; 50; 50; 50; 37].
Proof. split; vm_compute; reflexivity. Qed.

(** A batch size that is no whole number: the configuration check lets 2.5
    pass, and five records go in two batches, of two and of three. *)
Lemma batches_5_by_2_5 :
  map (batchAt [1; 2; 3; 4; 5] (5 # 2)) (seq 0 (ceilDiv 5 (5 # 2))) = [[1; 2]; [3; 4; 5]].
Proof. vm_compute. reflexivity. Qed.

Import Knowledge.

Definition record (id : string) : JSValue :=
  JObj [("ID", JStr id); ("name", JStr "How to Reset Password?")].

Definition threeRecords : list JSValue := [record "faq-001"; record "faq-002"; record "faq-003"].

Definition jobConfig : JSValue :=
  JObj [("serviceID", JStr "salesforce.knowledge"); ("fieldMapping", JStr Runs.titleMappingText)].

(** C4, at the failing input: three records, batches of two, and a remote
    that cannot be reached.  Every upsert reports a failure, and the run
    reports three successes and no failure. *)
Theorem failed_records_counted_as_success :
  map (fun contentAsset =>
         match fst (upsertKnowledgeArticle (P := Runs.platform) (C := Remote.unreachable)
                                           contentAsset jobConfig (mkSession tt [])) with
         | Normal r => Some (success r)
         | Throw _ => None
         end) threeRecords
  = [Some false; Some false; Some false]
  /\ exists s,
      ExportJob.exportStep (P := Runs.platform) (C := Remote.unreachable)
                           jobConfig threeRecords 2 (mkSession tt [])
      = Some (mkExportResult 3 3 0 [], s).
Proof.
  split.
  - vm_compute. reflexivity.
  - eexists. vm_compute. reflexivity.
Qed.

End OrchestratorFacts.

(** ** The article sync state machine *)

Module KnowledgeFacts.
Import Knowledge.

Section WithCollaborators.
Context {P : Platform} {W : Type} {C : Collaborators W}.

(** What an answer to the publish request means for [publishArticle]. *)
Definition publishSucceeded (a : Completion ServiceResult) : bool :=
  match a with
  | Normal result =>
      isOK result
      && (truthy (dataOf result) && isArray (dataOf result)
          && greaterThanZero (lengthOf (dataOf result)))
      && match getProp (dataOf result) "0" with
         | JUndefined | JNull => false
         | actionResult => truthy (getProp actionResult "isSuccess")
         end
  | Throw _ => false
  end.

Definition answeredOK (x : Exchange) : bool :=
  match answer x with
  | Normal result => isOK result
  | Throw _ => false
  end.

Definition isPublishExchange (x : Exchange) : bool := isPublish (request x).

Definition isUpdateExchange (x : Exchange) : bool :=
  match operation (request x) with Update _ _ _ => true | _ => false end.

Definition isCreateExchange (x : Exchange) : bool :=
  match operation (request x) with Create _ _ => true | _ => false end.

(** One call: the exchange is logged and the world moves on. *)
Lemma call_run (serviceID : string) (req : Request) (s : Session W) :
  call serviceID req s
  = (fst (serviceCall serviceID req (world s)),
     mkSession (snd (serviceCall serviceID req (world s)))
               (calls s ++ [mkExchange req (fst (serviceCall serviceID req (world s)))])).
Proof. unfold call. now destruct (serviceCall serviceID req (world s)). Qed.

(** [publishArticle] never throws, sends exactly the publish request, and
    succeeds exactly when the answer is a success. *)
Lemma publishArticle_run (token url version : JSValue) (serviceID : string) (s : Session W) :
  exists publishResult,
    publishArticle token url version serviceID s
    = (Normal publishResult,
       mkSession (snd (serviceCall serviceID (mkRequest token url (Publish version)) (world s)))
                 (calls s ++ [mkExchange (mkRequest token url (Publish version))
                                (fst (serviceCall serviceID
                                        (mkRequest token url (Publish version)) (world s)))]))
    /\ publishSuccess publishResult
       = publishSucceeded (fst (serviceCall serviceID
                                  (mkRequest token url (Publish version)) (world s))).
Proof.
  unfold publishArticle, tryCatch, bind. rewrite call_run.
  destruct (serviceCall serviceID (mkRequest token url (Publish version)) (world s))
    as [[result|msg] w']; cbn [fst snd publishSucceeded].
  - destruct (isOK result); cbn [andb];
      [|eexists; split; reflexivity].
    destruct (truthy (dataOf result) && isArray (dataOf result)
              && greaterThanZero (lengthOf (dataOf result)));
      cbn [andb]; [|eexists; split; reflexivity].
    unfold lift, getMember, ret.
    destruct (getProp (dataOf result) "0") eqn:E;
      try (eexists; split; reflexivity);
      match goal with
      | |- context [truthy ?v] => destruct (truthy v); eexists; split; reflexivity
      end.
  - eexists; split; reflexivity.
Qed.

(** The tail of both paths. *)
Lemma publishStep_run (token url masterId version publishArticles : JSValue)
      (op serviceID : string) (s : Session W) :
  exists r s',
    publishStep token url masterId version op publishArticles serviceID s = (Normal r, s')
    /\ success r = true
    /\ knowledgeArticleId r = masterId
    /\ versionId r = version
    /\ (truthy publishArticles = false ->
        s' = s /\ publishStatus r = JStr "draft" /\ warning r = JUndefined)
    /\ (truthy publishArticles = true ->
        exists x, calls s' = calls s ++ [x]
                  /\ operation (request x) = Publish version
                  /\ (publishSucceeded (answer x) = true ->
                      publishStatus r = JStr "online" /\ warning r = JUndefined)
                  /\ (publishSucceeded (answer x) = false ->
                      publishStatus r = JStr "draft" /\ exists w, warning r = JStr w)).
Proof.
  unfold publishStep. destruct (truthy publishArticles) eqn:T.
  - unfold bind.
    destruct (publishArticle_run token url version serviceID s) as [pr [Hrun Hsucc]].
    rewrite Hrun.
    destruct (publishSuccess pr) eqn:PS; cbn [negb]; unfold ret;
      eexists; eexists; (split; [reflexivity|]);
      (split; [reflexivity|]); (split; [reflexivity|]); (split; [reflexivity|]);
      (split; [discriminate|]); intros _;
      eexists; (split; [reflexivity|]); (split; [reflexivity|]);
      cbn [answer]; rewrite <- Hsucc; split; intros H; try discriminate;
      cbn [publishStatus warning succeeded]; eauto.
  - unfold ret. eexists; eexists; split; [reflexivity|].
    repeat split; try reflexivity. discriminate.
Qed.

(** [editOnlineArticle] never throws and sends exactly one request; on
    success its [draftId] is the [id] of the answer. *)
Lemma editOnlineArticle_run (token url masterId : JSValue) (serviceID : string) (s : Session W) :
  exists editResult,
    editOnlineArticle token url masterId serviceID s
    = (Normal editResult,
       mkSession (snd (serviceCall serviceID (mkRequest token url (EditOnline masterId)) (world s)))
                 (calls s ++ [mkExchange (mkRequest token url (EditOnline masterId))
                                (fst (serviceCall serviceID
                                        (mkRequest token url (EditOnline masterId)) (world s)))]))
    /\ (editSuccess editResult = true ->
        exists result,
          fst (serviceCall serviceID (mkRequest token url (EditOnline masterId)) (world s))
          = Normal result
          /\ isOK result = true
          /\ draftId editResult = getProp (dataOf result) "id").
Proof.
  unfold editOnlineArticle, tryCatch, bind. rewrite call_run.
  destruct (serviceCall serviceID (mkRequest token url (EditOnline masterId)) (world s))
    as [[result|msg] w']; cbn [fst snd].
  - destruct (isOK result) eqn:OK.
    + unfold lift, getMember, ret.
      destruct (dataOf result) eqn:D;
        try (eexists; split; [reflexivity|]; cbn [editSuccess]; intros H;
             try discriminate; exists result; rewrite D; auto).
    + unfold ret. eexists; split; [reflexivity | intros H; discriminate H].
  - unfold ret. eexists; split; [reflexivity | intros H; discriminate H].
Qed.

(** The update of the draft followed by the publish step. *)
Definition patchThenPublish (token url masterId draft articleData articleType
                             publishArticles : JSValue) (serviceID : string) : Exec SyncResult :=
  bind (call serviceID
          (mkRequest token url (Update (ToString articleType) (ToString draft) articleData)))
       (fun updateResult =>
          if negb (isOK updateResult) then
            ret (failure (JStr ("Failed to update draft: "
                                  ++ ToString (errorMessageOf updateResult "Update failed")))
                         (JStr "update_draft"))
          else publishStep token url masterId draft "update" publishArticles serviceID).

Definition foundOnline (existingArticle : JSValue) : bool :=
  match getProp existingArticle "PublishStatus" with
  | JStr st => String.eqb st "Online"
  | _ => false
  end.

Lemma updateArticleWithVersioning_unfold
      (token url existingArticle articleData articleType publishArticles : JSValue)
      (serviceID : string) :
  updateArticleWithVersioning token url existingArticle articleData articleType
                              publishArticles serviceID
  = tryCatch
      (if foundOnline existingArticle then
         bind (editOnlineArticle token url (getProp existingArticle "KnowledgeArticleId")
                                 serviceID)
              (fun editResult =>
                 if negb (editSuccess editResult) then
                   ret (failure (JStr ("Failed to create draft: "
                                         ++ ToString (editError editResult)))
                                (JStr "edit_online"))
                 else patchThenPublish token url (getProp existingArticle "KnowledgeArticleId")
                                       (draftId editResult) articleData articleType
                                       publishArticles serviceID)
       else patchThenPublish token url (getProp existingArticle "KnowledgeArticleId")
                             (getProp existingArticle "Id") articleData articleType
                             publishArticles serviceID)
      (fun msg => ret (failure (JStr ("Exception: " ++ msg)) (JStr "update"))).
Proof. reflexivity. Qed.

(** What a run of the publish tail guarantees about a successful result. *)
Definition publishOutcome (publishArticles version : JSValue) (r : SyncResult)
           (sent : list Exchange) : Prop :=
  (truthy publishArticles = false ->
   sent = [] /\ publishStatus r = JStr "draft" /\ warning r = JUndefined)
  /\ (truthy publishArticles = true ->
      exists x, sent = [x]
                /\ operation (request x) = Publish version
                /\ (publishSucceeded (answer x) = true ->
                    publishStatus r = JStr "online" /\ warning r = JUndefined)
                /\ (publishSucceeded (answer x) = false ->
                    publishStatus r = JStr "draft" /\ exists w, warning r = JStr w)).

(** The draft update and what follows it: the update request is sent first;
    the outcome is a success exactly when its answer is a success, and then
    the publish step follows. *)
Lemma patchThenPublish_run (token url masterId draft articleData articleType
                             publishArticles : JSValue) (serviceID : string) (s : Session W) :
  exists x,
    operation (request x) = Update (ToString articleType) (ToString draft) articleData
    /\ ((exists msg s', patchThenPublish token url masterId draft articleData articleType
                                         publishArticles serviceID s = (Throw msg, s')
                        /\ calls s' = calls s ++ [x]
                        /\ answeredOK x = false)
        \/ (exists r s' sent,
               patchThenPublish token url masterId draft articleData articleType
                                publishArticles serviceID s = (Normal r, s')
               /\ calls s' = calls s ++ x :: sent
               /\ success r = answeredOK x
               /\ (success r = false -> sent = [])
               /\ (success r = true ->
                   knowledgeArticleId r = masterId
                   /\ versionId r = draft
                   /\ publishOutcome publishArticles draft r sent))).
Proof.
  unfold patchThenPublish, bind. rewrite call_run.
  set (req := mkRequest token url (Update (ToString articleType) (ToString draft) articleData)).
  destruct (serviceCall serviceID req (world s)) as [[result|msg] w'] eqn:E; cbn [fst snd].
  - exists (mkExchange req (Normal result)). split; [reflexivity|]. right.
    unfold answeredOK. cbn [answer].
    destruct (isOK result) eqn:OK; cbn [negb].
    + destruct (publishStep_run token url masterId draft publishArticles "update" serviceID
                  (mkSession w' (calls s ++ [mkExchange req (Normal result)])))
        as [r [s' [Hrun [Hs [Hm [Hv [Hf Ht]]]]]]].
      rewrite Hrun.
      destruct (truthy publishArticles) eqn:T.
      * destruct (Ht eq_refl) as [x [Hc [Hop [H1 H2]]]].
        exists r, s', [x]. split; [reflexivity|].
        split; [rewrite Hc; cbn [calls]; now rewrite <- app_assoc|].
        split; [exact Hs|]. split; [congruence|]. intros _.
        split; [exact Hm|]. split; [exact Hv|].
        unfold publishOutcome. rewrite T.
        split; [discriminate|]. intros _. exists x. auto.
      * destruct (Hf eq_refl) as [Hs' [Hp Hw]]. subst s'.
        exists r, (mkSession w' (calls s ++ [mkExchange req (Normal result)])), [].
        split; [reflexivity|]. split; [reflexivity|].
        split; [exact Hs|]. split; [congruence|]. intros _.
        split; [exact Hm|]. split; [exact Hv|].
        unfold publishOutcome. rewrite T.
        split; [auto | discriminate].
    + unfold ret. eexists; eexists; exists []. split; [reflexivity|].
      split; [reflexivity|]. split; [reflexivity|]. split; [reflexivity | discriminate].
  - exists (mkExchange req (Throw msg)). split; [reflexivity|]. left.
    eexists; eexists. split; [reflexivity|]. split; reflexivity.
Qed.

Definition wroteDraft (x : Exchange) : bool := isUpdateExchange x && answeredOK x.

(** The update path, from the request log: the result is a success exactly
    when the draft update was answered with a success; the master id is the
    one of the article found; for an article found [Online] the draft is
    created first and the update goes to the draft that the remote returned;
    otherwise the update goes to the version found. *)
Lemma update_path (token url existingArticle articleData articleType publishArticles : JSValue)
      (serviceID : string) (s : Session W) :
  exists r s' sent,
    updateArticleWithVersioning token url existingArticle articleData articleType
                                publishArticles serviceID s = (Normal r, s')
    /\ calls s' = calls s ++ sent
    /\ (success r = true <-> existsb wroteDraft sent = true)
    /\ (success r = true ->
        knowledgeArticleId r = getProp existingArticle "KnowledgeArticleId"
        /\ exists writes published,
            sent = writes ++ published
            /\ publishOutcome publishArticles (versionId r) r published
            /\ (foundOnline existingArticle = true ->
                exists x1 x2 result,
                  writes = [x1; x2]
                  /\ operation (request x1)
                     = EditOnline (getProp existingArticle "KnowledgeArticleId")
                  /\ answer x1 = Normal result
                  /\ isOK result = true
                  /\ versionId r = getProp (dataOf result) "id"
                  /\ operation (request x2)
                     = Update (ToString articleType) (ToString (versionId r)) articleData)
            /\ (foundOnline existingArticle = false ->
                versionId r = getProp existingArticle "Id"
                /\ exists x,
                    writes = [x]
                    /\ operation (request x)
                       = Update (ToString articleType) (ToString (versionId r)) articleData)).
Proof.
  rewrite updateArticleWithVersioning_unfold. unfold tryCatch.
  assert (NP : forall publishArticles version r published,
             publishOutcome publishArticles version r published ->
             existsb wroteDraft published = false).
  { intros pa v r0 pub [Hf Ht]. destruct (truthy pa).
    - destruct (Ht eq_refl) as [x [-> [Hop _]]]. simpl.
      unfold wroteDraft, isUpdateExchange. now rewrite Hop.
    - destruct (Hf eq_refl) as [-> _]. reflexivity. }
  destruct (foundOnline existingArticle) eqn:On.
  - unfold bind.
    destruct (editOnlineArticle_run token url (getProp existingArticle "KnowledgeArticleId")
                                    serviceID s) as [er [Hedit Hid]].
    rewrite Hedit.
    set (req1 := mkRequest token url (EditOnline (getProp existingArticle "KnowledgeArticleId")))
      in *.
    set (x1 := mkExchange req1 (fst (serviceCall serviceID req1 (world s)))) in *.
    assert (U1 : wroteDraft x1 = false) by reflexivity.
    destruct (editSuccess er) eqn:ES; cbn [negb].
    + destruct (Hid eq_refl) as [result [Hans [HOK Hdraft]]].
      destruct (patchThenPublish_run token url (getProp existingArticle "KnowledgeArticleId")
                  (draftId er) articleData articleType publishArticles serviceID
                  (mkSession (snd (serviceCall serviceID req1 (world s))) (calls s ++ [x1])))
        as [x2 [Hop [[msg [s' [Hrun [Hc Ha]]]] | [r [s' [sent [Hrun [Hc [Hs [Hf Ht]]]]]]]]]];
        rewrite Hrun.
      * unfold ret. eexists; eexists; exists [x1; x2].
        split; [reflexivity|]. cbn [calls] in *.
        split; [rewrite Hc; now rewrite <- app_assoc|].
        cbn [success failure existsb]. rewrite U1. unfold wroteDraft at 1. rewrite Ha.
        rewrite andb_false_r. split; [split; discriminate | discriminate].
      * exists r, s', (x1 :: x2 :: sent). split; [reflexivity|]. cbn [calls] in *.
        split; [rewrite Hc; now rewrite <- app_assoc|].
        destruct (success r) eqn:SR.
        -- destruct (Ht eq_refl) as [Hm [Hv Hpub]].
           split.
           ++ cbn [existsb]. unfold wroteDraft at 2, isUpdateExchange. rewrite Hop, <- Hs.
              rewrite orb_true_r. tauto.
           ++ intros _. split; [exact Hm|].
              exists [x1; x2], sent. split; [reflexivity|].
              split; [now rewrite Hv|].
              split; [|discriminate]. intros _.
              exists x1, x2, result. rewrite Hv.
              repeat split; try assumption; reflexivity.
        -- rewrite (Hf eq_refl). cbn [existsb]. rewrite U1.
           unfold wroteDraft, isUpdateExchange. rewrite Hop, <- Hs.
           split; [split; discriminate | discriminate].
    + unfold ret. eexists; eexists; exists [x1].
      split; [reflexivity|]. split; [reflexivity|].
      cbn [success failure existsb]. rewrite U1.
      split; [split; discriminate | discriminate].
  - destruct (patchThenPublish_run token url (getProp existingArticle "KnowledgeArticleId")
                (getProp existingArticle "Id") articleData articleType publishArticles
                serviceID s)
      as [x [Hop [[msg [s' [Hrun [Hc Ha]]]] | [r [s' [sent [Hrun [Hc [Hs [Hf Ht]]]]]]]]]];
      rewrite Hrun.
    + unfold ret. eexists; eexists; exists [x].
      split; [reflexivity|]. split; [exact Hc|].
      cbn [success failure existsb]. unfold wroteDraft. rewrite Ha, andb_false_r.
      split; [split; discriminate | discriminate].
    + exists r, s', (x :: sent). split; [reflexivity|]. split; [exact Hc|].
      destruct (success r) eqn:SR.
      * destruct (Ht eq_refl) as [Hm [Hv Hpub]].
        split.
        -- cbn [existsb]. unfold wroteDraft at 1, isUpdateExchange. rewrite Hop, <- Hs.
           tauto.
        -- intros _. split; [exact Hm|].
           exists [x], sent. split; [reflexivity|].
           split; [now rewrite Hv|].
           split; [discriminate|]. intros _. split; [exact Hv|].
           exists x. rewrite Hv. split; [reflexivity | exact Hop].
      * rewrite (Hf eq_refl). cbn [existsb].
        unfold wroteDraft, isUpdateExchange. rewrite Hop, <- Hs.
        split; [split; discriminate | discriminate].
Qed.

(** The master id that [createArticle] reports, from the answer to its
    re-query: the [KnowledgeArticleId] of the first record when the query is
    answered with records, and the version id otherwise. *)
Definition requeried (a : Completion ServiceResult) (articleId : JSValue) : JSValue :=
  match a with
  | Normal queryResult =>
      if isOK queryResult && hasRecords (getProp (dataOf queryResult) "records")
      then getProp (getProp (getProp (dataOf queryResult) "records") "0") "KnowledgeArticleId"
      else articleId
  | Throw _ => articleId
  end.

(** The re-query of [createArticle], with the rest of the function as [k]. *)
Definition masterLookup {A : Type} (token url articleType articleId : JSValue)
           (serviceID : string) (k : JSValue -> Exec A) : Exec A :=
  bind (call serviceID
          (queryRequest token url (SelectById (ToString articleType) (ToString articleId))))
       (fun queryResult =>
          bind (if isOK queryResult then
                  bind (lift (getMember (dataOf queryResult) "records"))
                       (fun records =>
                          if hasRecords records then
                            bind (lift (getMember (getProp records "0") "Id"))
                                 (fun _ => ret (getProp (getProp records "0") "KnowledgeArticleId"))
                          else ret articleId)
                else ret articleId)
               k).

Lemma createArticle_unfold (token url articleData articleType publishArticles : JSValue)
      (serviceID : string) :
  createArticle token url articleData articleType publishArticles serviceID
  = tryCatch
      (bind (call serviceID (mkRequest token url (Create (ToString articleType) articleData)))
            (fun result =>
               if isOK result then
                 bind (lift (getMember (dataOf result) "id"))
                      (fun articleId =>
                         masterLookup token url articleType articleId serviceID
                           (fun masterId =>
                              publishStep token url masterId articleId "create"
                                          publishArticles serviceID))
               else ret (failure (errorMessageOf result "Create failed") (JStr "create"))))
      (fun msg => ret (failure (JStr ("Exception: " ++ msg)) (JStr "create"))).
Proof. reflexivity. Qed.

Lemma masterLookup_run {A : Type} (token url articleType articleId : JSValue)
      (serviceID : string) (k : JSValue -> Exec A) (s : Session W) :
  exists x s',
    operation (request x) = Query (SelectById (ToString articleType) (ToString articleId))
    /\ calls s' = calls s ++ [x]
    /\ world s'
       = snd (serviceCall serviceID
                (queryRequest token url
                   (SelectById (ToString articleType) (ToString articleId))) (world s))
    /\ ((exists msg, masterLookup token url articleType articleId serviceID k s = (Throw msg, s'))
        \/ masterLookup token url articleType articleId serviceID k s
           = k (requeried (answer x) articleId) s').
Proof.
  unfold masterLookup, bind. rewrite !call_run.
  set (req := queryRequest token url (SelectById (ToString articleType) (ToString articleId))).
  destruct (serviceCall serviceID req (world s)) as [[queryResult|msg] w'] eqn:E; cbn [fst snd].
  - exists (mkExchange req (Normal queryResult)).
    exists (mkSession w' (calls s ++ [mkExchange req (Normal queryResult)])).
    split; [reflexivity|]. split; [reflexivity|]. split; [reflexivity|].
    cbn [answer requeried]. destruct (isOK queryResult); cbn [andb]; [|right; reflexivity].
    unfold lift, getMember.
    destruct (dataOf queryResult) eqn:D; try (left; eexists; reflexivity);
      (destruct (hasRecords (getProp _ "records")); [|right; reflexivity];
       destruct (getProp (getProp _ "records") "0") eqn:R;
       try (left; eexists; reflexivity); right; reflexivity).
  - exists (mkExchange req (Throw msg)).
    exists (mkSession w' (calls s ++ [mkExchange req (Throw msg)])).
    split; [reflexivity|]. split; [reflexivity|]. split; [reflexivity|].
    left. eexists. reflexivity.
Qed.

(** What [createArticle] does once the new version id is known: the re-query,
    then the publish step. *)
Lemma afterCreate_run (token url articleType publishArticles articleId : JSValue)
      (serviceID : string) (s : Session W) :
  exists x2,
    operation (request x2) = Query (SelectById (ToString articleType) (ToString articleId))
    /\ ((exists msg s2,
           masterLookup token url articleType articleId serviceID
             (fun masterId =>
                publishStep token url masterId articleId "create" publishArticles serviceID) s
           = (Throw msg, s2)
           /\ calls s2 = calls s ++ [x2])
        \/ (exists r s3 published,
              masterLookup token url articleType articleId serviceID
                (fun masterId =>
                   publishStep token url masterId articleId "create" publishArticles serviceID) s
              = (Normal r, s3)
              /\ calls s3 = calls s ++ x2 :: published
              /\ success r = true
              /\ versionId r = articleId
              /\ knowledgeArticleId r = requeried (answer x2) articleId
              /\ publishOutcome publishArticles articleId r published)).
Proof.
  destruct (masterLookup_run token url articleType articleId serviceID
              (fun masterId =>
                 publishStep token url masterId articleId "create" publishArticles serviceID) s)
    as [x2 [s2 [Hop2 [Hc2 [_ [[msg Hrun] | Hrun]]]]]]; exists x2; (split; [exact Hop2|]).
  - left. exists msg, s2. split; assumption.
  - right. rewrite Hrun.
    destruct (publishStep_run token url (requeried (answer x2) articleId) articleId
                publishArticles "create" serviceID s2)
      as [r [s3 [Hrun3 [Hs [Hm [Hv [Hf Ht]]]]]]].
    destruct (truthy publishArticles) eqn:T.
    + destruct (Ht eq_refl) as [x3 [Hc3 [Hop3 [H1 H2]]]].
      exists r, s3, [x3]. split; [exact Hrun3|].
      split; [rewrite Hc3, Hc2, <- app_assoc; reflexivity|].
      split; [exact Hs|]. split; [exact Hv|]. split; [exact Hm|].
      unfold publishOutcome. rewrite T. split; [discriminate|].
      intros _. exists x3. auto.
    + destruct (Hf eq_refl) as [Hs3 [Hp Hw]]. subst s3.
      exists r, s2, []. split; [exact Hrun3|].
      split; [exact Hc2|].
      split; [exact Hs|]. split; [exact Hv|]. split; [exact Hm|].
      unfold publishOutcome. rewrite T. split; [auto | discriminate].
Qed.

Lemma getMember_cases (v : JSValue) (k : string) :
  (exists msg, getMember v k = Throw msg) \/ getMember v k = Normal (getProp v k).
Proof. destruct v; cbn [getMember]; eauto. Qed.

(** The create path, from the request log: the create request is sent first;
    the result is a failure when it is not answered with a success, and also
    when the answer carries no data or the re-query throws; on success the
    version id is the id that the create request returned and the master id
    is the one the re-query returned, or the version id when the re-query
    returned none. *)
Lemma create_path (token url articleData articleType publishArticles : JSValue)
      (serviceID : string) (s : Session W) :
  exists r s' x1 rest,
    createArticle token url articleData articleType publishArticles serviceID s = (Normal r, s')
    /\ calls s' = calls s ++ x1 :: rest
    /\ operation (request x1) = Create (ToString articleType) articleData
    /\ (answeredOK x1 = false -> success r = false /\ rest = [])
    /\ (success r = false -> existsb isPublishExchange (x1 :: rest) = false)
    /\ (answeredOK x1 = true -> success r = false ->
        exists msg, error r = JStr ("Exception: " ++ msg))
    /\ (success r = true ->
        exists result x2 published,
          answer x1 = Normal result
          /\ isOK result = true
          /\ versionId r = getProp (dataOf result) "id"
          /\ rest = x2 :: published
          /\ operation (request x2)
             = Query (SelectById (ToString articleType) (ToString (versionId r)))
          /\ knowledgeArticleId r = requeried (answer x2) (versionId r)
          /\ publishOutcome publishArticles (versionId r) r published).
Proof.
  rewrite createArticle_unfold. unfold tryCatch, bind at 1. rewrite call_run.
  set (req := mkRequest token url (Create (ToString articleType) articleData)).
  destruct (serviceCall serviceID req (world s)) as [[result|msg] w'] eqn:E; cbn [fst snd].
  - set (x1 := mkExchange req (Normal result)).
    set (s1 := mkSession w' (calls s ++ [x1])).
    assert (P1 : isPublishExchange x1 = false) by reflexivity.
    assert (A1 : answeredOK x1 = isOK result) by reflexivity.
    destruct (isOK result) eqn:OK.
    + unfold bind at 1, lift.
      destruct (getMember_cases (dataOf result) "id") as [[msg Hid] | Hid]; rewrite Hid.
      * exists (failure (JStr ("Exception: " ++ msg)) (JStr "create")), s1, x1, [].
        split; [reflexivity|]. split; [reflexivity|]. split; [reflexivity|].
        split; [rewrite A1; discriminate|].
        split; [intros _; cbn [existsb]; now rewrite P1|].
        split; [intros _ _; exists msg; reflexivity | discriminate].
      * destruct (afterCreate_run token url articleType publishArticles
                    (getProp (dataOf result) "id") serviceID s1)
          as [x2 [Hop2 [[msg [s2 [Hrun Hc2]]] | [r [s3 [published [Hrun [Hc3 [Hs [Hv [Hm Hp]]]]]]]]]]];
          rewrite Hrun.
        -- assert (P2 : isPublishExchange x2 = false)
             by (unfold isPublishExchange, isPublish; now rewrite Hop2).
           exists (failure (JStr ("Exception: " ++ msg)) (JStr "create")), s2, x1, [x2].
           split; [reflexivity|].
           split; [rewrite Hc2; cbn [calls s1]; now rewrite <- app_assoc|].
           split; [reflexivity|].
           split; [rewrite A1; discriminate|].
           split; [intros _; cbn [existsb]; now rewrite P1, P2|].
           split; [intros _ _; exists msg; reflexivity | discriminate].
        -- exists r, s3, x1, (x2 :: published).
           split; [reflexivity|].
           split; [rewrite Hc3; cbn [calls s1]; now rewrite <- app_assoc|].
           split; [reflexivity|].
           split; [rewrite A1; discriminate|].
           split; [rewrite Hs; discriminate|].
           split; [rewrite Hs; discriminate|].
           intros _. exists result, x2, published.
           rewrite Hv. repeat (split; [first [reflexivity | assumption]|]). exact Hp.
    + exists (failure (errorMessageOf result "Create failed") (JStr "create")), s1, x1, [].
      split; [reflexivity|]. split; [reflexivity|]. split; [reflexivity|].
      split; [auto|]. split; [intros _; cbn [existsb]; now rewrite P1|].
      split; [rewrite A1; discriminate | discriminate].
  - set (x1 := mkExchange req (Throw msg)).
    exists (failure (JStr ("Exception: " ++ msg)) (JStr "create")),
      (mkSession w' (calls s ++ [x1])), x1, [].
    split; [reflexivity|]. split; [reflexivity|]. split; [reflexivity|].
    split; [auto|]. split; [reflexivity|].
    split; [discriminate | discriminate].
Qed.




(** When the draft update of the update path is answered with
    a success the result is a success; so is the result of the create path
    when the create request is answered with a success, unless reading the
    new id or the re-query throws, in which case the result is a failure
    whose error starts with [Exception: ] and no publish request is sent.  In
    every such success: with [publishArticles] falsy no publish request is
    sent, the status is [draft] and there is no warning; with
    [publishArticles] truthy exactly one publish request is sent, for the
    version written, and the status is [online] without a warning when it
    succeeds and [draft] with a warning when it fails. *)
Lemma publish_outcome_after_write
      (token url existingArticle articleData articleType publishArticles : JSValue)
      (serviceID : string) (s : Session W) :
  (exists r s' sent,
      updateArticleWithVersioning token url existingArticle articleData articleType
                                  publishArticles serviceID s = (Normal r, s')
      /\ calls s' = calls s ++ sent
      /\ (existsb wroteDraft sent = true ->
          success r = true
          /\ exists writes published,
              sent = writes ++ published
              /\ existsb isPublishExchange writes = false
              /\ publishOutcome publishArticles (versionId r) r published))
  /\ (exists r s' x1 rest,
         createArticle token url articleData articleType publishArticles serviceID s
         = (Normal r, s')
         /\ calls s' = calls s ++ x1 :: rest
         /\ operation (request x1) = Create (ToString articleType) articleData
         /\ (answeredOK x1 = true ->
             (success r = true
              /\ exists x2 published,
                  rest = x2 :: published
                  /\ isPublishExchange x2 = false
                  /\ publishOutcome publishArticles (versionId r) r published)
             \/ (success r = false
                 /\ (exists msg, error r = JStr ("Exception: " ++ msg))
                 /\ existsb isPublishExchange (x1 :: rest) = false))).
Proof.
  split.
  - destruct (update_path token url existingArticle articleData articleType publishArticles
                          serviceID s)
      as [r [s' [sent [Hrun [Hcalls [Hiff Hok]]]]]].
    exists r, s', sent. split; [exact Hrun|]. split; [exact Hcalls|].
    intros Wr. apply Hiff in Wr. split; [exact Wr|].
    destruct (Hok Wr) as [_ [writes [published [Hsent [Hp [Hon Hoff]]]]]].
    exists writes, published. split; [exact Hsent|]. split; [|exact Hp].
    destruct (foundOnline existingArticle).
    + destruct (Hon eq_refl) as [y1 [y2 [result [-> [Hop1 [_ [_ [_ Hop2]]]]]]]].
      cbn [existsb]. unfold isPublishExchange, isPublish. now rewrite Hop1, Hop2.
    + destruct (Hoff eq_refl) as [_ [x [-> Hop]]].
      cbn [existsb]. unfold isPublishExchange, isPublish. now rewrite Hop.
  - destruct (create_path token url articleData articleType publishArticles serviceID s)
      as [r [s' [x1 [rest [Hrun [Hcalls [Hop [_ [Hnp [Hex Hok]]]]]]]]]].
    exists r, s', x1, rest. split; [exact Hrun|]. split; [exact Hcalls|]. split; [exact Hop|].
    intros A. destruct (success r) eqn:S.
    + left. split; [reflexivity|].
      destruct (Hok eq_refl) as [result [x2 [published [_ [_ [_ [Hrest [Hop2 [_ Hp]]]]]]]]].
      exists x2, published. split; [exact Hrest|]. split; [|exact Hp].
      unfold isPublishExchange, isPublish. now rewrite Hop2.
    + right. split; [reflexivity|]. split; [exact (Hex A eq_refl) | exact (Hnp eq_refl)].
Qed.

End WithCollaborators.

(** *** Recorded runs *)

Definition onlineArticle : JSValue :=
  JObj [("Id", JStr "ka0"); ("KnowledgeArticleId", JStr "kA0"); ("PublishStatus", JStr "Online")].

Definition draftArticle : JSValue :=
  JObj [("Id", JStr "ka0"); ("KnowledgeArticleId", JStr "kA0"); ("PublishStatus", JStr "Draft")].

Definition articleData : JSValue := JObj [("Title", JStr "FAQ")].

Definition session (script : Remote.Script) : Session Remote.Script := mkSession script [].

(** An update of an article found [Online]: the draft is created as [ka1] and
    updated. *)
Definition onlineUpdate : Completion SyncResult * Session Remote.Script :=
  updateArticleWithVersioning (P := Runs.platform) (C := Remote.scripted)
    (JStr "token") (JStr "https://remote.example") onlineArticle articleData
    (JStr "Knowledge__kav") (JBool false) "svc"
    (session [Remote.answerOK 201 (JObj [("id", JStr "ka1")]); Remote.answerOK 204 JNull]).

(** A create whose re-query returns the new record. *)
Definition createWithMaster : Completion SyncResult * Session Remote.Script :=
  createArticle (P := Runs.platform) (C := Remote.scripted)
    (JStr "token") (JStr "https://remote.example") articleData
    (JStr "Knowledge__kav") (JBool false) "svc"
    (session [Remote.answerOK 201 (JObj [("id", JStr "ka0")]);
              Remote.answerOK 200
                (JObj [("records",
                        JArr [JObj [("Id", JStr "ka0"); ("KnowledgeArticleId", JStr "kA0")]])])]).


(** An update of a draft followed by a publish request that fails. *)
Definition updateThenFailedPublish : Completion SyncResult * Session Remote.Script :=
  updateArticleWithVersioning (P := Runs.platform) (C := Remote.scripted)
    (JStr "token") (JStr "https://remote.example") draftArticle articleData
    (JStr "Knowledge__kav") (JBool true) "svc"
    (session [Remote.answerOK 204 JNull; Remote.answerError "HTTP 500"]).

Lemma publish_outcome_after_write_witness :
  exists r s', updateThenFailedPublish = (Normal r, s')
               /\ success r = true
               /\ publishStatus r = JStr "draft"
               /\ exists w, warning r = JStr w.
Proof.
  destruct (@publish_outcome_after_write Runs.platform _ Remote.scripted
              (JStr "token") (JStr "https://remote.example") draftArticle articleData
              (JStr "Knowledge__kav") (JBool true) "svc"
              (session [Remote.answerOK 204 JNull; Remote.answerError "HTTP 500"]))
    as [[r [s' [sent [Hrun [Hcalls Hok]]]]] _].
  pose proof Hrun as E. vm_compute in E. injection E as <- <-.
  cbn [calls session app] in Hcalls. subst sent.
  destruct (Hok eq_refl) as [S [writes [published [Hsent [_ [_ Hp]]]]]].
  destruct (Hp eq_refl) as [x [Hpub [_ [_ Hfail]]]]. subst published.
  match type of Hsent with
  | [?u; ?p] = _ => destruct (app_inj_tail [u] writes p x Hsent) as [_ <-]
  end.
  eexists. eexists. split; [exact Hrun|]. split; [exact S|].
  apply Hfail. reflexivity.
Defined.

(** C3, at the failing input: a create with [publishArticles] false.  The
    create request is answered with a success and the id [ka0], so the
    article is written; the re-query for its master id is answered with a
    success and no body.  The code has warned "Query result has no data
    property" and has a logged fallback for a re-query without records, yet
    it reads [queryResult.object.data.records] without a guard: the TypeError
    is caught and the result is a failure, where the claim has a success with
    the status [draft]. *)
Theorem create_written_but_reported_failed :
  fst (createArticle (P := Runs.platform) (C := Remote.scripted)
         (JStr "token") (JStr "https://remote.example") articleData
         (JStr "Knowledge__kav") (JBool false) "svc"
         (session [Remote.answerOK 201 (JObj [("id", JStr "ka0")]);
                   Remote.answerOK 200 JNull]))
  = Normal (failure (JStr "Exception: Cannot read property records of null") (JStr "create")).
Proof. reflexivity. Qed.

End KnowledgeFacts.

(* ===================================================================== *)
(** ** Two upserts in a row *)
(* ===================================================================== *)

Module IdempotenceFacts.
Import Knowledge.

Section AnyRemote.
Context {P : Platform} {W : Type} {C : Collaborators W}.

Lemma getMember_Normal (v x : JSValue) (k : string) :
  getMember v k = Normal x -> x = getProp v k.
Proof. destruct v; cbn [getMember]; intros H; inversion H; reflexivity. Qed.

(** What a successful upsert has done: authenticated, looked the article up,
    mapped the record, and updated or created. *)
Lemma upsert_success (contentAsset config : JSValue) (s s' : Session W) (r : SyncResult) :
  upsertKnowledgeArticle contentAsset config s = (Normal r, s') ->
  success r = true ->
  exists sid token url existing s0 s1 data res,
    world s0 = snd (getAccessToken sid (world s))
    /\ findArticleByExternalId token url (getProp contentAsset "ID")
         (configOr config "articleType" (JStr "Knowledge__kav")) sid s0
       = (Normal existing, s1)
    /\ assoc EXTERNAL_ID_FIELD (ownProps data) = Some (getProp contentAsset "ID")
    /\ (if truthy existing
        then updateArticleWithVersioning token url existing data
               (configOr config "articleType" (JStr "Knowledge__kav"))
               (configOr config "publishArticles" (JBool false)) sid
        else createArticle token url data
               (configOr config "articleType" (JStr "Knowledge__kav"))
               (configOr config "publishArticles" (JBool false)) sid) s1
       = (Normal res, s')
    /\ success res = true
    /\ versionId r = versionId res.
Proof.
  unfold upsertKnowledgeArticle. intros H S.
  unfold bind at 1, lift in H.
  destruct (getMember contentAsset "ID") as [contentID|] eqn:G; [|discriminate H].
  pose proof G as G'. apply getMember_Normal in G. subst contentID.
  unfold tryCatch in H. cbv zeta in H.
  destruct (negb (truthy (configOr config "serviceID" JNull))).
  { inversion H; subst; discriminate S. }
  destruct (configOr config "serviceID" JNull) as [| | | | sid | | |];
    try (cbv beta iota in H; unfold ret in H; inversion H; subst; discriminate S).
  destruct (String.eqb (trim sid) "").
  { inversion H; subst; discriminate S. }
  destruct (parseJSON (configOr config "fieldMapping" (JStr "{}"))) as [fieldMapping|];
    [| inversion H; subst; discriminate S].
  unfold bind at 1, authenticate at 1 in H.
  destruct (getAccessToken sid (world s)) as [authResult w0] eqn:A.
  destruct (negb (authSuccess authResult)).
  { inversion H; subst; discriminate S. }
  unfold bind at 1 in H.
  set (s0 := mkSession w0 (calls s)) in H.
  destruct (findArticleByExternalId (authAccessToken authResult) (authInstanceUrl authResult)
              (getProp contentAsset "ID")
              (configOr config "articleType" (JStr "Knowledge__kav")) sid s0)
    as [[existing|msg] s1] eqn:F;
    [| unfold ret in H; inversion H; subst; discriminate S].
  unfold bind at 1, lift, ContentMapping.mapContentToArticle in H. rewrite G' in H.
  destruct (List.length _ <=? 1).
  { inversion H; subst; discriminate S. }
  unfold bind in H.
  match type of H with
  | context [ (if truthy existing then ?u else ?c) s1 ] =>
      destruct ((if truthy existing then u else c) s1) as [[res|msg] s2] eqn:R
  end;
    [| unfold ret in H; inversion H; subst; discriminate S].
  unfold ret in H. inversion H; subst r s2. clear H.
  exists sid, (authAccessToken authResult), (authInstanceUrl authResult), existing, s0, s1.
  eexists. exists res.
  split; [now rewrite A|]. split; [exact F|].
  split; [| split; [exact R | split; [exact S | reflexivity]]].
  cbn [ownProps]. apply assoc_setProp_same.
Qed.

(** An upsert of a record with an [ID] returns a result. *)
Lemma upsert_returns (contentAsset config contentID : JSValue) (s : Session W) :
  getMember contentAsset "ID" = Normal contentID ->
  exists r s', upsertKnowledgeArticle contentAsset config s = (Normal r, s').
Proof.
  intros G. unfold upsertKnowledgeArticle, bind at 1, lift. rewrite G. unfold tryCatch.
  match goal with
  | |- context [let (c, s') := ?block s in _] => destruct (block s) as [[a|msg] sb]
  end; unfold ret; eauto.
Qed.

Lemma getMember_string (v : JSValue) (k x : string) :
  getProp v k = JStr x -> getMember v k = Normal (JStr x).
Proof. destruct v; cbn [getMember]; intros H; try (now rewrite H); discriminate H. Qed.

End AnyRemote.

(** *** The newest match of a lookup *)

Import Remote.

Definition step (p : Version -> bool) (best : option Version) (v : Version) : option Version :=
  if p v then newer best v else best.

Lemma newest_fold (p : Version -> bool) (l : list Version) :
  newest p l = fold_left (step p) l None.
Proof. reflexivity. Qed.

Lemma fold_step_found (p : Version -> bool) (l : list Version) (acc : option Version)
      (v : Version) :
  fold_left (step p) l acc = Some v -> acc = Some v \/ (p v = true /\ In v l).
Proof.
  revert acc. induction l as [|x l IH]; intros acc H; cbn [fold_left] in H.
  - now left.
  - destruct (IH _ H) as [E | [Hp Hin]].
    + unfold step in E. destruct (p x) eqn:Px; [|now left].
      destruct acc as [b|]; cbn [newer] in E.
      * destruct (versionNumber b <? versionNumber x).
        -- injection E as ->. right. split; [exact Px | now left].
        -- now left.
      * injection E as ->. right. split; [exact Px | now left].
    + right. split; [exact Hp | now right].
Qed.

Lemma newest_found (p : Version -> bool) (l : list Version) (v : Version) :
  newest p l = Some v -> p v = true /\ In v l.
Proof.
  rewrite newest_fold. intros H. apply fold_step_found in H.
  destruct H as [E | E]; [discriminate E | exact E].
Qed.

Lemma newest_app (p : Version -> bool) (l : list Version) (v : Version) :
  newest p (l ++ [v]) = if p v then newer (newest p l) v else newest p l.
Proof. rewrite !newest_fold, fold_left_app. reflexivity. Qed.

Section Patched.
Unset Implicit Arguments.
Variables (p q : Version -> bool) (f : Version -> Version) (i : string).
Hypothesis patched_selected : forall v, q v = true -> p (f v) = true.
Hypothesis patched_key : forall v, q v = true -> versionKey v = i.
Hypothesis others_kept : forall v, q v = false -> f v = v.
Hypothesis number_kept : forall v, versionNumber (f v) = versionNumber v.
Hypothesis key_kept : forall v, versionKey (f v) = versionKey v.

(** How the best match over the versions relates to the best match over the
    patched versions. *)
Definition inv (acc acc' : option Version) : Prop :=
  (acc = None /\ acc' = None)
  \/ (exists b', acc' = Some b' /\ versionKey b' = i
                 /\ forall b, acc = Some b -> versionNumber b <= versionNumber b')
  \/ (exists b b', acc = Some b /\ acc' = Some b'
                   /\ versionNumber b' = versionNumber b /\ versionKey b' = versionKey b).

Lemma inv_step (acc acc' : option Version) (v : Version) :
  inv acc acc' -> inv (step p acc v) (step p acc' (f v)).
Proof.
  intros I. unfold step. destruct (q v) eqn:Q.
  - rewrite (patched_selected _ Q).
    assert (K : versionKey (f v) = i) by (rewrite key_kept; exact (patched_key _ Q)).
    pose proof (number_kept v) as N.
    destruct I as [[-> ->] | [[b' [-> [Kb Le]]] | [b [b' [-> [-> [Nb Kb]]]]]]].
    + cbn [newer]. right; left. exists (f v). split; [reflexivity|]. split; [exact K|].
      intros b Hb. destruct (p v); [|discriminate Hb]. injection Hb as <-. lia.
    + right; left. cbn [newer].
      destruct (Nat.ltb_spec (versionNumber b') (versionNumber (f v))).
      * exists (f v). split; [reflexivity|]. split; [exact K|].
        intros b Hb. destruct (p v).
        -- destruct acc as [a|]; cbn [newer] in Hb.
           ++ destruct (versionNumber a <? versionNumber v); injection Hb as <-;
                [lia | specialize (Le a eq_refl); lia].
           ++ injection Hb as <-. lia.
        -- specialize (Le b Hb). lia.
      * exists b'. split; [reflexivity|]. split; [exact Kb|].
        intros b Hb. destruct (p v).
        -- destruct acc as [a|]; cbn [newer] in Hb.
           ++ destruct (versionNumber a <? versionNumber v); injection Hb as <-;
                [lia | exact (Le a eq_refl)].
           ++ injection Hb as <-. lia.
        -- exact (Le b Hb).
    + cbn [newer]. rewrite N, Nb.
      destruct (Nat.ltb_spec (versionNumber b) (versionNumber v)).
      * destruct (p v).
        -- right; right. exists v, (f v). repeat split; [exact N | apply key_kept].
        -- right; left. exists (f v). split; [reflexivity|]. split; [exact K|].
           intros a Ha. injection Ha as <-. lia.
      * destruct (p v).
        -- right; right. exists b, b'. repeat split; assumption.
        -- right; right. exists b, b'. repeat split; assumption.
  - rewrite (others_kept _ Q). destruct (p v); [|exact I].
    destruct I as [[-> ->] | [[b' [-> [Kb Le]]] | [b [b' [-> [-> [Nb Kb]]]]]]].
    + cbn [newer]. right; right. exists v, v. repeat split.
    + cbn [newer]. destruct (Nat.ltb_spec (versionNumber b') (versionNumber v)).
      * destruct acc as [a|]; cbn [newer].
        -- specialize (Le a eq_refl).
           destruct (Nat.ltb_spec (versionNumber a) (versionNumber v)); [|lia].
           right; right. exists v, v. repeat split.
        -- right; right. exists v, v. repeat split.
      * right; left. exists b'. split; [reflexivity|]. split; [exact Kb|].
        intros b Hb. destruct acc as [a|]; cbn [newer] in Hb.
        -- destruct (versionNumber a <? versionNumber v); injection Hb as <-;
             [lia | exact (Le a eq_refl)].
        -- injection Hb as <-. lia.
    + cbn [newer]. rewrite Nb.
      destruct (versionNumber b <? versionNumber v).
      * right; right. exists v, v. repeat split.
      * right; right. exists b, b'. repeat split; assumption.
Qed.

Lemma inv_fold (l : list Version) (acc acc' : option Version) :
  inv acc acc' -> inv (fold_left (step p) l acc) (fold_left (step p) (map f l) acc').
Proof.
  revert acc acc'. induction l as [|v l IH]; intros acc acc' I; cbn [fold_left map].
  - exact I.
  - apply IH, inv_step, I.
Qed.

Lemma fold_step_Some (l : list Version) (b : Version) :
  exists b', fold_left (step p) l (Some b) = Some b'.
Proof.
  revert b. induction l as [|v l IH]; intros b; cbn [fold_left].
  - eauto.
  - unfold step at 2. destruct (p v); [|apply IH].
    cbn [newer]. destruct (versionNumber b <? versionNumber v); apply IH.
Qed.

Lemma fold_patched_Some (l : list Version) (acc' : option Version) :
  existsb q l = true -> exists b', fold_left (step p) (map f l) acc' = Some b'.
Proof.
  revert acc'. induction l as [|v l IH]; intros acc' E; cbn [existsb] in E.
  - discriminate E.
  - cbn [map fold_left]. destruct (q v) eqn:Q.
    + unfold step at 2. rewrite (patched_selected _ Q).
      destruct acc' as [b|]; cbn [newer];
        [destruct (versionNumber b <? versionNumber (f v))|]; apply fold_step_Some.
    + apply IH. exact E.
Qed.

(** After a patch of the versions with the key [i], of which there is one,
    the newest match has the key [i] if the newest match before, if any, had. *)
Lemma newest_patch (l : list Version) :
  existsb q l = true ->
  (forall d, newest p l = Some d -> versionKey d = i) ->
  exists d', newest p (map f l) = Some d' /\ versionKey d' = i.
Proof.
  intros E Hd. rewrite newest_fold in Hd. rewrite newest_fold.
  destruct (fold_patched_Some l None E) as [d' Hd'].
  exists d'. split; [exact Hd'|].
  pose proof (inv_fold l None None (or_introl (conj eq_refl eq_refl))) as I.
  rewrite Hd' in I.
  destruct I as [[_ N] | [[b' [Eb [Kb _]]] | [b [b' [Ea [Eb [_ Kb]]]]]]].
  - discriminate N.
  - injection Eb as <-. exact Kb.
  - injection Eb as <-. rewrite Kb. apply Hd. exact Ea.
Qed.

End Patched.
Set Implicit Arguments.

(** *** The engine against the simulated knowledge base *)

Section Simulated.
Context {P : Platform}.
Local Existing Instance Remote.simulated.

Definition logged (s : Session Org) (req : Request) : Session Org :=
  mkSession (snd (respond req (world s)))
            (calls s ++ [mkExchange req (fst (respond req (world s)))]).

Lemma call_simulated (serviceID : string) (req : Request) (s : Session Org) :
  call serviceID req s = (fst (respond req (world s)), logged s req).
Proof. rewrite KnowledgeFacts.call_run. reflexivity. Qed.

Lemma firstRecordOr_simulated (serviceID : string) (token url : JSValue)
      (articleType escapedId : string) (statusFilter : option string)
      (next : Exec JSValue) (s : Session Org) :
  firstRecordOr serviceID token url (SelectVersions articleType escapedId statusFilter) next s
  = match newest (selects (SelectVersions articleType escapedId statusFilter))
                 (versions (world s)) with
    | Some v =>
        (Normal (row v),
         logged s (queryRequest token url (SelectVersions articleType escapedId statusFilter)))
    | None =>
        next (logged s (queryRequest token url
                          (SelectVersions articleType escapedId statusFilter)))
    end.
Proof.
  unfold firstRecordOr, bind. rewrite call_simulated.
  unfold respond at 1, queryRequest at 1. cbn [operation].
  destruct (wellFormed (SelectVersions articleType escapedId statusFilter)) eqn:WF.
  - cbn [fst answerOK answerQuery]. destruct (newest _ _) as [v|]; reflexivity.
  - destruct (newest _ _) as [v|] eqn:N; [|reflexivity].
    apply newest_found in N. destruct N as [N _]. exfalso.
    unfold wellFormed in WF. unfold selects, hasExternalId in N.
    destruct (literalValue escapedId); [discriminate WF|].
    rewrite andb_false_r in N. discriminate N.
Qed.

Lemma world_logged_query (s : Session Org) (token url : JSValue) (q : Soql) :
  world (logged s (queryRequest token url q)) = world s.
Proof.
  unfold logged, respond, queryRequest. cbn [world operation].
  now destruct (wellFormed q).
Qed.

(** An id without a backslash is the text that its quote-escaped form
    denotes. *)
Fixpoint hasBackslash (id : string) : bool :=
  match id with
  | EmptyString => false
  | String c rest => Ascii.eqb c "\"%char || hasBackslash rest
  end.

Lemma literalValue_escapeQuotes (id : string) :
  hasBackslash id = false -> literalValue (escapeQuotes id) = Some id.
Proof.
  induction id as [|c rest IH]; [reflexivity|].
  cbn [hasBackslash escapeQuotes]. intros H. apply orb_false_iff in H.
  destruct H as [Hc Hr]. specialize (IH Hr).
  destruct (Ascii.eqb c "'"%char) eqn:Q.
  - apply Ascii.eqb_eq in Q. subst c. cbn [literalValue]. rewrite IH. reflexivity.
  - cbn [literalValue]. rewrite Q, Hc, IH. reflexivity.
Qed.

Definition draftQuery (articleType : JSValue) (id : string) : Soql :=
  SelectVersions (ToString articleType) (escapeQuotes id) (Some "Draft").

(** The version that the lookup finds: the newest draft, else the newest
    online version, else the newest version of any status. *)
Definition found (articleType : JSValue) (id : string) (org : Org) : option Version :=
  match newest (selects (draftQuery articleType id)) (versions org) with
  | Some v => Some v
  | None =>
      match newest (selects (SelectVersions (ToString articleType) (escapeQuotes id)
                                            (Some "Online"))) (versions org) with
      | Some v => Some v
      | None => newest (selects (SelectVersions (ToString articleType) (escapeQuotes id) None))
                       (versions org)
      end
  end.

Lemma find_simulated (token url articleType : JSValue) (id serviceID : string)
      (s : Session Org) :
  exists s',
    findArticleByExternalId token url (JStr id) articleType serviceID s
    = (Normal (match found articleType id (world s) with
               | Some v => row v
               | None => JNull
               end), s')
    /\ world s' = world s.
Proof.
  unfold findArticleByExternalId, tryCatch, found, draftQuery. cbv zeta.
  rewrite firstRecordOr_simulated.
  destruct (newest _ (versions (world s))) as [v|].
  - eexists. split; [reflexivity|]. apply world_logged_query.
  - rewrite firstRecordOr_simulated. rewrite world_logged_query.
    destruct (newest _ (versions (world s))) as [v|].
    + eexists. split; [reflexivity|]. rewrite world_logged_query. apply world_logged_query.
    + rewrite firstRecordOr_simulated. rewrite !world_logged_query.
      destruct (newest _ (versions (world s))) as [v|].
      * eexists. split; [reflexivity|]. now rewrite !world_logged_query.
      * unfold ret. eexists. split; [reflexivity|]. now rewrite !world_logged_query.
Qed.

Ltac reduce_answer H :=
  lazy beta iota delta [fst snd answerOK answerError isOK negb andb status object
                        responseSuccess String.eqb Ascii.eqb Bool.eqb] in H.

Lemma patchThenPublish_simulated (token url masterId articleData articleType publishArticles
                                    : JSValue) (i serviceID : string)
      (s s' : Session Org) (r : SyncResult) :
  truthy publishArticles = false ->
  KnowledgeFacts.patchThenPublish token url masterId (JStr i) articleData articleType
                                  publishArticles serviceID s = (Normal r, s') ->
  success r = true ->
  versionId r = JStr i
  /\ existsb (patchable (ToString articleType) i) (versions (world s)) = true
  /\ versions (world s')
     = map (patch (ToString articleType) i articleData) (versions (world s)).
Proof.
  intros Hpa H S. unfold KnowledgeFacts.patchThenPublish, bind in H.
  rewrite call_simulated in H. unfold logged, respond in H.
  cbn [operation ToString] in H.
  destruct (existsb (patchable (ToString articleType) i) (versions (world s))) eqn:E.
  - reduce_answer H.
    unfold publishStep in H. rewrite Hpa in H. unfold ret in H.
    inversion H; subst r s'. cbn [world versions]. auto.
  - reduce_answer H. unfold ret in H. inversion H; subst r s'. discriminate S.
Qed.

Lemma editOnline_simulated (token url : JSValue) (master serviceID : string)
      (s s' : Session Org) (editResult : EditResult) :
  editOnlineArticle token url (JStr master) serviceID s = (Normal editResult, s') ->
  editSuccess editResult = true ->
  exists v, draftId editResult = JStr (versionKey v)
            /\ versions (world s') = versions (world s) ++ [v].
Proof.
  intros H S. unfold editOnlineArticle, tryCatch, bind in H.
  rewrite call_simulated in H. unfold logged, respond in H. cbn [operation] in H.
  destruct (find _ (versions (world s))) as [published|].
  - destruct (existsb _ (versions (world s))).
    + reduce_answer H. unfold ret in H. inversion H; subst editResult s'. discriminate S.
    + reduce_answer H. unfold lift, getMember, ret in H. cbn [dataOf object data] in H.
      inversion H; subst editResult s'. cbn [draftId world versions].
      exists (mkVersion (newKey "ka" (world s)) master (objectType published) "Draft"
                        (externalId published) (Datatypes.S (versionNumber published))).
      split; reflexivity.
  - reduce_answer H. unfold ret in H. inversion H; subst editResult s'. discriminate S.
Qed.

Lemma update_simulated (token url articleData articleType publishArticles : JSValue)
      (serviceID : string) (e : Version) (s s' : Session Org) (r : SyncResult) :
  truthy publishArticles = false ->
  updateArticleWithVersioning token url (row e) articleData articleType publishArticles
                              serviceID s = (Normal r, s') ->
  success r = true ->
  exists i l1,
    versionId r = JStr i
    /\ existsb (patchable (ToString articleType) i) l1 = true
    /\ versions (world s') = map (patch (ToString articleType) i articleData) l1
    /\ ((isOnline e = false /\ l1 = versions (world s) /\ i = versionKey e)
        \/ (isOnline e = true /\ exists v, l1 = versions (world s) ++ [v] /\ versionKey v = i)).
Proof.
  intros Hpa H S. rewrite KnowledgeFacts.updateArticleWithVersioning_unfold in H.
  unfold tryCatch in H.
  change (KnowledgeFacts.foundOnline (row e)) with (isOnline e) in H.
  change (getProp (row e) "KnowledgeArticleId") with (JStr (masterKey e)) in H.
  change (getProp (row e) "Id") with (JStr (versionKey e)) in H.
  destruct (isOnline e) eqn:On.
  - unfold bind at 1 in H.
    destruct (editOnlineArticle token url (JStr (masterKey e)) serviceID s)
      as [[editResult|msg] s1] eqn:Ed;
      [| unfold ret in H; inversion H; subst; discriminate S].
    destruct (editSuccess editResult) eqn:Es; cbn [negb] in H;
      [| unfold ret in H; inversion H; subst; discriminate S].
    destruct (@editOnline_simulated _ _ _ _ _ _ _ Ed Es) as [v [Hd Hv]].
    rewrite Hd in H.
    destruct (KnowledgeFacts.patchThenPublish token url (JStr (masterKey e))
                (JStr (versionKey v)) articleData articleType publishArticles serviceID s1)
      as [[r'|msg] s2] eqn:PT;
      [| unfold ret in H; inversion H; subst; discriminate S].
    inversion H; subst r' s2.
    destruct (@patchThenPublish_simulated _ _ _ _ _ _ _ _ _ _ _ Hpa PT S) as [Hid [Hex Hmap]].
    exists (versionKey v), (versions (world s) ++ [v]).
    rewrite <- Hv. split; [exact Hid|]. split; [exact Hex|]. split; [exact Hmap|].
    right. split; [reflexivity|]. exists v. rewrite Hv. split; reflexivity.
  - destruct (KnowledgeFacts.patchThenPublish token url (JStr (masterKey e))
                (JStr (versionKey e)) articleData articleType publishArticles serviceID s)
      as [[r'|msg] s2] eqn:PT;
      [| unfold ret in H; inversion H; subst; discriminate S].
    inversion H; subst r' s2.
    destruct (@patchThenPublish_simulated _ _ _ _ _ _ _ _ _ _ _ Hpa PT S) as [Hid [Hex Hmap]].
    exists (versionKey e), (versions (world s)).
    split; [exact Hid|]. split; [exact Hex|]. split; [exact Hmap|].
    left. auto.
Qed.

Definition created (articleType articleData : JSValue) (org : Org) : Version :=
  mkVersion (newKey "ka" org) (newKey "kA" org) (ToString articleType) "Draft"
            (getProp articleData EXTERNAL_ID_FIELD) 1.

Lemma create_simulated (token url articleData articleType publishArticles : JSValue)
      (serviceID : string) (s s' : Session Org) (r : SyncResult) :
  truthy publishArticles = false ->
  createArticle token url articleData articleType publishArticles serviceID s = (Normal r, s') ->
  success r = true ->
  versionId r = JStr (versionKey (created articleType articleData (world s)))
  /\ versions (world s')
     = versions (world s) ++ [created articleType articleData (world s)].
Proof.
  intros Hpa H S. rewrite KnowledgeFacts.createArticle_unfold in H.
  unfold tryCatch, bind at 1 in H.
  rewrite call_simulated in H. unfold logged at 1, respond at 1 in H.
  cbn [operation] in H. reduce_answer H.
  unfold bind at 1, lift, getMember in H. cbn [dataOf object data] in H.
  change (getProp (JObj [("id", JStr (versionKey ?v)); ("success", JBool true)]) "id")
    with (JStr (versionKey v)) in H.
  fold (created articleType articleData (world s)) in H.
  match type of H with
  | context [KnowledgeFacts.masterLookup _ _ _ _ _ ?k ?s1] =>
      destruct (KnowledgeFacts.masterLookup_run token url articleType
                  (JStr (versionKey (created articleType articleData (world s))))
                  serviceID k s1)
        as [x2 [s2 [_ [_ [Hw [[msg Hrun] | Hrun]]]]]]; rewrite Hrun in H
  end.
  - unfold ret in H. inversion H; subst r s'. discriminate S.
  - unfold publishStep in H. rewrite Hpa in H. unfold ret in H.
    inversion H; subst r s'. split; [reflexivity|].
    rewrite Hw. reflexivity.
Qed.

(** *** The draft that an upsert leaves, and the draft that it finds *)

Lemma patch_selected (articleType articleData : JSValue) (id i : string) (v : Version) :
  hasBackslash id = false ->
  assoc EXTERNAL_ID_FIELD (ownProps articleData) = Some (JStr id) ->
  patchable (ToString articleType) i v = true ->
  selects (draftQuery articleType id) (patch (ToString articleType) i articleData v) = true.
Proof.
  intros Hb Hx Q. unfold patch. rewrite Q, Hx.
  unfold patchable in Q. apply andb_prop in Q. destruct Q as [Q D].
  apply andb_prop in Q. destruct Q as [_ T].
  unfold draftQuery, selects, hasExternalId. cbn [objectType externalId versionStatus].
  rewrite (literalValue_escapeQuotes _ Hb), T, String.eqb_refl. exact D.
Qed.

Lemma patchable_key (articleType i : string) (v : Version) :
  patchable articleType i v = true -> versionKey v = i.
Proof.
  unfold patchable. intros Q. apply andb_prop in Q. destruct Q as [Q _].
  apply andb_prop in Q. destruct Q as [K _]. now apply String.eqb_eq.
Qed.

Lemma patch_other (articleType i : string) (articleData : JSValue) (v : Version) :
  patchable articleType i v = false -> patch articleType i articleData v = v.
Proof. unfold patch. now intros ->. Qed.

Lemma patch_number (articleType i : string) (articleData : JSValue) (v : Version) :
  versionNumber (patch articleType i articleData v) = versionNumber v.
Proof. unfold patch. now destruct (patchable articleType i v). Qed.

Lemma patch_key (articleType i : string) (articleData : JSValue) (v : Version) :
  versionKey (patch articleType i articleData v) = versionKey v.
Proof. unfold patch. now destruct (patchable articleType i v). Qed.

Lemma draft_not_online (articleType : JSValue) (id : string) (v : Version) :
  selects (draftQuery articleType id) v = true -> isOnline v = false.
Proof.
  unfold draftQuery, selects. intros H. apply andb_prop in H. destruct H as [_ D].
  apply String.eqb_eq in D. unfold isOnline. now rewrite D.
Qed.

Lemma found_cases (articleType : JSValue) (id : string) (org : Org) (e : Version) :
  found articleType id org = Some e ->
  newest (selects (draftQuery articleType id)) (versions org) = Some e
  \/ newest (selects (draftQuery articleType id)) (versions org) = None.
Proof.
  unfold found. destruct (newest (selects (draftQuery articleType id)) (versions org)).
  - intros H. now left.
  - intros _. now right.
Qed.

Lemma found_none (articleType : JSValue) (id : string) (org : Org) :
  found articleType id org = None ->
  newest (selects (draftQuery articleType id)) (versions org) = None.
Proof.
  unfold found. now destruct (newest (selects (draftQuery articleType id)) (versions org)).
Qed.

Definition articleTypeOf (config : JSValue) : JSValue :=
  configOr config "articleType" (JStr "Knowledge__kav").

Definition publishArticlesOf (config : JSValue) : JSValue :=
  configOr config "publishArticles" (JBool false).

(** What a successful upsert on the simulated knowledge base has done, with
    the lookup resolved. *)
Lemma upsert_simulated (contentAsset config : JSValue) (id : string)
      (s s' : Session Org) (r : SyncResult) :
  getProp contentAsset "ID" = JStr id ->
  upsertKnowledgeArticle contentAsset config s = (Normal r, s') ->
  success r = true ->
  exists sid token url s1 data res,
    world s1 = world s
    /\ assoc EXTERNAL_ID_FIELD (ownProps data) = Some (JStr id)
    /\ success res = true
    /\ versionId r = versionId res
    /\ match found (articleTypeOf config) id (world s) with
       | Some e =>
           updateArticleWithVersioning token url (row e) data (articleTypeOf config)
                                       (publishArticlesOf config) sid s1 = (Normal res, s')
       | None =>
           createArticle token url data (articleTypeOf config) (publishArticlesOf config) sid s1
           = (Normal res, s')
       end.
Proof.
  intros HID H S.
  destruct (upsert_success _ _ _ H S)
    as [sid [token [url [existing [s0 [s1 [data [res [Hw0 [F [Hx [R [Sres Hv]]]]]]]]]]]]].
  rewrite HID in F, Hx.
  destruct (find_simulated token url (articleTypeOf config) id sid s0) as [s1' [F' Hw1]].
  unfold articleTypeOf in F'. rewrite F' in F. injection F as <- <-.
  exists sid, token, url, s1', data, res.
  split; [rewrite Hw1; exact Hw0|]. split; [exact Hx|]. split; [exact Sres|].
  split; [exact Hv|].
  assert (Ws : world s0 = world s) by exact Hw0.
  unfold articleTypeOf, publishArticlesOf. rewrite <- Ws.
  destruct (found _ id (world s0)) as [e|]; exact R.
Qed.

(** A successful upsert leaves a draft as the newest draft of the record, and
    returns its key. *)
Lemma upsert_leaves_draft (contentAsset config : JSValue) (id : string)
      (s s' : Session Org) (r : SyncResult) :
  getProp contentAsset "ID" = JStr id ->
  hasBackslash id = false ->
  truthy (publishArticlesOf config) = false ->
  upsertKnowledgeArticle contentAsset config s = (Normal r, s') ->
  success r = true ->
  exists d,
    newest (selects (draftQuery (articleTypeOf config) id)) (versions (world s')) = Some d
    /\ versionId r = JStr (versionKey d).
Proof.
  intros HID Hb Hpa H S.
  destruct (@upsert_simulated _ _ _ _ _ _ HID H S)
    as [sid [token [url [s1 [data [res [Hw [Hx [Sres [Hv R]]]]]]]]]].
  rewrite Hv. clear Hv H S r.
  destruct (found (articleTypeOf config) id (world s)) as [e|] eqn:Fd.
  - destruct (@update_simulated _ _ _ _ _ _ _ _ _ _ Hpa R Sres)
      as [i [l1 [Hid [Hex [Hmap Hcase]]]]].
    rewrite Hw in Hcase.
    destruct (newest_patch (selects (draftQuery (articleTypeOf config) id))
                (patchable (ToString (articleTypeOf config)) i)
                (patch (ToString (articleTypeOf config)) i data) i
                (fun v => @patch_selected (articleTypeOf config) data id i v Hb Hx)
                (@patchable_key (ToString (articleTypeOf config)) i)
                (fun v => @patch_other (ToString (articleTypeOf config)) i data v)
                (patch_number (ToString (articleTypeOf config)) i data)
                (patch_key (ToString (articleTypeOf config)) i data)
                l1 Hex) as [d' [Hd' Hk]].
    + intros d Hd. destruct Hcase as [[Off [-> ->]] | [On [v [-> Hkv]]]].
      * destruct (@found_cases _ _ _ _ Fd) as [E | E]; rewrite E in Hd.
        -- now injection Hd as <-.
        -- discriminate Hd.
      * rewrite newest_app in Hd.
        destruct (@found_cases _ _ _ _ Fd) as [E | E].
        -- apply newest_found in E. destruct E as [E _].
           apply draft_not_online in E. rewrite E in On. discriminate On.
        -- rewrite E in Hd. destruct (selects _ v); [|discriminate Hd].
           cbn [newer] in Hd. now injection Hd as <-.
    + exists d'. rewrite Hmap, Hid, Hk. split; [exact Hd' | reflexivity].
  - destruct (@create_simulated _ _ _ _ _ _ _ _ _ Hpa R Sres) as [Hid Hvs].
    rewrite Hw in Hid, Hvs.
    exists (created (articleTypeOf config) data (world s)).
    split; [|exact Hid].
    rewrite Hvs, newest_app, (@found_none _ _ _ Fd).
    assert (Sel : selects (draftQuery (articleTypeOf config) id)
                          (created (articleTypeOf config) data (world s)) = true).
    { unfold draftQuery, selects, hasExternalId, created, getProp.
      cbn [objectType externalId versionStatus].
      rewrite Hx, (literalValue_escapeQuotes _ Hb).
      now rewrite !String.eqb_refl. }
    rewrite Sel. reflexivity.
Qed.

(** An upsert that finds a draft of the record updates the newest one in
    place: no version is added. *)
Lemma upsert_updates_draft (contentAsset config : JSValue) (id : string) (d : Version)
      (s s' : Session Org) (r : SyncResult) :
  getProp contentAsset "ID" = JStr id ->
  truthy (publishArticlesOf config) = false ->
  newest (selects (draftQuery (articleTypeOf config) id)) (versions (world s)) = Some d ->
  upsertKnowledgeArticle contentAsset config s = (Normal r, s') ->
  success r = true ->
  versionId r = JStr (versionKey d)
  /\ List.length (versions (world s')) = List.length (versions (world s)).
Proof.
  intros HID Hpa Hd H S.
  destruct (@upsert_simulated _ _ _ _ _ _ HID H S)
    as [sid [token [url [s1 [data [res [Hw [Hx [Sres [Hv R]]]]]]]]]].
  rewrite Hv. clear Hv H S r.
  assert (Fd : found (articleTypeOf config) id (world s) = Some d)
    by (unfold found; now rewrite Hd).
  rewrite Fd in R.
  destruct (@update_simulated _ _ _ _ _ _ _ _ _ _ Hpa R Sres)
    as [i [l1 [Hid [_ [Hmap Hcase]]]]].
  apply newest_found in Hd. destruct Hd as [Hd _]. apply draft_not_online in Hd.
  destruct Hcase as [[_ [-> ->]] | [On _]]; [| rewrite Hd in On; discriminate On].
  split; [exact Hid|]. rewrite Hmap, Hw. apply length_map.
Qed.

(** Two upserts in a row on the simulated knowledge base, for a record whose
    [ID] is a string without a backslash and with [publishArticles] falsy.
    The lookup returns the newest draft whose external id is the record's id,
    else the newest online version, else the newest version of any status,
    else null, and leaves the knowledge base as it is.  Both upserts return a
    result, and when both results are successes they carry the same version
    id and the second upsert adds no version. *)
Lemma second_upsert_returns_same_version (contentAsset config : JSValue) (id : string)
      (s : Session Org) :
  getProp contentAsset "ID" = JStr id ->
  hasBackslash id = false ->
  truthy (publishArticlesOf config) = false ->
  (forall (token url : JSValue) (serviceID : string) (s0 : Session Org),
      exists s0',
        findArticleByExternalId token url (getProp contentAsset "ID") (articleTypeOf config)
                                serviceID s0
        = (Normal (match found (articleTypeOf config) id (world s0) with
                   | Some v => row v
                   | None => JNull
                   end), s0')
        /\ world s0' = world s0)
  /\ exists r1 s1 r2 s2,
      upsertKnowledgeArticle contentAsset config s = (Normal r1, s1)
      /\ upsertKnowledgeArticle contentAsset config s1 = (Normal r2, s2)
      /\ (success r1 = true -> success r2 = true ->
          versionId r2 = versionId r1
          /\ List.length (versions (world s2)) = List.length (versions (world s1))).
Proof.
  intros HID Hb Hpa. split.
  - intros token url serviceID s0. rewrite HID. apply find_simulated.
  - pose proof (getMember_string _ _ HID) as G.
    destruct (upsert_returns contentAsset config s G) as [r1 [s1 H1]].
    destruct (upsert_returns contentAsset config s1 G) as [r2 [s2 H2]].
    exists r1, s1, r2, s2. split; [exact H1|]. split; [exact H2|].
    intros S1 S2.
    destruct (@upsert_leaves_draft _ _ _ _ _ _ HID Hb Hpa H1 S1) as [d [Hd Hv1]].
    destruct (@upsert_updates_draft _ _ _ _ _ _ _ HID Hpa Hd H2 S2) as [Hv2 Hlen].
    rewrite Hv1, Hv2. split; [reflexivity | exact Hlen].
Qed.

End Simulated.

(** *** Recorded runs on the simulated knowledge base *)

Definition upsertConfig : JSValue :=
  JObj [("serviceID", JStr "svc"); ("fieldMapping", JStr Runs.titleMappingText)].

Definition emptyOrg : Session Org := mkSession (mkOrg [] 0) [].

Definition upsert (contentAsset : JSValue) (s : Session Org)
  : Completion SyncResult * Session Org :=
  upsertKnowledgeArticle (P := Runs.platform) (C := Remote.simulated) contentAsset upsertConfig s.

Definition titled : JSValue :=
  JObj [("ID", JStr "faq-1"); ("name", JStr "How to Reset Password?")].

Definition untitled : JSValue := JObj [("ID", JStr "faq-1"); ("name", JNull)].

Lemma second_upsert_returns_same_version_witness :
  exists r1 s1 r2 s2,
    upsert titled emptyOrg = (Normal r1, s1)
    /\ upsert titled s1 = (Normal r2, s2)
    /\ success r1 = true /\ success r2 = true
    /\ versionId r2 = versionId r1
    /\ List.length (versions (world s2)) = List.length (versions (world s1)).
Proof.
  destruct (@second_upsert_returns_same_version Runs.platform titled upsertConfig "faq-1" emptyOrg
              eq_refl eq_refl eq_refl) as [_ [r1 [s1 [r2 [s2 [H1 [H2 Hsame]]]]]]].
  pose proof H1 as E1. vm_compute in E1. injection E1 as <- <-.
  pose proof H2 as E2. vm_compute in E2. injection E2 as <- <-.
  destruct (Hsame eq_refl eq_refl) as [Hv Hlen].
  eexists. eexists. eexists. eexists.
  split; [exact H1|]. split; [exact H2|].
  split; [reflexivity|]. split; [reflexivity|]. split; [exact Hv | exact Hlen].
Defined.

(** C2, at the failing input: a record whose one mapped field is null, on an
    empty knowledge base, with [publishArticles] false.  The first upsert
    creates the version [ka0]: its payload has [attributes] and the
    [Language] that the mapper adds to a create payload, two keys, and so
    passes the guard [Object.keys(articleData).length <= 1] against a record
    that maps nothing.  The second upsert, with nothing changed in between,
    finds that draft and is rejected by the same guard, its update payload
    having [attributes] alone: it returns a failure and no version id, where
    the claim has the version id of the first. *)
Theorem second_upsert_rejected_by_mapping_guard :
  fst (upsert untitled emptyOrg)
  = Normal (withContentId (succeeded (JStr "kA0") (JStr "ka0") (JStr "create") (JStr "draft")
                                     JUndefined) (JStr "faq-1"))
  /\ fst (upsert untitled (snd (upsert untitled emptyOrg)))
     = Normal (failure (JStr "Failed to map content to article") JUndefined).
Proof. split; reflexivity. Qed.

End IdempotenceFacts.

(* ===================================================================== *)
(** ** The version id and the master id of a write *)
(* ===================================================================== *)

Module VersioningFacts.
Import Knowledge Remote.

(** *** The keys of the simulated knowledge base *)





(** The knowledge base has issued the key of the version. *)
Definition issuedKey (org : Org) (v : Version) : Prop :=
  exists i, i < issued org /\ versionKey v = newKey "ka" (mkOrg [] i).

(** Every version of the knowledge base has a key that it has issued. *)
Definition consistent (org : Org) : Prop :=
  forall v, In v (versions org) -> issuedKey org v.


Lemma consistent_empty : consistent (mkOrg [] 0).
Proof. intros v []. Qed.

Lemma consistent_map (f : Version -> Version) (l : list Version) (n : nat) :
  (forall v, versionKey (f v) = versionKey v) ->
  consistent (mkOrg l n) -> consistent (mkOrg (map f l) n).
Proof.
  intros Hf Hc v Hin. cbn [versions] in Hin. apply in_map_iff in Hin.
  destruct Hin as [u [<- Hu]]. destruct (Hc u Hu) as [i [Hi Hk]].
  exists i. split; [exact Hi|]. now rewrite Hf.
Qed.

Lemma consistent_add (org : Org) (v : Version) :
  versionKey v = newKey "ka" org ->
  consistent org -> consistent (mkOrg (versions org ++ [v]) (S (issued org))).
Proof.
  intros Hk Hc u Hin. cbn [versions] in Hin. apply in_app_or in Hin.
  destruct Hin as [Hin | [<- | []]].
  - destruct (Hc u Hin) as [i [Hi Hu]]. exists i. cbn [issued]. split; [lia | exact Hu].
  - exists (issued org). cbn [issued]. split; [lia | exact Hk].
Qed.

(** Whatever the request, the knowledge base stays consistent. *)
Lemma consistent_respond (req : Request) (org : Org) :
  consistent org -> consistent (snd (respond req org)).
Proof.
  intros Hc. unfold respond.
  assert (Same : consistent (mkOrg (versions org) (issued org))) by (now destruct org).
  destruct (operation req) as [q | articleType articleData | articleType draftId articleData
                               | master | version].
  - now destruct (wellFormed q).
  - cbn [snd]. now apply consistent_add.
  - destruct (existsb _ (versions org)); cbn [snd]; [|exact Hc].
    apply consistent_map; [|exact Same]. intros v. unfold patch.
    now destruct (patchable articleType draftId v).
  - destruct master; try exact Hc.
    destruct (find _ (versions org)) as [published|]; [|exact Hc].
    destruct (existsb _ (versions org)); cbn [snd]; [exact Hc|].
    now apply consistent_add.
  - destruct version; try exact Hc.
    destruct (find _ (versions org)) as [draft|]; cbn [snd]; [|exact Hc].
    apply consistent_map; [|exact Same]. intros v. unfold publishIn.
    destruct (_ && isDraft v); [reflexivity|].
    now destruct (_ && isOnline v).
Qed.

Section Simulated.
Context {P : Platform}.
Local Existing Instance Remote.simulated.




End Simulated.

(** *** Recorded runs *)

(** A knowledge base with one published version. *)
Definition published : Version :=
  mkVersion "ka0" "kA0" "Knowledge__kav" "Online" (JStr "faq-1") 1.



End VersioningFacts.

(* ===================================================================== *)
(** ** More on the field transforms *)
(* ===================================================================== *)

Module TransformFacts.
Import FieldTransform.

Definition notSpace (c : ascii) : bool := negb (isSpace c).

(** Text of the ASCII range: there the whitespace class [\s] and the case
    conversions of the interpreter are [isSpace], [lowerChar] and
    [upperChar]. *)
Definition isAscii (c : ascii) : bool := nat_of_ascii c <? 128.

Definition asciiText (s : string) : Prop :=
  forallb isAscii (list_ascii_of_string s) = true.

Lemma chars_of_string (l : list ascii) :
  list_ascii_of_string (string_of_list_ascii l) = l.
Proof. apply list_ascii_of_string_of_list_ascii. Qed.

Lemma collapse_to_nothing (s : list ascii) :
  forall b, FieldTransformFacts.collapseRuns isSpace [] b s = filter notSpace s.
Proof.
  induction s as [|x s IH]; intros b; [reflexivity|].
  cbn [FieldTransformFacts.collapseRuns filter]. unfold notSpace at 1.
  destruct (isSpace x); cbn [negb].
  - destruct b; cbn [app]; apply IH.
  - now rewrite IH.
Qed.

Lemma removeSpaces_chars (s : list ascii) :
  replaceAll spaceRun [] s = filter notSpace s.
Proof.
  unfold replaceAll.
  destruct (@FieldTransformFacts.replaceAll_runs isSpace [] spaceRun
              FieldTransformFacts.plain_empty (fun _ _ => eq_refl) s) as [R _].
  rewrite R. apply collapse_to_nothing.
Qed.

Lemma filter_twice (A : Type) (p : A -> bool) (l : list A) :
  filter p (filter p l) = filter p l.
Proof.
  induction l as [|x l IH]; [reflexivity|]. cbn [filter].
  destruct (p x) eqn:E; [cbn [filter]; rewrite E, IH; reflexivity | exact IH].
Qed.

(** X1. For a value of ASCII text, [transformRemoveSpaces] keeps exactly the
    characters that are not whitespace, in their order; so its result has no
    whitespace and a second application changes nothing. *)
Theorem transformRemoveSpaces_keeps_other_characters (value : string) :
  asciiText value ->
  list_ascii_of_string (transformRemoveSpaces value)
  = filter notSpace (list_ascii_of_string value)
  /\ forallb notSpace (list_ascii_of_string (transformRemoveSpaces value)) = true
  /\ transformRemoveSpaces (transformRemoveSpaces value) = transformRemoveSpaces value.
Proof.
  intros _. unfold transformRemoveSpaces. rewrite !chars_of_string, !removeSpaces_chars.
  split; [reflexivity|]. split.
  - apply forallb_forall. intros x Hx. apply filter_In in Hx. tauto.
  - now rewrite filter_twice.
Qed.

Lemma transformRemoveSpaces_keeps_other_characters_witness :
  list_ascii_of_string (transformRemoveSpaces "How to  Reset")
  = filter notSpace (list_ascii_of_string "How to  Reset")
  /\ transformRemoveSpaces (transformRemoveSpaces "How to  Reset")
     = transformRemoveSpaces "How to  Reset".
Proof.
  destruct (@transformRemoveSpaces_keeps_other_characters "How to  Reset" eq_refl)
    as [H1 [_ H3]].
  split; [exact H1 | exact H3].
Defined.

(** *** Whitespace runs *)

Lemma no_space_no_run (s : list ascii) :
  forallb notSpace s = true ->
  forall rep b before, replaceAllFrom spaceRun rep b before s 0 = s.
Proof.
  induction s as [|x s IH]; intros H rep b before; [reflexivity|].
  cbn [forallb] in H. apply andb_prop in H. destruct H as [Hx Hs].
  cbn [replaceAllFrom]. unfold spaceRun at 1. cbn [takeWhile].
  unfold notSpace in Hx. destruct (isSpace x); [discriminate Hx|].
  cbn [List.length]. now rewrite IH.
Qed.

Lemma collapse_members (p : ascii -> bool) (rep : list ascii) : forall s b x,
  In x (FieldTransformFacts.collapseRuns p rep b s) -> In x rep \/ (In x s /\ p x = false).
Proof.
  induction s as [|y s IH]; cbn [FieldTransformFacts.collapseRuns]; intros b x H; [contradiction|].
  destruct (p y) eqn:Py.
  - destruct b.
    + destruct (IH _ _ H) as [K | [K1 K2]]; [now left | right; split; [now right | exact K2]].
    + apply in_app_or in H. destruct H as [H|H]; [now left|].
      destruct (IH _ _ H) as [K | [K1 K2]]; [now left | right; split; [now right | exact K2]].
  - destruct H as [H|H].
    + subst. right. split; [now left | exact Py].
    + destruct (IH _ _ H) as [K | [K1 K2]]; [now left | right; split; [now right | exact K2]].
Qed.

Definition isDollar (c : ascii) : bool := Ascii.eqb c "$"%char.

Lemma expand_other (c : ascii) (r matched before after : list ascii) :
  isDollar c = false ->
  expandReplacement (c :: r) matched before after
  = c :: expandReplacement r matched before after.
Proof.
  destruct c as [[] [] [] [] [] [] [] []]; intros H; try reflexivity; discriminate H.
Qed.

Lemma plain_without_dollar (rep : list ascii) :
  existsb isDollar rep = false -> FieldTransformFacts.plainReplacement rep.
Proof.
  intros H matched before after. induction rep as [|c r IH]; [reflexivity|].
  cbn [existsb] in H. apply orb_false_iff in H. destruct H as [Hc Hr].
  rewrite expand_other by exact Hc. now rewrite IH.
Qed.

Section WithPlatform.
Context {P : Platform}.

(** X2. For a value and a replacement string of ASCII text:
    [transformReplaceSpaces] with a replacement that has neither a [$] nor a
    whitespace character returns a string without whitespace; and with any
    such replacement, a value without whitespace is returned as it is. *)
Theorem transformReplaceSpaces_leaves_no_whitespace (value replaceWith : string) :
  asciiText value ->
  asciiText replaceWith ->
  (existsb isDollar (list_ascii_of_string replaceWith) = false ->
   forallb notSpace (list_ascii_of_string replaceWith) = true ->
   forallb notSpace (list_ascii_of_string (transformReplaceSpaces value (JStr replaceWith)))
   = true)
  /\ (forallb notSpace (list_ascii_of_string value) = true ->
      transformReplaceSpaces value (JStr replaceWith) = value).
Proof.
  intros _ _. unfold transformReplaceSpaces. cbn [ToString]. rewrite chars_of_string. split.
  - intros Hd Hs. unfold replaceAll.
    destruct (@FieldTransformFacts.replaceAll_runs isSpace (list_ascii_of_string replaceWith)
                spaceRun (plain_without_dollar _ Hd) (fun _ _ => eq_refl)
                (list_ascii_of_string value)) as [R _].
    rewrite R. apply forallb_forall. intros x Hx.
    apply collapse_members in Hx. destruct Hx as [Hx | [_ Hx]].
    + rewrite forallb_forall in Hs. now apply Hs.
    + unfold notSpace. now rewrite Hx.
  - intros H. unfold replaceAll. rewrite no_space_no_run by exact H.
    apply string_of_list_ascii_of_string.
Qed.

End WithPlatform.

Lemma transformReplaceSpaces_leaves_no_whitespace_witness :
  forallb notSpace
    (list_ascii_of_string
       (transformReplaceSpaces (P := Runs.platform) "How to  Reset" (JStr "_"))) = true
  /\ transformReplaceSpaces (P := Runs.platform) "HowToReset" (JStr "_") = "HowToReset".
Proof.
  destruct (@transformReplaceSpaces_leaves_no_whitespace Runs.platform "How to  Reset" "_"
              eq_refl eq_refl) as [H _].
  destruct (@transformReplaceSpaces_leaves_no_whitespace Runs.platform "HowToReset" "_"
              eq_refl eq_refl) as [_ H'].
  split; [apply H; reflexivity | apply H'; reflexivity].
Defined.

(** *** Letter case *)

Lemma lower_upper (c : ascii) : lowerChar (upperChar c) = lowerChar c.
Proof. destruct c as [[] [] [] [] [] [] [] []]; reflexivity. Qed.

Lemma upper_lower (c : ascii) : upperChar (lowerChar c) = upperChar c.
Proof. destruct c as [[] [] [] [] [] [] [] []]; reflexivity. Qed.

Lemma lower_lower (c : ascii) : lowerChar (lowerChar c) = lowerChar c.
Proof. destruct c as [[] [] [] [] [] [] [] []]; reflexivity. Qed.

Lemma upper_upper (c : ascii) : upperChar (upperChar c) = upperChar c.
Proof. destruct c as [[] [] [] [] [] [] [] []]; reflexivity. Qed.

Lemma length_of_chars (l : list ascii) :
  String.length (string_of_list_ascii l) = List.length l.
Proof. induction l as [|c l IH]; [reflexivity|]. cbn. now rewrite IH. Qed.

Lemma map_twice (f g h : ascii -> ascii) (l : list ascii) :
  (forall c, f (g c) = h c) -> map f (map g l) = map h l.
Proof. intros E. rewrite map_map. apply map_ext. exact E. Qed.

(** X3. On ASCII text [transformUrlSafe] does not depend on the letter case
    of its input: whatever the separator, the result (or the exception) is
    the same for the value, its lowercase form and its uppercase form. *)
Theorem transformUrlSafe_ignores_case (value : string) (separator : JSValue) :
  asciiText value ->
  transformUrlSafe (transformUppercase value) separator = transformUrlSafe value separator
  /\ transformUrlSafe (transformLowercase value) separator = transformUrlSafe value separator.
Proof.
  intros _.
  unfold transformUrlSafe, transformUppercase, transformLowercase, toLowerCase, toUpperCase.
  rewrite !chars_of_string.
  rewrite (map_twice lowerChar upperChar lowerChar _ lower_upper).
  rewrite (map_twice lowerChar lowerChar lowerChar _ lower_lower).
  split; reflexivity.
Qed.

(** X4. On ASCII text [transformLowercase] and [transformUppercase] are
    idempotent, each absorbs the other when applied last, and both keep the
    length. *)
Theorem case_transforms_absorb (value : string) :
  asciiText value ->
  transformLowercase (transformLowercase value) = transformLowercase value
  /\ transformUppercase (transformUppercase value) = transformUppercase value
  /\ transformLowercase (transformUppercase value) = transformLowercase value
  /\ transformUppercase (transformLowercase value) = transformUppercase value
  /\ String.length (transformLowercase value) = String.length value
  /\ String.length (transformUppercase value) = String.length value.
Proof.
  intros _.
  unfold transformUppercase, transformLowercase, toLowerCase, toUpperCase.
  rewrite !chars_of_string.
  rewrite (map_twice lowerChar lowerChar lowerChar _ lower_lower).
  rewrite (map_twice upperChar upperChar upperChar _ upper_upper).
  rewrite (map_twice lowerChar upperChar lowerChar _ lower_upper).
  rewrite (map_twice upperChar lowerChar upperChar _ upper_lower).
  repeat split.
  - rewrite <- (string_of_list_ascii_of_string value) at 2.
    rewrite !length_of_chars. apply length_map.
  - rewrite <- (string_of_list_ascii_of_string value) at 2.
    rewrite !length_of_chars. apply length_map.
Qed.

(** *** Applying transforms *)

Definition stringTransformNames : list string :=
  ["replaceSpaces"; "urlSafe"; "lowercase"; "uppercase"; "removeSpaces"].

Section Applying.
Context {P : Platform}.

Lemma applyTransform_falsy (value transform : JSValue) :
  truthy value = false -> applyTransform value transform = value.
Proof. intros H. unfold applyTransform. now rewrite H. Qed.

Lemma eqb_other (a b : string) : a <> b -> String.eqb a b = false.
Proof. intros N. destruct (String.eqb a b) eqn:E; [apply String.eqb_eq in E; contradiction | reflexivity]. Qed.

(** X5. [applyTransform] leaves a value as it is when it has nothing to
    apply: a falsy value is returned unchanged whatever the transform; a
    string value is returned unchanged for a transform string whose name is
    none of the five that the string notation knows, for a transform that is
    neither a string nor an object, and for [urlSafe:] with an empty
    separator, where the exception of the regular expression is caught. *)
Theorem applyTransform_without_effect (value : string) :
  (forall v transform, truthy v = false -> applyTransform v transform = v)
  /\ (forall transform,
        ~ In (hd "" (split ":"%char transform)) stringTransformNames ->
        applyTransform (JStr value) (JStr transform) = JStr value)
  /\ (forall transform,
        match transform with
        | JUndefined | JNull | JBool _ | JNum _ => True
        | _ => False
        end ->
        applyTransform (JStr value) transform = JStr value)
  /\ applyTransform (JStr value) (JStr "urlSafe:") = JStr value.
Proof.
  split; [intros v t H; now apply applyTransform_falsy|].
  split; [|split].
  - intros transform N. unfold applyTransform.
    destruct (truthy (JStr value)); [|reflexivity]. cbn [negb].
    unfold applyStringTransform. cbv zeta.
    unfold stringTransformNames in N. cbn [In] in N.
    rewrite !eqb_other by (intros E; apply N; rewrite E; tauto).
    reflexivity.
  - intros transform H. unfold applyTransform.
    destruct (truthy (JStr value)); [|reflexivity].
    destruct transform; try contradiction; reflexivity.
  - unfold applyTransform. destruct (truthy (JStr value)); reflexivity.
Qed.

Lemma chain_falsy (specs : list JSValue) (value : JSValue) :
  truthy value = false -> fold_left applyTransform specs value = value.
Proof.
  induction specs as [|t specs IH]; intros H; [reflexivity|].
  cbn [fold_left]. rewrite applyTransform_falsy by exact H. now apply IH.
Qed.

(** X6. [applyMultipleTransforms] applies the transforms of the array one
    after the other, from the first to the last: a chain that is the
    concatenation of two chains is the second chain applied to the result of
    the first, one transform alone is [applyTransform], the empty chain and a
    [transforms] argument that is not an array return the value, and a falsy
    value goes through any chain unchanged. *)
Theorem applyMultipleTransforms_in_sequence (value : JSValue) (first second : list JSValue) :
  applyMultipleTransforms value (JArr (first ++ second))
  = applyMultipleTransforms (applyMultipleTransforms value (JArr first)) (JArr second)
  /\ (forall transform,
        applyMultipleTransforms value (JArr [transform]) = applyTransform value transform)
  /\ applyMultipleTransforms value (JArr []) = value
  /\ (forall transforms, isArray transforms = false ->
                         applyMultipleTransforms value transforms = value)
  /\ (truthy value = false -> applyMultipleTransforms value (JArr first) = value).
Proof.
  unfold applyMultipleTransforms. split; [apply fold_left_app|].
  split; [reflexivity|]. split; [reflexivity|]. split.
  - intros transforms H. destruct transforms; try reflexivity. discriminate H.
  - apply chain_falsy.
Qed.




End Applying.

Lemma applyTransform_without_effect_witness :
  applyTransform (P := Runs.platform) (JStr "Product FAQ") (JStr "titlecase")
  = JStr "Product FAQ"
  /\ applyTransform (P := Runs.platform) (JStr "Product FAQ") (JStr "replace:a:b")
     = JStr "Product FAQ"
  /\ applyTransform (P := Runs.platform) JNull (JStr "lowercase") = JNull.
Proof.
  destruct (@applyTransform_without_effect Runs.platform "Product FAQ") as [F [U _]].
  split; [|split].
  - apply U. cbn. intuition discriminate.
  - apply U. cbn. intuition discriminate.
  - apply F. reflexivity.
Defined.

Lemma applyMultipleTransforms_in_sequence_witness :
  applyMultipleTransforms (P := Runs.platform) (JStr "How to Reset")
                          (JArr [JStr "lowercase"; JStr "replaceSpaces:_"])
  = applyMultipleTransforms (P := Runs.platform)
      (applyMultipleTransforms (P := Runs.platform) (JStr "How to Reset")
                               (JArr [JStr "lowercase"]))
      (JArr [JStr "replaceSpaces:_"])
  /\ applyMultipleTransforms (P := Runs.platform) (JStr "")
                             (JArr [JStr "lowercase"; JStr "urlSafe"]) = JStr "".
Proof.
  split.
  - apply (@applyMultipleTransforms_in_sequence Runs.platform (JStr "How to Reset")
             [JStr "lowercase"] [JStr "replaceSpaces:_"]).
  - destruct (@applyMultipleTransforms_in_sequence Runs.platform (JStr "")
                [JStr "lowercase"; JStr "urlSafe"] []) as [_ [_ [_ [_ H]]]].
    apply H. reflexivity.
Defined.


Lemma transformUrlSafe_ignores_case_witness :
  transformUrlSafe (transformUppercase "How to Reset") (JStr "-")
  = transformUrlSafe "How to Reset" (JStr "-").
Proof.
  apply (@transformUrlSafe_ignores_case "How to Reset" (JStr "-") eq_refl).
Defined.

Lemma case_transforms_absorb_witness :
  transformLowercase (transformUppercase "How to Reset") = transformLowercase "How to Reset"
  /\ String.length (transformUppercase "How to Reset") = String.length "How to Reset".
Proof.
  destruct (@case_transforms_absorb "How to Reset" eq_refl) as [_ [_ [H [_ [_ L]]]]].
  split; [exact H | exact L].
Defined.


End TransformFacts.

(* ===================================================================== *)
(** ** More on the site configuration *)
(* ===================================================================== *)

Module ConfigFacts.
Import SiteConfig.

(** *** Errors and validity *)

(** A result is coherent when it is valid exactly without errors. *)
Definition coherent (r : Validation) : Prop := valid r = true <-> errors r = [].

(** [r'] comes from [r] by pushing errors and warnings. *)
Definition extends (r r' : Validation) : Prop :=
  exists es ws,
    errors r' = errors r ++ es
    /\ warnings r' = warnings r ++ ws
    /\ valid r' = valid r && match es with [] => true | _ => false end.

Lemma extends_refl (r : Validation) : extends r r.
Proof. exists [], []. rewrite !app_nil_r, andb_true_r. auto. Qed.

Lemma extends_pushError (msg : string) (r : Validation) : extends r (pushError msg r).
Proof. exists [msg], []. cbn. rewrite app_nil_r, andb_false_r. auto. Qed.

Lemma extends_pushWarning (msg : string) (r : Validation) : extends r (pushWarning msg r).
Proof. exists [], [msg]. cbn. rewrite app_nil_r, andb_true_r. auto. Qed.

Lemma extends_when (c : bool) (f : Validation -> Validation) (r : Validation) :
  extends r (f r) -> extends r (when c f r).
Proof. intros H. unfold when. destruct c; [exact H | apply extends_refl]. Qed.

Lemma extends_if (c : bool) (r a b : Validation) :
  extends r a -> extends r b -> extends r (if c then a else b).
Proof. now destruct c. Qed.

Lemma coherent_extends (r r' : Validation) : extends r r' -> coherent r -> coherent r'.
Proof.
  intros [es [ws [He [_ Hv]]]] [C1 C2]. unfold coherent. rewrite He, Hv. split.
  - intros H. apply andb_prop in H. destruct H as [V E].
    destruct es; [|discriminate E]. rewrite app_nil_r. now apply C1.
  - intros H. apply app_eq_nil in H. destruct H as [H1 ->].
    rewrite (C2 H1). reflexivity.
Qed.

Lemma coherent_start : coherent (mkValidation true [] []).
Proof. split; reflexivity. Qed.

Lemma extends_validateTransform (r : Validation) (kv : string * JSValue) :
  extends r (validateTransform r kv).
Proof.
  unfold validateTransform. cbv zeta.
  destruct (snd kv); try apply extends_pushError;
    repeat first
      [ apply extends_refl
      | apply extends_pushError
      | apply extends_pushWarning
      | match goal with
        | |- extends _ (if ?c then _ else _) => destruct c
        | |- extends _ (match ?x with _ => _ end) => destruct x
        end ].
Qed.

Lemma coherent_validateTransforms (transforms : JSValue) :
  coherent (validateTransforms transforms).
Proof.
  unfold validateTransforms. cbv zeta.
  destruct (_ || _).
  - apply (coherent_extends (extends_pushError _ _)), coherent_start.
  - generalize (mkValidation true [] []) coherent_start.
    induction (ownProps transforms) as [|kv l IH]; intros r C; [exact C|].
    cbn [fold_left]. apply IH.
    apply (coherent_extends (extends_validateTransform r kv) C).
Qed.

Lemma extends_transforms (r tv : Validation) :
  coherent tv ->
  extends r (match warnings tv with
             | [] => if negb (valid tv)
                     then mkValidation false (errors r ++ errors tv) (warnings r)
                     else r
             | ws =>
                 mkValidation
                   (valid (if negb (valid tv)
                           then mkValidation false (errors r ++ errors tv) (warnings r)
                           else r))
                   (errors (if negb (valid tv)
                            then mkValidation false (errors r ++ errors tv) (warnings r)
                            else r))
                   (warnings (if negb (valid tv)
                              then mkValidation false (errors r ++ errors tv) (warnings r)
                              else r) ++ ws)
             end).
Proof.
  intros [C1 C2]. destruct (valid tv) eqn:V; cbn [negb].
  - exists [], (warnings tv). rewrite app_nil_r, andb_true_r.
    destruct (warnings tv) as [|w ws]; cbn; rewrite ?app_nil_r; auto.
  - assert (E : errors tv <> []) by (intros E; apply C2 in E; discriminate E).
    exists (errors tv), (warnings tv).
    destruct (errors tv) as [|e es]; [contradiction|].
    rewrite andb_false_r.
    destruct (warnings tv) as [|w ws]; cbn; rewrite ?app_nil_r; auto.
Qed.

(** X8. The result of [validateConfiguration] is valid exactly when it
    reports no error: every check that fails pushes a message, and warnings
    never make a configuration invalid.  The same holds of
    [validateTransforms]. *)
Theorem validateConfiguration_valid_iff_no_error (config : JSValue) (siteID : string) :
  (valid (validateConfiguration config siteID) = true
   <-> errors (validateConfiguration config siteID) = [])
  /\ forall transforms,
       valid (validateTransforms transforms) = true
       <-> errors (validateTransforms transforms) = [].
Proof.
  split; [|exact coherent_validateTransforms].
  change (coherent (validateConfiguration config siteID)).
  unfold validateConfiguration. cbv zeta.
  destruct (_ || _).
  - apply (coherent_extends (extends_pushError _ _)), coherent_start.
  - repeat (eapply coherent_extends;
            [ solve [ apply extends_when; apply extends_pushError
                    | apply extends_if; [apply extends_when; apply extends_pushError
                                        | apply extends_refl]
                    | apply extends_if;
                      [apply extends_transforms; apply coherent_validateTransforms
                      | apply extends_refl]
                    | apply extends_if;
                      [apply extends_if;
                       [apply extends_pushError
                       | destruct (keys _); [apply extends_pushWarning | apply extends_refl]]
                      | apply extends_refl]
                    | destruct (getProp config "batchSize");
                      first [apply extends_refl | apply extends_when; apply extends_pushError] ]
            | ]).
    apply coherent_start.
Qed.

(** *** Which transforms are accepted *)






(** *** Folder ids *)

Definition nonBlankString (e : JSValue) : bool :=
  match e with
  | JStr s => negb (String.eqb (trim s) "")
  | _ => false
  end.

Lemma nonBlank_strings (elems : list JSValue) :
  forallb nonBlankString elems = true ->
  exists ids, elems = map JStr ids /\ Forall (fun id => id <> "") ids.
Proof.
  induction elems as [|e elems IH]; intros H.
  - exists []. split; [reflexivity | constructor].
  - cbn [forallb] in H. apply andb_prop in H. destruct H as [He Hr].
    destruct (IH Hr) as [ids [-> F]].
    destruct e as [| | | |s| | |]; try discriminate He.
    exists (s :: ids). split; [reflexivity|]. constructor; [|exact F].
    intros ->. discriminate He.
Qed.

(** X10. [normalizeContentFolderIDs] always returns an array, [['root']]
    for a falsy argument; and for an argument that
    [validateContentFolderIDs] accepts, each element of the array is a string
    that is not empty (a comma-separated string is split, its parts are
    trimmed and the empty ones dropped). *)
Theorem normalizeContentFolderIDs_of_valid_ids (folderIDs : JSValue) :
  isArray (normalizeContentFolderIDs folderIDs) = true
  /\ (truthy folderIDs = false -> normalizeContentFolderIDs folderIDs = JArr [JStr "root"])
  /\ (folderValid (validateContentFolderIDs folderIDs) = true ->
      exists ids, normalizeContentFolderIDs folderIDs = JArr (map JStr ids)
                  /\ Forall (fun id => id <> "") ids).
Proof.
  unfold normalizeContentFolderIDs, validateContentFolderIDs. split; [|split].
  - destruct (negb (truthy folderIDs)); [reflexivity|].
    destruct folderIDs; try reflexivity.
    destruct (existsb _ _); reflexivity.
  - intros ->. reflexivity.
  - destruct (truthy folderIDs) eqn:T; cbn [negb]; [|discriminate].
    destruct folderIDs as [| |b|q|s|d|elems|o]; try discriminate.
    + destruct (String.eqb (trim s) "") eqn:E; [discriminate|]. intros _.
      destruct (existsb _ _).
      * eexists. split; [reflexivity|]. apply Forall_forall. intros id Hid.
        apply filter_In in Hid. destruct Hid as [_ Hid]. intros ->. discriminate Hid.
      * exists [trim s]. split; [reflexivity|]. constructor; [|constructor].
        intros E'. rewrite E' in E. discriminate E.
    + destruct elems as [|e elems]; [discriminate|].
      destruct (forallb _ (e :: elems)) eqn:F; [|discriminate]. intros _.
      destruct (nonBlank_strings (e :: elems) F) as [ids [E Fa]].
      exists ids. split; [now rewrite E | exact Fa].
Qed.

Lemma normalizeContentFolderIDs_of_valid_ids_witness :
  exists ids,
    normalizeContentFolderIDs (JStr "faq, ,support ,") = JArr (map JStr ids)
    /\ Forall (fun id => id <> "") ids.
Proof.
  apply (proj2 (proj2 (normalizeContentFolderIDs_of_valid_ids (JStr "faq, ,support ,")))).
  reflexivity.
Defined.

(** *** Merging *)





End ConfigFacts.

(* ===================================================================== *)
(** ** More on the content mapping *)
(* ===================================================================== *)

Module MappingFacts.
Import ContentMapping.

(** *** The assets of an export *)

(** The test of the loop of [getContentAssets]: the asset is online and, in
    delta mode, not skipped as unmodified. *)
Definition exported (exportMode : JSValue) (asset : Content) : bool :=
  online asset && negb (isDeltaMode exportMode && notModifiedSinceLastSync asset).

Lemma visitAsset_exported (exportMode : JSValue) (asset : Content) :
  map Some (visitAsset exportMode asset)
  = if exported exportMode asset then [formatContentAsset asset] else [].
Proof.
  unfold visitAsset, exported.
  destruct (online asset); cbn [negb andb]; [|reflexivity].
  destruct (isDeltaMode exportMode && notModifiedSinceLastSync asset); reflexivity.
Qed.

Lemma getContentAssets_filter (searchResult : list Content) (exportMode : JSValue) :
  map Some (getContentAssets searchResult exportMode)
  = map formatContentAsset (filter (exported exportMode) searchResult).
Proof.
  unfold getContentAssets.
  induction searchResult as [|asset rest IH]; [reflexivity|].
  cbn [flat_map filter]. rewrite map_app, IH, visitAsset_exported.
  destruct (exported exportMode asset); reflexivity.
Qed.

Lemma filter_narrower (A : Type) (p q : A -> bool) (l : list A) :
  (forall x, p x = true -> q x = true) ->
  filter p (filter q l) = filter p l.
Proof.
  intros H. induction l as [|x l IH]; [reflexivity|]. cbn [filter].
  destruct (q x) eqn:Q; cbn [filter].
  - now rewrite IH.
  - destruct (p x) eqn:Px; [rewrite (H x Px) in Q; discriminate Q | exact IH].
Qed.

(** X12. [getContentAssets] returns the formatted assets of the search
    result that are online and, in delta mode, modified since their last
    sync, in the order of the search: an offline asset is never exported, in
    full mode every online asset is, and the assets of a delta export are
    among those of the full export of the same search result, in the same
    order. *)
Theorem getContentAssets_exports_in_order (searchResult : list Content) (exportMode : JSValue) :
  map Some (getContentAssets searchResult exportMode)
  = map formatContentAsset (filter (exported exportMode) searchResult)
  /\ (forall asset, exported exportMode asset = true -> online asset = true)
  /\ (isDeltaMode exportMode = false ->
      filter (exported exportMode) searchResult = filter online searchResult)
  /\ filter (exported exportMode) searchResult
     = filter (exported exportMode) (filter (exported (JStr "full")) searchResult)
  /\ List.length (getContentAssets searchResult exportMode)
     <= List.length (getContentAssets searchResult (JStr "full")).
Proof.
  assert (Full : forall asset, exported (JStr "full") asset = online asset).
  { intros asset. unfold exported. cbn. now rewrite andb_true_r. }
  assert (Sub : filter (exported exportMode) searchResult
                = filter (exported exportMode) (filter (exported (JStr "full")) searchResult)).
  { symmetry. apply filter_narrower. intros asset H. rewrite Full.
    unfold exported in H. now apply andb_prop in H. }
  split; [apply getContentAssets_filter|].
  split; [intros asset H; unfold exported in H; now apply andb_prop in H|].
  split; [|split; [exact Sub|]].
  - intros D. apply filter_ext. intros asset. unfold exported. rewrite D. cbn.
    now rewrite andb_true_r.
  - rewrite <- (length_map Some (getContentAssets searchResult exportMode)).
    rewrite <- (length_map Some (getContentAssets searchResult (JStr "full"))).
    rewrite !getContentAssets_filter, !length_map. rewrite Sub.
    apply filter_length_le.
Qed.

(** *** Property paths *)

Lemma splitChars_nonempty (sep : ascii) (s : list ascii) : splitChars sep s <> [].
Proof.
  induction s as [|x s IH]; cbn [splitChars]; [discriminate|].
  destruct (Ascii.eqb x sep); [discriminate|].
  destruct (splitChars sep s); [contradiction | discriminate].
Qed.

Lemma splitChars_app (sep : ascii) (a b : list ascii) :
  splitChars sep (a ++ sep :: b) = splitChars sep a ++ splitChars sep b.
Proof.
  induction a as [|x a IH]; cbn [app splitChars].
  - now rewrite Ascii.eqb_refl.
  - destruct (Ascii.eqb x sep); [now rewrite IH|].
    rewrite IH. pose proof (splitChars_nonempty sep a) as N.
    destruct (splitChars sep a); [contradiction | reflexivity].
Qed.

Lemma chars_app (a b : string) :
  list_ascii_of_string (a ++ b) = list_ascii_of_string a ++ list_ascii_of_string b.
Proof. induction a as [|c a IH]; cbn; [reflexivity | now rewrite IH]. Qed.

Lemma split_path (a b : string) :
  split "."%char (a ++ "." ++ b) = split "."%char a ++ split "."%char b.
Proof.
  unfold split. rewrite chars_app. cbn [append list_ascii_of_string].
  rewrite splitChars_app. apply map_app.
Qed.

Lemma split_nonempty (sep : ascii) (s : string) : split sep s <> [].
Proof.
  unfold split. pose proof (splitChars_nonempty sep (list_ascii_of_string s)) as N.
  destruct (splitChars sep (list_ascii_of_string s)); [contradiction | discriminate].
Qed.

Section Paths.
Context {P : Platform}.

Lemma traverse_null (parts : list string) :
  traverse parts JNull = JNull.
Proof. destruct parts; reflexivity. Qed.

Lemma traverse_undefined (parts : list string) :
  parts <> [] -> traverse parts JUndefined = JNull.
Proof. destruct parts; [contradiction | reflexivity]. Qed.

Lemma traverse_app (first second : list string) :
  forall current, traverse (first ++ second) current = traverse second (traverse first current).
Proof.
  induction first as [|p first IH]; intros current; [reflexivity|].
  cbn [app traverse].
  destruct current; try (now rewrite traverse_null);
    (destruct (String.eqb (trim p) ""); apply IH).
Qed.

(** X13. Property paths compose: for an object [obj] that is truthy and a
    path [first.second] with both parts not empty, [getNestedProperty]
    returns what it returns for the path [second] on the value that it
    returns for the path [first], whenever that value is truthy, null or
    undefined; in particular a missing or null intermediate property gives
    null, never an exception. *)
Theorem getNestedProperty_composes (obj : JSValue) (first second : string) (inner : JSValue) :
  truthy obj = true ->
  first <> "" ->
  second <> "" ->
  getNestedProperty obj (JStr first) = Normal inner ->
  (truthy inner = true \/ inner = JNull \/ inner = JUndefined ->
   getNestedProperty obj (JStr (first ++ "." ++ second))
   = getNestedProperty inner (JStr second))
  /\ (inner = JNull \/ inner = JUndefined ->
      getNestedProperty obj (JStr (first ++ "." ++ second)) = Normal JNull).
Proof.
  intros To Nf Ns Hin.
  assert (Tf : truthy (JStr first) = true).
  { cbn. destruct (String.eqb first "") eqn:E; [apply String.eqb_eq in E; contradiction|].
    reflexivity. }
  assert (Ts : truthy (JStr second) = true).
  { cbn. destruct (String.eqb second "") eqn:E; [apply String.eqb_eq in E; contradiction|].
    reflexivity. }
  assert (Tp : truthy (JStr (first ++ "." ++ second)) = true).
  { cbn. destruct first; [contradiction | reflexivity]. }
  unfold getNestedProperty in Hin |- *. rewrite To, Tf in Hin. rewrite To, Tp, Ts.
  cbn [negb orb] in Hin |- *. injection Hin as <-.
  rewrite split_path, traverse_app.
  set (inner := traverse (split "."%char first) obj).
  assert (Nul : inner = JNull \/ inner = JUndefined ->
                traverse (split "."%char second) inner = JNull).
  { intros [-> | ->]; [apply traverse_null | apply traverse_undefined, split_nonempty]. }
  split.
  - intros [T | H].
    + rewrite T. reflexivity.
    + rewrite (Nul H). destruct H as [-> | ->]; reflexivity.
  - intros H. now rewrite (Nul H).
Qed.

End Paths.

Lemma getNestedProperty_composes_witness :
  getNestedProperty
    (JObj [("ID", JStr "faq-1"); ("custom", JObj [("body", JStr "<p>Reset</p>")])])
    (JStr ("custom" ++ "." ++ "body"))
  = getNestedProperty (JObj [("body", JStr "<p>Reset</p>")]) (JStr "body")
  /\ getNestedProperty (JObj [("ID", JStr "faq-1")]) (JStr ("custom" ++ "." ++ "body"))
     = Normal JNull.
Proof.
  split.
  - destruct (@getNestedProperty_composes
                (JObj [("ID", JStr "faq-1"); ("custom", JObj [("body", JStr "<p>Reset</p>")])])
                "custom" "body" (JObj [("body", JStr "<p>Reset</p>")]) eq_refl)
      as [H _]; [discriminate | discriminate | reflexivity |].
    apply H. now left.
  - destruct (@getNestedProperty_composes (JObj [("ID", JStr "faq-1")])
                "custom" "body" JUndefined eq_refl) as [_ H];
      [discriminate | discriminate | reflexivity |].
    apply H. now right.
Defined.

(** *** The parts of the article that the mapper adds *)

Section Article.
Context {P : Platform}.

Lemma payload_after_loop (contentAsset articleType : JSValue)
      (fieldMapping : list (string * string)) (dataCategory : JSValue) (isCreate : bool) :
  ~ In "hasOwnProperty" (keys fieldMapping) ->
  exists article,
    (forall k, NoDup (keys fieldMapping) -> ~ In k (keys fieldMapping) -> k <> "__proto__" ->
               assoc k article = assoc k [("attributes", JObj [("type", articleType)])])
    /\ mapArticle contentAsset articleType
                  (FieldMapperFacts.mappingObject fieldMapping) dataCategory isCreate
       = let article := if isCreate then setProp "Language" (JStr "en_US") article
                        else article in
         match dataCategory with
         | JStr dc =>
             if truthy dataCategory && negb (String.eqb (trim dc) "")
             then setProp "DataCategorySelections" (JObj [("DataCategory", dataCategory)])
                          article
             else article
         | _ => article
         end.
Proof.
  intros Nh.
  destruct (FieldMapperFacts.mapFields_strings contentAsset fieldMapping
              [("attributes", JObj [("type", articleType)])]) as [article [Hrun Hassoc]].
  exists article. split.
  - intros k ND Hk Np. rewrite (Hassoc k ND Np).
    apply assoc_None_keys in Hk. now rewrite Hk.
  - unfold mapArticle. rewrite (FieldMapperFacts.plain_mappingObject _ Nh), Hrun. cbv zeta.
    destruct dataCategory as [| |b|q|dc|d|l|o]; cbn [truthy]; try reflexivity.
    + now destruct b.
    + now destruct (negb (Qeq_bool q 0)).
    + destruct (negb (String.eqb dc "")); cbn [andb]; [|reflexivity].
      now destruct (negb (String.eqb (trim dc) "")).
Qed.

(** X14. For a record that is given and a field mapping with string source
    paths and distinct target names, none of them [hasOwnProperty]: the
    article that [mapContentToArticle] returns has the property [attributes]
    with the value [{ type: articleType }] unless the mapping itself has a
    target of that name; it has
    [DataCategorySelections = { DataCategory: dataCategory }] whenever
    [dataCategory] is a string that is not blank; and with a [dataCategory]
    that is falsy or a blank string it has no [DataCategorySelections] unless
    the mapping has a target of that name. *)
Theorem mapContentToArticle_adds_type_and_category
        (contentAsset articleType : JSValue) (fieldMapping : list (string * string))
        (dataCategory : JSValue) (isCreate : bool) :
  contentAsset <> JNull ->
  contentAsset <> JUndefined ->
  NoDup (keys fieldMapping) ->
  ~ In "hasOwnProperty" (keys fieldMapping) ->
  exists article,
    mapContentToArticle contentAsset articleType
      (FieldMapperFacts.mappingObject fieldMapping) dataCategory isCreate = Normal article
    /\ (~ In "attributes" (keys fieldMapping) ->
        assoc "attributes" article = Some (JObj [("type", articleType)]))
    /\ (forall dc, dataCategory = JStr dc -> trim dc <> "" ->
          assoc "DataCategorySelections" article = Some (JObj [("DataCategory", JStr dc)]))
    /\ (truthy dataCategory = false \/ (exists dc, dataCategory = JStr dc /\ trim dc = "") ->
        ~ In "DataCategorySelections" (keys fieldMapping) ->
        assoc "DataCategorySelections" article = None).
Proof.
  intros N1 N2 ND Nh.
  eexists. split; [now apply FieldMapperFacts.mapContentToArticle_returns|].
  destruct (payload_after_loop contentAsset articleType fieldMapping dataCategory isCreate Nh)
    as [article [Hassoc ->]]. cbv zeta.
  assert (L : forall k, k <> "Language" ->
                assoc k (if isCreate then setProp "Language" (JStr "en_US") article else article)
                = assoc k article).
  { intros k N. destruct isCreate; [now apply assoc_setProp_other | reflexivity]. }
  split; [|split].
  - intros Hk.
    assert (A : assoc "attributes"
                  (if isCreate then setProp "Language" (JStr "en_US") article else article)
                = Some (JObj [("type", articleType)])).
    { rewrite L by discriminate. rewrite (Hassoc _ ND Hk); [reflexivity | discriminate]. }
    destruct dataCategory; try exact A.
    destruct (_ && _); [|exact A].
    rewrite assoc_setProp_other by discriminate. exact A.
  - intros dc -> Hdc.
    assert (T : truthy (JStr dc) = true).
    { cbn. destruct dc; [now contradiction Hdc | reflexivity]. }
    rewrite T. cbn [andb].
    destruct (String.eqb (trim dc) "") eqn:E; [apply String.eqb_eq in E; contradiction|].
    cbn [negb]. apply assoc_setProp_same.
  - intros H Hk.
    assert (A : assoc "DataCategorySelections"
                  (if isCreate then setProp "Language" (JStr "en_US") article else article)
                = None).
    { rewrite L by discriminate. rewrite (Hassoc _ ND Hk); [reflexivity | discriminate]. }
    destruct H as [T | [dc [-> E]]].
    + destruct dataCategory; try exact A. rewrite T. exact A.
    + rewrite E, andb_false_r. exact A.
Qed.

End Article.

Lemma mapContentToArticle_adds_type_and_category_witness :
  exists article,
    mapContentToArticle (P := Runs.platform) FieldMapperFacts.sampleRecord
      (JStr "Knowledge__kav") (FieldMapperFacts.mappingObject [("Title", "name")])
      (JStr "Products:Electronics") true
    = Normal article
    /\ assoc "attributes" article = Some (JObj [("type", JStr "Knowledge__kav")])
    /\ assoc "DataCategorySelections" article
       = Some (JObj [("DataCategory", JStr "Products:Electronics")]).
Proof.
  assert (ND : NoDup (keys [("Title", "name")])) by (repeat constructor; cbn; intuition).
  destruct (@mapContentToArticle_adds_type_and_category Runs.platform
              FieldMapperFacts.sampleRecord (JStr "Knowledge__kav") [("Title", "name")]
              (JStr "Products:Electronics") true)
    as [article [Hrun [A [D _]]]]; try discriminate; try exact ND.
  - cbn. intuition discriminate.
  - exists article. split; [exact Hrun | split].
    + apply A. cbn. intuition discriminate.
    + apply (D "Products:Electronics"); [reflexivity | discriminate].
Defined.

(** *** Values that the remote accepts *)

(** null, a string, a number or a boolean. *)
Definition primitive (v : JSValue) : bool :=
  match v with
  | JNull | JStr _ | JNum _ | JBool _ => true
  | JUndefined | JDate _ | JArr _ | JObj _ => false
  end.

(** [v !== undefined && v !== null] *)
Definition given (v : JSValue) : bool :=
  match v with
  | JUndefined | JNull => false
  | _ => true
  end.

Section SafeValues.
Context {P : Platform}.

(** [JSON.stringify] of an object, an array or a date is a string. *)
Definition stringifies : Prop :=
  forall v, typeof v = "object"%string -> v <> JNull -> exists s, JSON_stringify v = JStr s.

(** X30. [convertToSalesforceSafeValue] returns null, a string, a number
    or a boolean, and converting its result again changes nothing.  Null
    and undefined become null and a string, a number or a boolean is
    returned as it is; of an object the [markup] is taken when it is given,
    else the [source] when that is given, each as a string. *)
Theorem convertToSalesforceSafeValue_is_primitive (value : JSValue) :
  stringifies ->
  primitive (convertToSalesforceSafeValue value) = true
  /\ convertToSalesforceSafeValue (convertToSalesforceSafeValue value)
     = convertToSalesforceSafeValue value
  /\ (primitive value = true -> convertToSalesforceSafeValue value = value)
  /\ (value = JUndefined -> convertToSalesforceSafeValue value = JNull)
  /\ (primitive value = false -> given (getProp value "markup") = true ->
      convertToSalesforceSafeValue value = JStr (ToString (getProp value "markup")))
  /\ (primitive value = false -> value <> JUndefined ->
      given (getProp value "markup") = false -> given (getProp value "source") = true ->
      convertToSalesforceSafeValue value = JStr (ToString (getProp value "source"))).
Proof.
  intros St.
  assert (Prim : primitive (convertToSalesforceSafeValue value) = true).
  { unfold convertToSalesforceSafeValue.
    destruct value as [| |b|q|s|d|l|o]; try reflexivity;
      (destruct (getProp _ "markup"); try reflexivity;
       destruct (getProp _ "source"); try reflexivity;
       match goal with
       | |- context [if ?c then _ else _] => destruct c; [reflexivity|]
       end;
       match goal with
       | |- context [JSON_stringify ?v] =>
           destruct (St v) as [s' ->]; [reflexivity | discriminate | reflexivity]
       end). }
  split; [exact Prim|]. split.
  { destruct (convertToSalesforceSafeValue value); try discriminate Prim; reflexivity. }
  split.
  { destruct value; try discriminate; reflexivity. }
  split.
  { intros ->. reflexivity. }
  split.
  { unfold convertToSalesforceSafeValue.
    destruct value as [| |b|q|s|d|l|o]; try discriminate; intros _ G;
      destruct (getProp _ "markup"); try discriminate G; reflexivity. }
  unfold convertToSalesforceSafeValue.
  destruct value as [| |b|q|s|d|l|o]; try discriminate; intros _ N G1 G2;
    try (now contradiction N);
    destruct (getProp _ "markup"); try discriminate G1;
    destruct (getProp _ "source"); try discriminate G2; reflexivity.
Qed.

End SafeValues.

Lemma convertToSalesforceSafeValue_is_primitive_witness :
  stringifies (P := Runs.platform)
  /\ convertToSalesforceSafeValue (P := Runs.platform)
       (JObj [("markup", JStr "<p>Reset</p>"); ("source", JStr "Reset")])
     = JStr "<p>Reset</p>".
Proof.
  assert (St : stringifies (P := Runs.platform)).
  { intros v T N. destruct v; try discriminate T; try (now contradiction N);
      eexists; reflexivity. }
  split; [exact St|].
  exact (proj1 (proj2 (proj2 (proj2 (proj2
           (@convertToSalesforceSafeValue_is_primitive Runs.platform
              (JObj [("markup", JStr "<p>Reset</p>"); ("source", JStr "Reset")]) St)))))
           eq_refl eq_refl).
Defined.

End MappingFacts.

(* ===================================================================== *)
(** ** More on the batch orchestrator *)
(* ===================================================================== *)

Module BatchFacts.
Import ContentMapping OrchestratorFacts.

Section Run.
Variables (A W : Type).
Variable exportFunction : list A -> W -> Completion Returned * W.

(** The slices of a run. *)
Definition batches (contentAssets : list A) (batchSize : Q) : list (list A) :=
  map (batchAt contentAssets batchSize) (seq 0 (ceilDiv (List.length contentAssets) batchSize)).

(** The world after the export function has run on each slice in turn. *)
Definition afterAll (slices : list (list A)) (w : W) : W :=
  fold_left (fun w slice => snd (exportFunction slice w)) slices w.

(** What the export function answers on each slice in turn. *)
Fixpoint outcomes (slices : list (list A)) (w : W) : list (Completion Returned) :=
  match slices with
  | [] => []
  | slice :: rest => fst (exportFunction slice w) :: outcomes rest (snd (exportFunction slice w))
  end.

Definition failed (c : Completion Returned) : bool :=
  match c with
  | Normal (ReturnedValue batchResult) => negb (batchSuccess batchResult)
  | Normal ReturnedNull | Normal ReturnedUndefined => true
  | Throw _ => true
  end.

(** The export function returned [null] or [undefined]. *)
Definition nothing (c : Completion Returned) : bool :=
  match c with
  | Normal ReturnedNull | Normal ReturnedUndefined => true
  | _ => false
  end.

(** The records of the slices that failed, and the numbers of those slices
    counted from [i + 1]. *)
Fixpoint recordsWhere (p : Completion Returned -> bool) (slices : list (list A))
         (cs : list (Completion Returned)) : nat :=
  match slices, cs with
  | slice :: rest, c :: cs' =>
      (if p c then List.length slice else 0) + recordsWhere p rest cs'
  | _, _ => 0
  end.

Definition failedRecords := recordsWhere failed.

Fixpoint failedNumbers (i : nat) (cs : list (Completion Returned)) : list nat :=
  match cs with
  | [] => []
  | c :: cs' => if failed c then (i + 1) :: failedNumbers (S i) cs' else failedNumbers (S i) cs'
  end.

Lemma world_step (l : list A) (batchSize : Q) (acc : ExportResult * W) (i : nat) :
  snd (processBatch exportFunction l batchSize acc i)
  = snd (exportFunction (batchAt l batchSize i) (snd acc)).
Proof.
  unfold processBatch. destruct acc as [result w]. cbn [snd].
  destruct (exportFunction (batchAt l batchSize i) w) as [[[| |batchResult]|msg] w'];
    [| |destruct (batchSuccess batchResult)|]; reflexivity.
Qed.

Lemma world_fold (l : list A) (batchSize : Q) : forall indices acc,
  snd (fold_left (processBatch exportFunction l batchSize) indices acc)
  = afterAll (map (batchAt l batchSize) indices) (snd acc).
Proof.
  induction indices as [|i indices IH]; intros acc; [reflexivity|].
  cbn [fold_left map]. rewrite IH, world_step. reflexivity.
Qed.

(** One turn of the loop: the batch is counted as processed, once more when
    the export function returned nothing, and as failed when it failed. *)
Lemma counts_step (l : list A) (batchSize : Q) (acc : ExportResult * W) (j : nat) :
  let c := fst (exportFunction (batchAt l batchSize j) (snd acc)) in
  let n := List.length (batchAt l batchSize j) in
  let next := fst (processBatch exportFunction l batchSize acc j) in
  totalProcessed next = totalProcessed (fst acc) + n + (if nothing c then n else 0)
  /\ totalFailed next = totalFailed (fst acc) + (if failed c then n else 0)
  /\ map batch (errors next)
     = map batch (errors (fst acc)) ++ (if failed c then [j + 1] else []).
Proof.
  cbv zeta. unfold processBatch. destruct acc as [result w]. cbn [fst snd].
  destruct (exportFunction (batchAt l batchSize j) w) as [[[| |batchResult]|msg] w'];
    cbn [fst failed nothing].
  - cbn [caught counted totalProcessed totalFailed errors].
    split; [lia | split; [reflexivity | now rewrite map_app]].
  - cbn [caught counted totalProcessed totalFailed errors].
    split; [lia | split; [reflexivity | now rewrite map_app]].
  - destruct (batchSuccess batchResult); cbn [negb fst totalProcessed totalFailed errors].
    + split; [lia | split; [lia | now rewrite app_nil_r]].
    + split; [lia | split; [reflexivity | now rewrite map_app]].
  - cbn [caught totalProcessed totalFailed errors].
    split; [lia | split; [reflexivity | now rewrite map_app]].
Qed.

Lemma counts_fold (l : list A) (batchSize : Q) : forall indices acc,
  let run := fold_left (processBatch exportFunction l batchSize) indices acc in
  let slices := map (batchAt l batchSize) indices in
  let cs := outcomes slices (snd acc) in
  totalProcessed (fst run)
  = totalProcessed (fst acc) + List.length (concat slices) + recordsWhere nothing slices cs
  /\ totalFailed (fst run) = totalFailed (fst acc) + failedRecords slices cs
  /\ forall i, indices = seq i (List.length indices) ->
               map batch (errors (fst run))
               = map batch (errors (fst acc)) ++ failedNumbers i cs.
Proof.
  induction indices as [|j indices IH]; intros acc; cbv zeta.
  - cbn. split; [lia | split; [lia | intros; now rewrite app_nil_r]].
  - cbn [fold_left map outcomes concat]. unfold failedRecords. cbn [recordsWhere].
    destruct (IH (processBatch exportFunction l batchSize acc j)) as [Pr [F E]].
    rewrite world_step in Pr, F, E.
    destruct (counts_step l batchSize acc j) as [S0 [S1 S2]].
    split; [|split].
    + rewrite Pr, S0, length_app. lia.
    + rewrite F, S1. unfold failedRecords. lia.
    + intros i Hi. cbn [List.length seq] in Hi. injection Hi as -> Hi.
      rewrite (E (S i) Hi), S2. cbn [failedNumbers].
      destruct (failed _); rewrite <- app_assoc; reflexivity.
Qed.

(** One call of the export function for each slice of a run, in order. *)
Lemma every_slice_runs (contentAssets : list A) (batchSize : nat) (w : W) :
  1 <= batchSize ->
  (exists result,
      exportToExternalAPI exportFunction contentAssets (whole batchSize) w
      = Some (result, afterAll (batches contentAssets (whole batchSize)) w)
      /\ totalProcessed result
         = List.length contentAssets
           + recordsWhere nothing (batches contentAssets (whole batchSize))
                          (outcomes (batches contentAssets (whole batchSize)) w))
  /\ concat (batches contentAssets (whole batchSize)) = contentAssets
  /\ Forall (fun slice => 1 <= List.length slice <= batchSize)
            (batches contentAssets (whole batchSize))
  /\ exportToExternalAPI exportFunction [] (whole batchSize) w
     = Some (mkExportResult 0 0 0 [], w).
Proof.
  intros H. split; [|split; [|split]].
  - rewrite exportToExternalAPI_whole by exact H.
    set (run := fold_left _ _ _).
    exists (fst run). split.
    + f_equal. rewrite (surjective_pairing run) at 1. f_equal.
      subst run. rewrite world_fold. reflexivity.
    + subst run.
      destruct (counts_fold contentAssets (whole batchSize)
                  (seq 0 (ceilDiv (List.length contentAssets) (whole batchSize)))
                  (mkExportResult 0 0 0 [], w)) as [Pr _].
      cbv zeta in Pr. cbn [fst snd totalProcessed Nat.add] in Pr.
      rewrite Pr. fold (batches contentAssets (whole batchSize)).
      unfold batches at 1. now rewrite batches_partition.
  - now apply batches_partition.
  - unfold batches. apply Forall_forall. intros slice Hs.
    apply in_map_iff in Hs. destruct Hs as [i [<- Hi]]. apply in_seq in Hi.
    rewrite batch_length.
    destruct contentAssets as [|x l].
    { cbn [List.length] in Hi. rewrite ceilDiv_whole in Hi by exact H.
      rewrite Nat.div_small in Hi by lia. lia. }
    pose proof (@ceilDiv_tight (List.length (x :: l)) batchSize H) as T.
    cbn [List.length] in *.
    assert (i * batchSize < S (List.length l)) by (specialize (T ltac:(lia)); nia).
    lia.
  - reflexivity.
Qed.

(** X15. With a whole batch size of at least one, [exportToExternalAPI]
    calls the export function once on each slice, in order, whatever the
    earlier slices returned or threw: the outside world is the one left by
    these calls.  The slices are contiguous, not empty, at most [batchSize]
    long, and together the list of records.  [totalProcessed] is the number
    of records, and the records of a slice on which the export function
    returned [null] or [undefined] are counted in it twice.  With no record
    the export function is not called and every count is zero. *)
Theorem exportToExternalAPI_runs_every_slice (contentAssets : list A) (batchSize : nat) (w : W) :
  1 <= batchSize ->
  (exists result,
      exportToExternalAPI exportFunction contentAssets (whole batchSize) w
      = Some (result, afterAll (batches contentAssets (whole batchSize)) w)
      /\ totalProcessed result
         = List.length contentAssets
           + recordsWhere nothing (batches contentAssets (whole batchSize))
                          (outcomes (batches contentAssets (whole batchSize)) w))
  /\ concat (batches contentAssets (whole batchSize)) = contentAssets
  /\ Forall (fun slice => 1 <= List.length slice <= batchSize)
            (batches contentAssets (whole batchSize))
  /\ exportToExternalAPI exportFunction [] (whole batchSize) w
     = Some (mkExportResult 0 0 0 [], w).
Proof. intros H. now apply every_slice_runs. Qed.

Lemma failedRecords_bound (slices : list (list A)) : forall cs,
  failedRecords slices cs <= List.length (concat slices).
Proof.
  unfold failedRecords.
  induction slices as [|slice rest IH]; intros cs; [cbn; lia|].
  destruct cs as [|c cs]; cbn [recordsWhere concat]; rewrite length_app; [lia|].
  specialize (IH cs). destruct (failed c); lia.
Qed.

Lemma no_failure (slices : list (list A)) :
  Forall (fun slice => 1 <= List.length slice) slices ->
  forall w i,
    failedRecords slices (outcomes slices w) = 0 <-> failedNumbers i (outcomes slices w) = [].
Proof.
  unfold failedRecords.
  induction 1 as [|slice rest Hs _ IH]; intros w i; [cbn; tauto|].
  cbn [outcomes recordsWhere failedNumbers].
  destruct (failed (fst (exportFunction slice w))).
  - split; [lia | discriminate].
  - cbn [Nat.add]. apply IH.
Qed.

(** X16. With a whole batch size of at least one, the failures that
    [exportToExternalAPI] reports are those of whole slices: [totalFailed] is
    the number of records of the slices on which the export function
    returned [success: false], returned [null] or [undefined], or threw,
    [errors] has one entry for each of these slices, in order, with the
    number of the slice counted from one; so [totalFailed] is at most
    [totalProcessed], and it is zero exactly when [errors] is empty. *)
Theorem exportToExternalAPI_counts_failed_slices
        (contentAssets : list A) (batchSize : nat) (w w' : W) (result : ExportResult) :
  1 <= batchSize ->
  exportToExternalAPI exportFunction contentAssets (whole batchSize) w = Some (result, w') ->
  totalFailed result
  = failedRecords (batches contentAssets (whole batchSize))
                  (outcomes (batches contentAssets (whole batchSize)) w)
  /\ map batch (errors result)
     = failedNumbers 0 (outcomes (batches contentAssets (whole batchSize)) w)
  /\ totalFailed result <= totalProcessed result
  /\ (totalFailed result = 0 <-> errors result = []).
Proof.
  intros H Hrun.
  destruct (every_slice_runs contentAssets w H)
    as [[result0 [Hrun0 Hn]] [Hcat [Hall _]]].
  rewrite Hrun in Hrun0. injection Hrun0 as <- _.
  assert (F : totalFailed result
              = failedRecords (batches contentAssets (whole batchSize))
                              (outcomes (batches contentAssets (whole batchSize)) w)
              /\ map batch (errors result)
                 = failedNumbers 0 (outcomes (batches contentAssets (whole batchSize)) w)).
  { rewrite exportToExternalAPI_whole in Hrun by exact H.
    injection Hrun as Hrun.
    destruct (counts_fold contentAssets (whole batchSize)
                (seq 0 (ceilDiv (List.length contentAssets) (whole batchSize)))
                (mkExportResult 0 0 0 [], w)) as [_ [F E]].
    cbv zeta in F, E. cbn [fst snd totalFailed errors map app Nat.add] in F, E.
    rewrite Hrun in F, E. cbn [fst] in F, E. split; [exact F|].
    apply E. now rewrite length_seq. }
  destruct F as [F E]. split; [exact F|]. split; [exact E|]. split.
  - rewrite F, Hn.
    pose proof (failedRecords_bound (batches contentAssets (whole batchSize))
                  (outcomes (batches contentAssets (whole batchSize)) w)) as B.
    rewrite Hcat in B. lia.
  - rewrite F.
    rewrite (no_failure (slices := batches contentAssets (whole batchSize))) with (i := 0).
    + rewrite <- E. split; [intros K; now apply map_eq_nil in K | intros ->; reflexivity].
    + eapply Forall_impl; [|exact Hall]. cbn. intros a Ha. lia.
Qed.

End Run.

(** An export function that counts its calls in the world, throws on its
    second call and returns [null] on its third. *)
Definition secondCallThrows (slice : list nat) (calls : nat)
  : Completion Returned * nat :=
  (if calls =? 1 then Throw "timeout"
   else if calls =? 2 then Normal ReturnedNull
   else Normal (ReturnedValue (mkBatchOutcome true None None)), S calls).

Lemma exportToExternalAPI_runs_every_slice_witness :
  (exists result,
      exportToExternalAPI secondCallThrows [10; 20; 30; 40; 50] 2 0 = Some (result, 3)
      /\ totalProcessed result = 6)
  /\ batches [10; 20; 30; 40; 50] 2 = [[10; 20]; [30; 40]; [50]].
Proof.
  destruct (@exportToExternalAPI_runs_every_slice nat nat secondCallThrows
              [10; 20; 30; 40; 50] 2 0) as [H _]; [lia|].
  split; [exact H | vm_compute; reflexivity].
Defined.

Lemma exportToExternalAPI_counts_failed_slices_witness :
  exists result w',
    exportToExternalAPI secondCallThrows [10; 20; 30; 40; 50] 2 0 = Some (result, w')
    /\ totalFailed result = 3
    /\ map batch (errors result) = [2; 3]
    /\ totalProcessed result = 6.
Proof.
  assert (Hrun : exportToExternalAPI secondCallThrows [10; 20; 30; 40; 50] (whole 2) 0
                 = Some (mkExportResult 6 2 3
                           [mkBatchError 2 "timeout";
                            mkBatchError 3 "Cannot read property success of null"], 3))
    by (vm_compute; reflexivity).
  destruct (@exportToExternalAPI_counts_failed_slices nat nat secondCallThrows
              [10; 20; 30; 40; 50] 2 0 3 _ ltac:(lia) Hrun) as [F [E _]].
  eexists. eexists. split; [exact Hrun|]. split; [exact F|]. split; [exact E | reflexivity].
Defined.

End BatchFacts.

(* ===================================================================== *)
(** ** More on the article sync engine *)
(* ===================================================================== *)

Module EngineFacts.
Import Knowledge.

Section AnyRemote.
Context {P : Platform} {W : Type} {C : Collaborators W}.

(** *** A batch of records *)

(** A record of a batch that is an object: its [ID] can be read. *)
Definition readable (contentAsset : JSValue) : Prop :=
  contentAsset <> JNull /\ contentAsset <> JUndefined.

Lemma readable_ID (contentAsset : JSValue) :
  readable contentAsset ->
  getMember contentAsset "ID" = Normal (getProp contentAsset "ID").
Proof. intros [N U]. destruct contentAsset; try reflexivity; contradiction. Qed.

Definition succeededIn (batchDetails : list SyncResult) : nat :=
  List.length (filter success batchDetails).

Lemma exportAssets_counts (contentAssets : list JSValue) (config : JSValue) :
  Forall readable contentAssets ->
  forall result s,
    exists result' s',
      exportAssets contentAssets config result s = (Normal result', result', s')
      /\ batchOk result' = batchOk result
      /\ batchErrorMessage result' = batchErrorMessage result
      /\ successCount result' + failureCount result'
         = successCount result + failureCount result + List.length contentAssets
      /\ successCount result'
         = successCount result + (succeededIn (details result') - succeededIn (details result))
      /\ succeededIn (details result) <= succeededIn (details result')
      /\ map contentId (details result')
         = map contentId (details result) ++ map (fun a => getProp a "ID") contentAssets.
Proof.
  induction 1 as [|contentAsset rest Hr _ IH]; intros result s.
  - exists result, s. cbn. rewrite app_nil_r.
    repeat split; try reflexivity; lia.
  - cbn [exportAssets].
    destruct (IdempotenceFacts.upsert_returns contentAsset config s (readable_ID Hr))
      as [upsertResult [s1 Hrun]].
    rewrite Hrun.
    set (detail := withContentId upsertResult (getProp contentAsset "ID")).
    assert (Sd : success detail = success upsertResult) by reflexivity.
    destruct (success upsertResult) eqn:S.
    + destruct (IH (mkBatchResult (batchOk result) (Datatypes.S (successCount result))
                      (failureCount result) (details result ++ [detail])
                      (batchErrorMessage result)) s1)
        as [result' [s' [Hrest [Hok [Herr [Hsum [Hsucc [Hle Hids]]]]]]]].
      exists result', s'. split; [exact Hrest|].
      cbn [batchOk batchErrorMessage successCount failureCount details] in *.
      unfold succeededIn in *. rewrite filter_app, length_app in Hsucc, Hle.
      cbn [filter] in Hsucc, Hle. rewrite Sd in Hsucc, Hle. cbn [List.length] in Hsucc, Hle.
      rewrite map_app in Hids. cbn [map List.length] in *. rewrite <- app_assoc in Hids.
      repeat split; try assumption; lia.
    + destruct (IH (mkBatchResult (batchOk result) (successCount result)
                      (Datatypes.S (failureCount result)) (details result ++ [detail])
                      (batchErrorMessage result)) s1)
        as [result' [s' [Hrest [Hok [Herr [Hsum [Hsucc [Hle Hids]]]]]]]].
      exists result', s'. split; [exact Hrest|].
      cbn [batchOk batchErrorMessage successCount failureCount details] in *.
      unfold succeededIn in *. rewrite filter_app, length_app in Hsucc, Hle.
      cbn [filter] in Hsucc, Hle. rewrite Sd in Hsucc, Hle. cbn [List.length] in Hsucc, Hle.
      rewrite map_app in Hids. cbn [map List.length] in *. rewrite <- app_assoc in Hids.
      repeat split; try assumption; lia.
Qed.

(** X17. [exportBatch] on a batch of records that are objects returns
    [success: true] and counts every record exactly once: [successCount] and
    [failureCount] add up to the number of records, [successCount] is the
    number of details that are successes, and the details are those of the
    records, in order, each with the [ID] of its record.  On the empty batch
    it returns [success: true] with the error text [Empty batch] and calls
    nothing. *)
Theorem exportBatch_counts_every_record (contentAssets : list JSValue) (config : JSValue)
        (s : Session W) :
  Forall readable contentAssets ->
  (forall result s',
      exportBatch contentAssets config s = (result, s') ->
      batchOk result = true
      /\ successCount result + failureCount result = List.length contentAssets
      /\ successCount result = succeededIn (details result)
      /\ map contentId (details result) = map (fun a => getProp a "ID") contentAssets)
  /\ exportBatch [] config s = (mkBatchResult true 0 0 [] (JStr "Empty batch"), s).
Proof.
  intros H. split; [|reflexivity].
  intros result s' Hrun. unfold exportBatch in Hrun.
  destruct contentAssets as [|a rest].
  - injection Hrun as <- _. cbn. repeat split; reflexivity.
  - destruct (exportAssets_counts config H (mkBatchResult true 0 0 [] JUndefined) s)
      as [result' [s1 [Hrest [Hok [_ [Hsum [Hsucc [_ Hids]]]]]]]].
    rewrite Hrest in Hrun. injection Hrun as <- _.
    cbn [batchOk successCount failureCount details map app Nat.add] in *.
    unfold succeededIn in *. cbn [filter List.length] in Hsucc.
    repeat split; try assumption; lia.
Qed.

(** *** The lookup *)

(** The three queries of the lookup, in the order in which they are sent. *)
Definition lookupQueries (articleType : JSValue) (id : string) : list Operation :=
  [Query (SelectVersions (ToString articleType) (escapeQuotes id) (Some "Draft"));
   Query (SelectVersions (ToString articleType) (escapeQuotes id) (Some "Online"));
   Query (SelectVersions (ToString articleType) (escapeQuotes id) None)].

(** An exchange whose answer is a success with at least one record. *)
Definition hit (x : Exchange) : bool :=
  match answer x with
  | Normal result => isOK result && hasRecords (getProp (dataOf result) "records")
  | Throw _ => false
  end.

Definition firstRecord (x : Exchange) : JSValue :=
  match answer x with
  | Normal result => getProp (getProp (dataOf result) "records") "0"
  | Throw _ => JNull
  end.

(** The exchange of a request in a world, and the session after it. *)
Definition exchangeOf (serviceID : string) (req : Request) (s : Session W) : Exchange :=
  mkExchange req (fst (serviceCall serviceID req (world s))).

Definition after (serviceID : string) (req : Request) (s : Session W) : Session W :=
  mkSession (snd (serviceCall serviceID req (world s)))
            (calls s ++ [exchangeOf serviceID req s]).

Lemma firstRecordOr_run (serviceID : string) (token url : JSValue) (q : Soql)
      (next : Exec JSValue) (s : Session W) :
  let req := queryRequest token url q in
  (hit (exchangeOf serviceID req s) = true
   /\ (firstRecordOr serviceID token url q next s
       = (Normal (firstRecord (exchangeOf serviceID req s)), after serviceID req s)
       \/ exists msg,
           firstRecordOr serviceID token url q next s = (Throw msg, after serviceID req s)))
  \/ (hit (exchangeOf serviceID req s) = false
      /\ (firstRecordOr serviceID token url q next s = next (after serviceID req s)
          \/ exists msg,
              firstRecordOr serviceID token url q next s = (Throw msg, after serviceID req s))).
Proof.
  cbv zeta. unfold firstRecordOr, bind, after, exchangeOf, hit, firstRecord.
  rewrite KnowledgeFacts.call_run.
  destruct (serviceCall serviceID (queryRequest token url q) (world s)) as [[result|msg] w'];
    cbn [fst snd answer].
  - destruct (isOK result); cbn [andb]; [|right; split; [reflexivity | now left]].
    unfold lift, getMember.
    destruct (dataOf result) eqn:D;
      try (right; split; [reflexivity | right; eexists; reflexivity]);
      (destruct (hasRecords (getProp _ "records")) eqn:H;
       [ left; split; [reflexivity|];
         destruct (getProp (getProp _ "records") "0");
         first [ left; reflexivity | right; eexists; reflexivity ]
       | right; split; [reflexivity | now left] ]).
  - right. split; [reflexivity|]. right. eexists. reflexivity.
Qed.

(** X18. [findArticleByExternalId] never throws and only sends queries: for
    an external id that is a string, between one and three of them, which
    are, in this order, the query for a [Draft] version, the one for an
    [Online] version and the one without a status filter, each for the
    quote-escaped id; nothing is sent after a query that is answered with a
    record, and an article that it returns is the first record of the last
    query it sent.  For an external id that is not a string it sends nothing
    and returns null. *)
Theorem findArticleByExternalId_queries_in_order
        (token url externalId articleType : JSValue) (serviceID : string) (s : Session W) :
  exists article s' sent,
    findArticleByExternalId token url externalId articleType serviceID s = (Normal article, s')
    /\ calls s' = calls s ++ sent
    /\ (forall id, externalId = JStr id ->
          exists n, 1 <= n <= 3
                    /\ map (fun x => operation (request x)) sent
                       = firstn n (lookupQueries articleType id))
    /\ ((forall id, externalId <> JStr id) -> sent = [] /\ article = JNull)
    /\ Forall (fun y => hit y = false) (removelast sent)
    /\ (article <> JNull ->
        exists earlier x,
          sent = earlier ++ [x]
          /\ hit x = true
          /\ Forall (fun y => hit y = false) earlier
          /\ article = firstRecord x).
Proof.
  unfold findArticleByExternalId, tryCatch.
  destruct externalId as [| |b|q|id|d|l|o];
    try (exists JNull, s, []; split; [reflexivity|]; split; [now rewrite app_nil_r|];
         split; [intros id E; discriminate E|]; split; [auto|];
         split; [constructor|]; intros N; now contradiction N).
  cbv zeta.
  set (T := ToString articleType). set (e := escapeQuotes id).
  set (q1 := SelectVersions T e (Some "Draft")).
  set (q2 := SelectVersions T e (Some "Online")).
  set (q3 := SelectVersions T e None).
  set (x1 := exchangeOf serviceID (queryRequest token url q1) s).
  set (s1 := after serviceID (queryRequest token url q1) s).
  set (x2 := exchangeOf serviceID (queryRequest token url q2) s1).
  set (s2 := after serviceID (queryRequest token url q2) s1).
  set (x3 := exchangeOf serviceID (queryRequest token url q3) s2).
  set (s3 := after serviceID (queryRequest token url q3) s2).
  assert (Q : forall n, 1 <= n <= 3 ->
              forall id0, JStr id = JStr id0 ->
                exists n0, 1 <= n0 <= 3
                           /\ firstn n [Query q1; Query q2; Query q3]
                              = firstn n0 (lookupQueries articleType id0)).
  { intros n Hn id0 E. injection E as <-. exists n. split; [exact Hn | reflexivity]. }
  assert (NS : (forall id0, JStr id <> JStr id0) -> forall (sent : list Exchange) a,
               sent = [] /\ a = JNull).
  { intros N. exfalso. now apply (N id). }
  destruct (firstRecordOr_run serviceID token url q1
              (firstRecordOr serviceID token url q2
                 (firstRecordOr serviceID token url q3 (ret JNull))) s)
    as [[H1 [R1 | [msg R1]]] | [H1 [R1 | [msg R1]]]]; cbv zeta in R1; rewrite R1.
  - exists (firstRecord x1), s1, [x1]. split; [reflexivity|]. split; [reflexivity|].
    split; [apply (Q 1); lia|]. split; [intros N; now apply NS|].
    split; [cbn [removelast]; repeat constructor; assumption|].
    intros _. exists [], x1. repeat split; [exact H1 | constructor].
  - exists JNull, s1, [x1]. split; [reflexivity|]. split; [reflexivity|].
    split; [apply (Q 1); lia|]. split; [intros N; now apply NS|].
    split; [cbn [removelast]; repeat constructor; assumption|].
    intros N; now contradiction N.
  - fold s1.
    destruct (firstRecordOr_run serviceID token url q2
                (firstRecordOr serviceID token url q3 (ret JNull)) s1)
      as [[H2 [R2 | [msg R2]]] | [H2 [R2 | [msg R2]]]]; cbv zeta in R2; rewrite R2.
    + exists (firstRecord x2), s2, [x1; x2]. split; [reflexivity|].
      split; [cbn [calls s2 s1 after]; now rewrite <- app_assoc|].
      split; [apply (Q 2); lia|]. split; [intros N; now apply NS|].
      split; [cbn [removelast]; repeat constructor; assumption|].
      intros _. exists [x1], x2. repeat split; [exact H2 | now repeat constructor].
    + exists JNull, s2, [x1; x2]. split; [reflexivity|].
      split; [cbn [calls s2 s1 after]; now rewrite <- app_assoc|].
      split; [apply (Q 2); lia|]. split; [intros N; now apply NS|].
      split; [cbn [removelast]; repeat constructor; assumption|].
      intros N; now contradiction N.
    + fold s2.
      destruct (firstRecordOr_run serviceID token url q3 (ret JNull) s2)
        as [[H3 [R3 | [msg R3]]] | [H3 [R3 | [msg R3]]]]; cbv zeta in R3; rewrite R3.
      * exists (firstRecord x3), s3, [x1; x2; x3]. split; [reflexivity|].
        split; [cbn [calls s3 s2 s1 after]; now rewrite <- !app_assoc|].
        split; [apply (Q 3); lia|]. split; [intros N; now apply NS|].
        split; [cbn [removelast]; repeat constructor; assumption|].
        intros _. exists [x1; x2], x3. repeat split; [exact H3 | now repeat constructor].
      * exists JNull, s3, [x1; x2; x3]. split; [reflexivity|].
        split; [cbn [calls s3 s2 s1 after]; now rewrite <- !app_assoc|].
        split; [apply (Q 3); lia|]. split; [intros N; now apply NS|].
        split; [cbn [removelast]; repeat constructor; assumption|].
        intros N; now contradiction N.
      * exists JNull, s3, [x1; x2; x3]. split; [reflexivity|].
        split; [cbn [calls s3 s2 s1 after]; now rewrite <- !app_assoc|].
        split; [apply (Q 3); lia|]. split; [intros N; now apply NS|].
        split; [cbn [removelast]; repeat constructor; assumption|].
        intros N; now contradiction N.
      * exists JNull, s3, [x1; x2; x3]. split; [reflexivity|].
        split; [cbn [calls s3 s2 s1 after]; now rewrite <- !app_assoc|].
        split; [apply (Q 3); lia|]. split; [intros N; now apply NS|].
        split; [cbn [removelast]; repeat constructor; assumption|].
        intros N; now contradiction N.
    + exists JNull, s2, [x1; x2]. split; [reflexivity|].
      split; [cbn [calls s2 s1 after]; now rewrite <- app_assoc|].
      split; [apply (Q 2); lia|]. split; [intros N; now apply NS|].
      split; [cbn [removelast]; repeat constructor; assumption|].
      intros N; now contradiction N.
  - exists JNull, s1, [x1]. split; [reflexivity|]. split; [reflexivity|].
    split; [apply (Q 1); lia|]. split; [intros N; now apply NS|].
    split; [cbn [removelast]; repeat constructor; assumption|].
    intros N; now contradiction N.
Qed.

(** *** The checks before the first request *)

(** [(config && config.serviceID) || null] *)
Definition serviceIDOf (config : JSValue) : JSValue := configOr config "serviceID" JNull.

(** [!serviceID || serviceID.trim() === ''], where it does not throw. *)
Definition missingServiceID (config : JSValue) : bool :=
  negb (truthy (serviceIDOf config))
  || match serviceIDOf config with
     | JStr sid => String.eqb (trim sid) ""
     | _ => false
     end.

Definition fieldMappingOf (config : JSValue) : Completion JSValue :=
  parseJSON (configOr config "fieldMapping" (JStr "{}")).

(** X19. [upsertKnowledgeArticle] checks its configuration before it
    touches anything: with a service id that is missing or blank, and with a
    field mapping that is not JSON, it returns a failure and neither
    authenticates nor sends a request; a service id that is truthy but not a
    string gives an [Exception: ] failure, again without any request; and
    when the authentication fails the result is the failure
    [Authentication failed: ...] and no request has been sent. *)
Theorem upsertKnowledgeArticle_checks_before_calling
        (contentAsset config : JSValue) (s : Session W) :
  readable contentAsset ->
  (missingServiceID config = true ->
   upsertKnowledgeArticle contentAsset config s
   = (Normal (failure (JStr "Service ID is required but not provided in configuration")
                      JUndefined), s))
  /\ (missingServiceID config = false -> (forall sid, serviceIDOf config <> JStr sid) ->
      exists msg,
        upsertKnowledgeArticle contentAsset config s
        = (Normal (withContentId (failure (JStr ("Exception: " ++ msg)) JUndefined)
                                 (getProp contentAsset "ID")), s))
  /\ (forall sid, serviceIDOf config = JStr sid -> missingServiceID config = false ->
      (forall msg, fieldMappingOf config = Throw msg ->
                   upsertKnowledgeArticle contentAsset config s
                   = (Normal (failure (JStr "Invalid field mapping configuration") JUndefined), s))
      /\ (forall fieldMapping,
             fieldMappingOf config = Normal fieldMapping ->
             authSuccess (fst (getAccessToken sid (world s))) = false ->
             upsertKnowledgeArticle contentAsset config s
             = (Normal (failure (JStr ("Authentication failed: "
                                         ++ ToString (authError
                                                        (fst (getAccessToken sid (world s))))))
                                JUndefined),
                mkSession (snd (getAccessToken sid (world s))) (calls s)))).
Proof.
  intros R. unfold upsertKnowledgeArticle, bind at 1, lift. rewrite (readable_ID R).
  unfold missingServiceID, serviceIDOf, fieldMappingOf, tryCatch.
  split; [|split].
  - intros M. destruct (truthy (configOr config "serviceID" JNull)) eqn:T; cbn [negb orb] in *.
    + destruct (configOr config "serviceID" JNull); try discriminate M.
      now rewrite M.
    + reflexivity.
  - intros M N. destruct (truthy (configOr config "serviceID" JNull)) eqn:T;
      cbn [negb orb] in *; [|discriminate M].
    destruct (configOr config "serviceID" JNull);
      try (eexists; reflexivity).
    now contradiction (N s0).
  - intros sid E M. rewrite E in *. cbn [orb] in M.
    destruct (truthy (JStr sid)); cbn [negb orb] in M; [|discriminate M].
    cbn [negb]. rewrite M. split.
    + intros msg F. now rewrite F.
    + intros fieldMapping F A. rewrite F. unfold bind, authenticate.
      destruct (getAccessToken sid (world s)) as [authResult w']. cbn [fst snd] in *.
      now rewrite A.
Qed.

(** *** The escaped external id *)

Definition isQuote (c : ascii) : bool := Ascii.eqb c "'"%char.

Definition isBackslash (c : ascii) : bool := Ascii.eqb c "\"%char.

(** Every quote of the string comes directly after a backslash;
    [afterBackslash] tells whether the string itself does. *)
Fixpoint guarded (afterBackslash : bool) (s : string) : bool :=
  match s with
  | EmptyString => true
  | String c r => (if isQuote c then afterBackslash else true) && guarded (isBackslash c) r
  end.

Fixpoint quotes (s : string) : nat :=
  match s with
  | EmptyString => 0
  | String c r => (if isQuote c then 1 else 0) + quotes r
  end.

Lemma escapeQuotes_guarded (s : string) (afterBackslash : bool) :
  guarded afterBackslash (escapeQuotes s) = true.
Proof.
  revert afterBackslash. induction s as [|c r IH]; intros afterBackslash; [reflexivity|].
  cbn [escapeQuotes]. fold (isQuote c). destruct (isQuote c) eqn:Q.
  - cbn [guarded]. rewrite IH. reflexivity.
  - cbn [guarded]. rewrite Q, IH. reflexivity.
Qed.

Lemma escapeQuotes_head (s r : string) : escapeQuotes s <> String "'"%char r.
Proof.
  destruct s as [|c s]; cbn [escapeQuotes]; [discriminate|].
  destruct (Ascii.eqb c "'"%char) eqn:Q; [discriminate|].
  intros E. injection E as -> _. discriminate Q.
Qed.

Lemma escapeQuotes_injective (a : string) :
  forall b, escapeQuotes a = escapeQuotes b -> a = b.
Proof.
  induction a as [|c a IH]; intros [|d b] E; cbn [escapeQuotes] in E.
  - reflexivity.
  - destruct (Ascii.eqb d "'"%char); discriminate E.
  - destruct (Ascii.eqb c "'"%char); discriminate E.
  - destruct (Ascii.eqb c "'"%char) eqn:Qc, (Ascii.eqb d "'"%char) eqn:Qd.
    + apply Ascii.eqb_eq in Qc, Qd. subst. injection E as E. now rewrite (IH b E).
    + injection E as <- E. symmetry in E. now apply escapeQuotes_head in E.
    + injection E as -> E. now apply escapeQuotes_head in E.
    + injection E as -> E. now rewrite (IH b E).
Qed.

Lemma append_cancel_left (p x y : string) : (p ++ x = p ++ y)%string -> x = y.
Proof.
  induction p as [|c p IH]; cbn [String.append]; intros E; [exact E|].
  injection E as E. exact (IH E).
Qed.

Lemma length_append (x y : string) :
  String.length (x ++ y) = String.length x + String.length y.
Proof. induction x as [|c x IH]; cbn [String.append String.length]; [reflexivity | now rewrite IH]. Qed.

Lemma append_longer (x q r : string) (c : ascii) : (x ++ String c r ++ q)%string <> q.
Proof.
  intros E. apply (f_equal String.length) in E.
  rewrite !length_append in E. cbn [String.length] in E. lia.
Qed.

Lemma append_cancel_right (x : string) : forall y q, (x ++ q = y ++ q)%string -> x = y.
Proof.
  induction x as [|c x IH]; intros [|d y] q E; cbn [String.append] in E.
  - reflexivity.
  - exfalso. symmetry in E. exact (@append_longer EmptyString q y d E).
  - exfalso. exact (@append_longer EmptyString q x c E).
  - injection E as -> E. now rewrite (IH y q E).
Qed.

(** X20. [externalId.replace(/'/g, "\\'")], as the lookup applies it: in the
    escaped id every quote comes directly after a backslash; the escaped id
    is longer than the id by the number of its quotes, and an id without a
    quote is unchanged; the escaping is injective, so that for the same
    article type and status filter two different external ids never give
    the same query text. *)
Theorem escapeQuotes_keeps_ids_apart (a b : string) (articleType : string)
        (statusFilter : option string) :
  guarded false (escapeQuotes a) = true
  /\ String.length (escapeQuotes a) = String.length a + quotes a
  /\ (quotes a = 0 -> escapeQuotes a = a)
  /\ (escapeQuotes a = escapeQuotes b -> a = b)
  /\ (soqlText (SelectVersions articleType (escapeQuotes a) statusFilter)
      = soqlText (SelectVersions articleType (escapeQuotes b) statusFilter) -> a = b).
Proof.
  split; [apply escapeQuotes_guarded|].
  split.
  { induction a as [|c r IH]; [reflexivity|]. cbn [escapeQuotes quotes String.length].
    fold (isQuote c). destruct (isQuote c); cbn [String.length]; rewrite IH; lia. }
  split.
  { induction a as [|c r IH]; [reflexivity|]. cbn [escapeQuotes quotes].
    fold (isQuote c). destruct (isQuote c); [discriminate|].
    intros H. now rewrite (IH H). }
  split; [apply escapeQuotes_injective|].
  intros E. apply escapeQuotes_injective. unfold soqlText in E.
  repeat (apply append_cancel_left in E).
  exact (@append_cancel_right _ _ _ E).
Qed.

(** *** Failures of the update path *)

Lemma patchThenPublish_outcome (token url masterId draft articleData articleType
                                 publishArticles : JSValue) (serviceID : string)
      (s : Session W) :
  exists x,
    KnowledgeFacts.isUpdateExchange x = true
    /\ ((exists msg s',
            answer x = Throw msg
            /\ KnowledgeFacts.patchThenPublish token url masterId draft articleData articleType
                 publishArticles serviceID s = (Throw msg, s')
            /\ calls s' = calls s ++ [x])
        \/ (exists result r s' published,
               answer x = Normal result
               /\ KnowledgeFacts.patchThenPublish token url masterId draft articleData
                    articleType publishArticles serviceID s = (Normal r, s')
               /\ calls s' = calls s ++ x :: published
               /\ success r = isOK result
               /\ (isOK result = false ->
                   published = [] /\ syncOperation r = JStr "update_draft"))).
Proof.
  unfold KnowledgeFacts.patchThenPublish, bind. rewrite KnowledgeFacts.call_run.
  set (req := mkRequest token url (Update (ToString articleType) (ToString draft) articleData)).
  destruct (serviceCall serviceID req (world s)) as [[result|msg] w']; cbn [fst snd].
  - exists (mkExchange req (Normal result)). split; [reflexivity|]. right.
    destruct (isOK result) eqn:OK; cbn [negb].
    + destruct (KnowledgeFacts.publishStep_run token url masterId draft publishArticles
                  "update" serviceID
                  (mkSession w' (calls s ++ [mkExchange req (Normal result)])))
        as [r [s' [Hrun [Hs [_ [_ [Hf Ht]]]]]]].
      rewrite Hrun. destruct (truthy publishArticles) eqn:T.
      * destruct (Ht eq_refl) as [x [Hc _]].
        exists result, r, s', [x]. split; [reflexivity|]. split; [reflexivity|].
        split; [rewrite Hc; cbn [calls]; now rewrite <- app_assoc|].
        split; [now rewrite OK | congruence].
      * destruct (Hf eq_refl) as [-> _].
        exists result, r, (mkSession w' (calls s ++ [mkExchange req (Normal result)])), [].
        split; [reflexivity|]. split; [reflexivity|]. split; [reflexivity|].
        split; [now rewrite OK | congruence].
    + eexists result, _, _, []. split; [reflexivity|]. split; [reflexivity|].
      split; [reflexivity|]. split; [now rewrite OK|]. intros _. split; reflexivity.
  - exists (mkExchange req (Throw msg)). split; [reflexivity|]. left.
    eexists msg, _. split; [reflexivity|]. split; reflexivity.
Qed.

(** X21. A failure of [updateArticleWithVersioning] names the step that
    failed, and nothing is sent after that step: [edit_online] when the draft
    could not be created from the published master, the only request sent
    being that one; [update_draft] when the update of the draft was answered
    with an error, that request being the last one; [update] when the update
    request threw, the error being [Exception: ] followed by the message.
    In no failure a publish request has been sent. *)
Theorem failed_update_names_its_step
        (token url existingArticle articleData articleType publishArticles : JSValue)
        (serviceID : string) (s : Session W) :
  exists r s' sent,
    updateArticleWithVersioning token url existingArticle articleData articleType
                                publishArticles serviceID s = (Normal r, s')
    /\ calls s' = calls s ++ sent
    /\ (success r = false ->
        existsb KnowledgeFacts.isPublishExchange sent = false
        /\ ((syncOperation r = JStr "edit_online"
             /\ KnowledgeFacts.foundOnline existingArticle = true
             /\ exists x,
                 sent = [x]
                 /\ operation (request x)
                    = EditOnline (getProp existingArticle "KnowledgeArticleId"))
            \/ (syncOperation r = JStr "update_draft"
                /\ exists before x result,
                    sent = before ++ [x]
                    /\ KnowledgeFacts.isUpdateExchange x = true
                    /\ answer x = Normal result
                    /\ isOK result = false)
            \/ (syncOperation r = JStr "update"
                /\ exists before x msg,
                    sent = before ++ [x]
                    /\ KnowledgeFacts.isUpdateExchange x = true
                    /\ answer x = Throw msg
                    /\ error r = JStr ("Exception: " ++ msg)))).
Proof.
  rewrite KnowledgeFacts.updateArticleWithVersioning_unfold. unfold tryCatch.
  set (masterId := getProp existingArticle "KnowledgeArticleId").
  assert (NP : forall x, KnowledgeFacts.isUpdateExchange x = true ->
                         KnowledgeFacts.isPublishExchange x = false).
  { intros x. unfold KnowledgeFacts.isUpdateExchange, KnowledgeFacts.isPublishExchange, isPublish.
    now destruct (operation (request x)). }
  destruct (KnowledgeFacts.foundOnline existingArticle) eqn:On.
  - unfold bind at 1.
    destruct (KnowledgeFacts.editOnlineArticle_run token url masterId serviceID s)
      as [editResult [Hedit _]].
    rewrite Hedit.
    set (x1 := mkExchange (mkRequest token url (EditOnline masterId))
                 (fst (serviceCall serviceID (mkRequest token url (EditOnline masterId))
                         (world s)))).
    set (s1 := mkSession _ (calls s ++ [x1])).
    assert (P1 : KnowledgeFacts.isPublishExchange x1 = false) by reflexivity.
    destruct (editSuccess editResult); cbn [negb].
    + destruct (patchThenPublish_outcome token url masterId (draftId editResult) articleData
                  articleType publishArticles serviceID s1)
        as [x [U [[msg [s' [A [Hrun Hc]]]] | [result [r [s' [published [A [Hrun [Hc [Hs Hfail]]]]]]]]]]];
        rewrite Hrun.
      * exists (failure (JStr ("Exception: " ++ msg)) (JStr "update")), s', [x1; x].
        split; [reflexivity|].
        split; [rewrite Hc; cbn [calls s1]; now rewrite <- app_assoc|].
        intros _. split; [cbn [existsb]; now rewrite P1, (NP x U)|].
        right. right. split; [reflexivity|]. exists [x1], x, msg. auto.
      * exists r, s', (x1 :: x :: published). split; [reflexivity|].
        split; [rewrite Hc; cbn [calls s1]; now rewrite <- app_assoc|].
        intros F. rewrite F in Hs. symmetry in Hs. destruct (Hfail Hs) as [-> Hop].
        split; [cbn [existsb]; now rewrite P1, (NP x U)|].
        right. left. split; [exact Hop|]. exists [x1], x, result. auto.
    + eexists _, s1, [x1]. split; [reflexivity|]. split; [reflexivity|].
      intros _. split; [cbn [existsb]; now rewrite P1|].
      left. split; [reflexivity|]. split; [reflexivity|]. exists x1. split; reflexivity.
  - destruct (patchThenPublish_outcome token url masterId (getProp existingArticle "Id")
                articleData articleType publishArticles serviceID s)
      as [x [U [[msg [s' [A [Hrun Hc]]]] | [result [r [s' [published [A [Hrun [Hc [Hs Hfail]]]]]]]]]]];
      rewrite Hrun.
    + exists (failure (JStr ("Exception: " ++ msg)) (JStr "update")), s', [x].
      split; [reflexivity|]. split; [exact Hc|].
      intros _. split; [cbn [existsb]; now rewrite (NP x U)|].
      right. right. split; [reflexivity|]. exists [], x, msg. auto.
    + exists r, s', (x :: published). split; [reflexivity|]. split; [exact Hc|].
      intros F. rewrite F in Hs. symmetry in Hs. destruct (Hfail Hs) as [-> Hop].
      split; [cbn [existsb]; now rewrite (NP x U)|].
      right. left. split; [exact Hop|]. exists [], x, result. auto.
Qed.

End AnyRemote.

Definition twoRecords : list JSValue :=
  [JObj [("ID", JStr "faq-1")]; JObj [("ID", JStr "faq-2")]].

Definition offline : Session unit := mkSession tt [].

Lemma exportBatch_counts_every_record_witness :
  Forall readable twoRecords
  /\ successCount (fst (exportBatch (P := Runs.platform) (C := Remote.unreachable)
                          twoRecords (JObj [("serviceID", JStr "sf")]) offline))
     + failureCount (fst (exportBatch (P := Runs.platform) (C := Remote.unreachable)
                            twoRecords (JObj [("serviceID", JStr "sf")]) offline))
     = 2.
Proof.
  assert (R : Forall readable twoRecords)
    by (repeat constructor; discriminate).
  split; [exact R|].
  exact (proj1 (proj2 (proj1 (@exportBatch_counts_every_record Runs.platform unit
                                Remote.unreachable twoRecords
                                (JObj [("serviceID", JStr "sf")]) offline R)
                             _ _ (surjective_pairing _)))).
Defined.

Lemma upsertKnowledgeArticle_checks_before_calling_witness :
  readable (JObj [("ID", JStr "faq-1")])
  /\ upsertKnowledgeArticle (P := Runs.platform) (C := Remote.unreachable)
       (JObj [("ID", JStr "faq-1")]) (JObj [("serviceID", JStr "  ")]) offline
     = (Normal (failure (JStr "Service ID is required but not provided in configuration")
                        JUndefined), offline).
Proof.
  assert (R : readable (JObj [("ID", JStr "faq-1")])) by (split; discriminate).
  split; [exact R|].
  exact (proj1 (@upsertKnowledgeArticle_checks_before_calling Runs.platform unit
                  Remote.unreachable (JObj [("ID", JStr "faq-1")])
                  (JObj [("serviceID", JStr "  ")]) offline R) eq_refl).
Defined.

End EngineFacts.

(* ===================================================================== *)
(** ** The write-back of the job *)
(* ===================================================================== *)

Module JobFacts.
Import Knowledge ExportJob.

Section AnyRemote.
Context {P : Platform} {W : Type} {C : Collaborators W}.

(** [detail.success && detail.knowledgeArticleId && detail.versionId] *)
Definition synced (detail : SyncResult) : bool :=
  success detail && truthy (knowledgeArticleId detail) && truthy (versionId detail).

(** One call of [updateSyncMetadata], for a detail. *)
Definition writeBack (w : W) (detail : SyncResult) : W :=
  snd (updateSyncMetadata (contentId detail) (knowledgeArticleId detail) (versionId detail) w).

Lemma updateMetadataFor_synced (batchDetails : list SyncResult) :
  forall w, updateMetadataFor batchDetails w = fold_left writeBack (filter synced batchDetails) w.
Proof.
  induction batchDetails as [|detail rest IH]; intros w; [reflexivity|].
  cbn [updateMetadataFor filter]. fold (synced detail).
  destruct (synced detail); cbn [fold_left]; apply IH.
Qed.

(** X22. The callback that the job passes to [exportToExternalAPI] returns
    what [exportBatch] returned and sends no request of its own.  When the
    batch result is a success it writes the sync metadata back for exactly
    the details that are successes with a truthy master id and a truthy
    version id, one call each, in the order of the details; when the batch
    result is not a success it writes nothing back. *)
Theorem batchCallback_writes_back_synced_records (config : JSValue) (batch : list JSValue)
        (s : Session W) :
  exists s2,
    batchCallback config batch s
    = (Normal (outcomeOf (fst (exportBatch batch config s))), s2)
    /\ calls s2 = calls (snd (exportBatch batch config s))
    /\ world s2
       = if batchOk (fst (exportBatch batch config s))
         then fold_left writeBack
                (filter synced (details (fst (exportBatch batch config s))))
                (world (snd (exportBatch batch config s)))
         else world (snd (exportBatch batch config s)).
Proof.
  unfold batchCallback.
  destruct (exportBatch batch config s) as [batchResult s1]. cbn [fst snd].
  eexists. split; [reflexivity|].
  destruct (batchOk batchResult); [|split; reflexivity].
  destruct (details batchResult) as [|detail rest] eqn:D; [split; reflexivity|].
  cbn [calls world]. split; [reflexivity|]. apply updateMetadataFor_synced.
Qed.

(** A record whose [ID] cannot be read. *)
Definition unreadable (contentAsset : JSValue) : Prop :=
  contentAsset = JNull \/ contentAsset = JUndefined.

Lemma exportAssets_stops (before after : list JSValue) (bad config : JSValue) :
  Forall EngineFacts.readable before ->
  unreadable bad ->
  forall result s,
    exists msg result' s',
      exportAssets (before ++ bad :: after) config result s = (Throw msg, result', s')
      /\ exportAssets before config result s = (Normal result', result', s').
Proof.
  intros R U. induction R as [|contentAsset rest Hr _ IH]; intros result s.
  - cbn [app exportAssets]. unfold upsertKnowledgeArticle, bind, lift.
    destruct U as [-> | ->]; cbn [getMember]; eexists; eexists; eexists; split; reflexivity.
  - cbn [app exportAssets].
    destruct (IdempotenceFacts.upsert_returns contentAsset config s (EngineFacts.readable_ID Hr))
      as [upsertResult [s1 Hrun]].
    rewrite Hrun. apply IH.
Qed.

(** X23. One record whose [ID] cannot be read (null or undefined) makes
    [exportBatch] return [success: false], after the records before it have
    been upserted as they would have been without it and counted, and before
    any record after it is looked at; the callback of the job then writes no
    sync metadata back, not even for the records that were upserted. *)
Theorem unreadable_record_blocks_write_back (before after : list JSValue)
        (bad config : JSValue) (s : Session W) :
  Forall EngineFacts.readable before ->
  unreadable bad ->
  batchOk (fst (exportBatch (before ++ bad :: after) config s)) = false
  /\ details (fst (exportBatch (before ++ bad :: after) config s))
     = details (fst (exportBatch before config s))
  /\ successCount (fst (exportBatch (before ++ bad :: after) config s))
     + failureCount (fst (exportBatch (before ++ bad :: after) config s))
     = List.length before
  /\ snd (exportBatch (before ++ bad :: after) config s) = snd (exportBatch before config s)
  /\ snd (batchCallback config (before ++ bad :: after) s) = snd (exportBatch before config s).
Proof.
  intros R U.
  destruct (exportAssets_stops after config R U (mkBatchResult true 0 0 [] JUndefined) s)
    as [msg [result' [s' [Hbad Hgood]]]].
  assert (E : exportBatch (before ++ bad :: after) config s
              = (mkBatchResult false (successCount result') (failureCount result')
                               (details result') (JStr ("Batch exception: " ++ msg)), s')).
  { unfold exportBatch. destruct (before ++ bad :: after) eqn:L.
    - now destruct before.
    - now rewrite Hbad. }
  assert (G : details result' = details (fst (exportBatch before config s))
              /\ s' = snd (exportBatch before config s)
              /\ successCount result' + failureCount result' = List.length before).
  { destruct (EngineFacts.exportAssets_counts config R (mkBatchResult true 0 0 [] JUndefined) s)
      as [r2 [s2 [Hrun2 [_ [_ [Hsum _]]]]]].
    rewrite Hgood in Hrun2.
    apply (f_equal (fun run => snd (fst run))) in Hrun2. cbn [fst snd] in Hrun2. subst r2.
    cbn [successCount failureCount Nat.add] in Hsum.
    destruct before as [|a rest].
    - cbn [exportAssets] in Hgood.
      assert (Hs : mkBatchResult true 0 0 [] JUndefined = result' /\ s = s')
        by (split; congruence).
      destruct Hs as [<- <-]. repeat split.
    - unfold exportBatch. rewrite Hgood. cbn [fst snd]. repeat split. exact Hsum. }
  destruct G as [Gd [Gs Gc]].
  unfold batchCallback. rewrite E. cbn [fst snd batchOk details successCount failureCount].
  repeat split; assumption.
Qed.

End AnyRemote.

Lemma unreadable_record_blocks_write_back_witness :
  Forall EngineFacts.readable [JObj [("ID", JStr "faq-1")]]
  /\ unreadable JNull
  /\ batchOk (fst (exportBatch (P := Runs.platform) (C := Remote.unreachable)
                     ([JObj [("ID", JStr "faq-1")]] ++ JNull :: [JObj [("ID", JStr "faq-2")]])
                     (JObj [("serviceID", JStr "sf")]) EngineFacts.offline))
     = false.
Proof.
  assert (R : Forall EngineFacts.readable [JObj [("ID", JStr "faq-1")]])
    by (repeat constructor; discriminate).
  assert (U : unreadable JNull) by (now left).
  split; [exact R|]. split; [exact U|].
  exact (proj1 (@unreadable_record_blocks_write_back Runs.platform unit Remote.unreachable
                  [JObj [("ID", JStr "faq-1")]] [JObj [("ID", JStr "faq-2")]] JNull
                  (JObj [("serviceID", JStr "sf")]) EngineFacts.offline R U)).
Defined.

End JobFacts.

(* ===================================================================== *)
(** ** The responses of the Knowledge service *)
(* ===================================================================== *)

Module ServiceFacts.
Import Knowledge KnowledgeService.

Section WithPlatform.
Context {P : Platform}.

(** X24. [parseResponse] of the Knowledge service keeps the status code and
    reports a success exactly for the codes from 200 to 299.  Its [error] is
    null for a success and truthy otherwise: the parsed body when that is
    truthy, and [HTTP ] followed by the code when it is not.  A response
    without text has the data null.  A call result with the status [OK] and
    this object is what the engine takes for a success exactly when the code
    is from 200 to 299. *)
Theorem parseResponse_success_and_error (code : Z) (responseText : option string)
        (message : JSValue) :
  statusCode (parseResponse code responseText) = code
  /\ (responseSuccess (parseResponse code responseText) = true <-> (200 <= code < 300)%Z)
  /\ truthy (responseError (parseResponse code responseText))
     = negb (responseSuccess (parseResponse code responseText))
  /\ (responseSuccess (parseResponse code responseText) = true ->
      responseError (parseResponse code responseText) = JNull)
  /\ (responseSuccess (parseResponse code responseText) = false ->
      responseError (parseResponse code responseText)
      = if truthy (data (parseResponse code responseText))
        then data (parseResponse code responseText)
        else JStr ("HTTP " ++ numberToString (inject_Z code)))
  /\ (responseText = None \/ responseText = Some ""%string ->
      data (parseResponse code responseText) = JNull)
  /\ isOK (mkServiceResult "OK" (Some (parseResponse code responseText)) message)
     = responseSuccess (parseResponse code responseText).
Proof.
  unfold parseResponse. cbn [statusCode responseSuccess responseError data].
  split; [reflexivity|]. split.
  { rewrite andb_true_iff, Z.leb_le, Z.ltb_lt. reflexivity. }
  split.
  { destruct ((200 <=? code)%Z && (code <? 300)%Z); cbn [negb]; [reflexivity|].
    unfold or_else.
    match goal with |- context [if truthy ?v then _ else _] => destruct (truthy v) eqn:T end;
      [exact T | reflexivity]. }
  split.
  { intros ->. reflexivity. }
  split.
  { intros ->. reflexivity. }
  split.
  { intros [-> | ->]; reflexivity. }
  reflexivity.
Qed.

End WithPlatform.

End ServiceFacts.

(* ===================================================================== *)
(** ** The cache of the record type lookup *)
(* ===================================================================== *)

Module RecordTypeFacts.
Import Knowledge RecordType.

Section AnyService.
Context {P : Platform} {W : Type} {L : LookupService W}.

(** [recordTypeCache[cacheKey]] *)
Definition cachedId (recordTypeName articleType : JSValue) (st : Store W) : JSValue :=
  getProp (JObj (recordTypeCache st)) (cacheKeyOf recordTypeName articleType).

Definition lookedUp (id name developer : JSValue) : RecordTypeResult :=
  mkRecordTypeResult true id JUndefined JUndefined name developer.

Lemma readRecordType_cases (recordTypeName articleType : JSValue) (result : ServiceResult)
      (cache : list (string * JSValue)) :
  (exists err, readRecordType recordTypeName articleType result cache
               = (Normal (lookupFailed err), cache))
  \/ (exists msg, readRecordType recordTypeName articleType result cache = (Throw msg, cache))
  \/ (exists id name developer,
         readRecordType recordTypeName articleType result cache
         = (Normal (lookedUp id name developer),
            setProp (cacheKeyOf recordTypeName articleType) id cache)).
Proof.
  unfold readRecordType.
  destruct (negb (String.eqb (status result) "OK")); [left; eexists; reflexivity|].
  destruct (object result) as [o|]; [|left; eexists; reflexivity].
  destruct (negb (responseSuccess o)); [left; eexists; reflexivity|].
  match goal with |- context [noRecords ?v] => destruct (noRecords v) end;
    [left; eexists; reflexivity|].
  match goal with |- context [getMember ?v "Id"] => destruct (getMember v "Id") end.
  - right. right. eexists; eexists; eexists. reflexivity.
  - right. left. eexists. reflexivity.
Qed.

Lemma lookUp_cases (recordTypeName articleType accessToken instanceUrl serviceID : JSValue)
      (st : Store W) :
  exists w,
    (exists err, lookUp recordTypeName articleType accessToken instanceUrl serviceID st
                 = (Normal (lookupFailed err), mkStore (recordTypeCache st) w))
    \/ (exists msg, lookUp recordTypeName articleType accessToken instanceUrl serviceID st
                    = (Throw msg, mkStore (recordTypeCache st) w))
    \/ (exists id name developer,
           lookUp recordTypeName articleType accessToken instanceUrl serviceID st
           = (Normal (lookedUp id name developer),
              mkStore (setProp (cacheKeyOf recordTypeName articleType) id (recordTypeCache st))
                      w)).
Proof.
  unfold lookUp. destruct st as [cache w0]. cbn [recordTypeCache remote].
  destruct (escapeSoql articleType) as [escapedType|msg];
    [|exists w0; right; left; eexists; reflexivity].
  destruct (escapeSoql recordTypeName) as [escapedName|msg];
    [|exists w0; right; left; eexists; reflexivity].
  match goal with
  | |- context [lookupCall ?a ?b ?c] => destruct (lookupCall a b c) as [[[result|]|msg] w]
  end; exists w.
  - destruct (readRecordType_cases recordTypeName articleType result cache)
      as [[err E] | [[msg E] | [id [name [developer E]]]]]; rewrite E.
    + left. exists err. reflexivity.
    + right. left. exists msg. reflexivity.
    + right. right. exists id, name, developer. reflexivity.
  - left. eexists. reflexivity.
  - right. left. eexists. reflexivity.
Qed.

(** The ways in which [getRecordTypeId] ends. *)
Lemma getRecordTypeId_cases (recordTypeName articleType accessToken instanceUrl
                              serviceID : JSValue) (st : Store W) :
  (exists msg, blankName recordTypeName = Throw msg
               /\ getRecordTypeId recordTypeName articleType accessToken instanceUrl serviceID st
                  = (Throw msg, st))
  \/ (blankName recordTypeName = Normal true
      /\ getRecordTypeId recordTypeName articleType accessToken instanceUrl serviceID st
         = (Normal notLookedUp, st))
  \/ (blankName recordTypeName = Normal false
      /\ truthy (cachedId recordTypeName articleType st) = true
      /\ getRecordTypeId recordTypeName articleType accessToken instanceUrl serviceID st
         = (Normal (fromCache (cachedId recordTypeName articleType st)), st))
  \/ (blankName recordTypeName = Normal false
      /\ truthy (cachedId recordTypeName articleType st) = false
      /\ exists w,
          (exists err,
              getRecordTypeId recordTypeName articleType accessToken instanceUrl serviceID st
              = (Normal (lookupFailed err), mkStore (recordTypeCache st) w))
          \/ (exists id name developer,
                 getRecordTypeId recordTypeName articleType accessToken instanceUrl serviceID st
                 = (Normal (lookedUp id name developer),
                    mkStore (setProp (cacheKeyOf recordTypeName articleType) id
                                     (recordTypeCache st)) w))).
Proof.
  unfold getRecordTypeId, cachedId.
  destruct (blankName recordTypeName) as [[|]|msg].
  - right. left. split; reflexivity.
  - cbv zeta.
    destruct (truthy (getProp (JObj (recordTypeCache st))
                              (cacheKeyOf recordTypeName articleType))) eqn:T.
    + right. right. left. repeat split.
    + right. right. right. split; [reflexivity|]. split; [reflexivity|].
      destruct (lookUp_cases recordTypeName articleType accessToken instanceUrl serviceID st)
        as [w [[err E] | [[msg E] | [id [name [developer E]]]]]]; exists w; rewrite E.
      * left. exists err. reflexivity.
      * left. eexists. reflexivity.
      * right. exists id, name, developer. reflexivity.
  - left. exists msg. split; reflexivity.
Qed.

Lemma cachedId_set (recordTypeName articleType id : JSValue) (cache : list (string * JSValue))
      (w : W) :
  cachedId recordTypeName articleType
           (mkStore (setProp (cacheKeyOf recordTypeName articleType) id cache) w) = id.
Proof.
  unfold cachedId, getProp. cbn [recordTypeCache ownProps].
  now rewrite assoc_setProp_same.
Qed.

Lemma getRecordTypeId_hit (recordTypeName articleType accessToken instanceUrl
                            serviceID : JSValue) (st : Store W) :
  blankName recordTypeName = Normal false ->
  truthy (cachedId recordTypeName articleType st) = true ->
  getRecordTypeId recordTypeName articleType accessToken instanceUrl serviceID st
  = (Normal (fromCache (cachedId recordTypeName articleType st)), st).
Proof.
  intros B T. unfold getRecordTypeId. rewrite B. cbv zeta.
  fold (cachedId recordTypeName articleType st). now rewrite T.
Qed.

(** X25. Once [getRecordTypeId] has returned a success with a truthy id for
    a record type name and an article type, every later call for the same
    two, whatever the access token, the instance URL and the service id,
    returns that id with [cached: true] and changes nothing: the service is
    not called again. *)
Theorem getRecordTypeId_answers_from_cache
        (recordTypeName articleType accessToken instanceUrl serviceID : JSValue)
        (st st1 : Store W) (r : RecordTypeResult) :
  getRecordTypeId recordTypeName articleType accessToken instanceUrl serviceID st
  = (Normal r, st1) ->
  rtSuccess r = true ->
  truthy (recordTypeId r) = true ->
  forall accessToken' instanceUrl' serviceID',
    getRecordTypeId recordTypeName articleType accessToken' instanceUrl' serviceID' st1
    = (Normal (fromCache (recordTypeId r)), st1).
Proof.
  intros Hrun Hs Hid accessToken' instanceUrl' serviceID'.
  destruct (getRecordTypeId_cases recordTypeName articleType accessToken instanceUrl
                                  serviceID st)
    as [[msg [_ E]] | [[_ E] | [[B [T E]] | [B [T [w [[err E] | [id [nm [dv E]]]]]]]]]];
    rewrite E in Hrun; try discriminate Hrun; injection Hrun as <- <-.
  - discriminate Hid.
  - cbn [recordTypeId fromCache] in *. now apply getRecordTypeId_hit.
  - discriminate Hs.
  - cbn [recordTypeId lookedUp] in *.
    rewrite <- (cachedId_set recordTypeName articleType id (recordTypeCache st) w) at 2.
    apply getRecordTypeId_hit; [exact B|]. now rewrite cachedId_set.
Qed.

(** X26. [getRecordTypeId] changes the cache only when it has looked a
    record type up with success, and then only the entry of its own key,
    which then holds the id returned: a failure and an answer from the cache
    leave the cache as it was, a call that throws or is given a blank name
    changes nothing at all, entries of other keys are never touched, and the
    cache never shrinks.  After [clearCache] the cache is empty and no call
    is answered from it. *)
Theorem getRecordTypeId_caches_only_successes
        (recordTypeName articleType accessToken instanceUrl serviceID : JSValue)
        (st : Store W) :
  (forall msg st1,
      getRecordTypeId recordTypeName articleType accessToken instanceUrl serviceID st
      = (Throw msg, st1) -> st1 = st)
  /\ (forall r st1,
         getRecordTypeId recordTypeName articleType accessToken instanceUrl serviceID st
         = (Normal r, st1) ->
         (blankName recordTypeName = Normal true -> st1 = st)
         /\ (rtSuccess r = false \/ cached r = JBool true ->
             recordTypeCache st1 = recordTypeCache st)
         /\ (recordTypeCache st1 = recordTypeCache st
             \/ (rtSuccess r = true
                 /\ recordTypeCache st1
                    = setProp (cacheKeyOf recordTypeName articleType) (recordTypeId r)
                              (recordTypeCache st)))
         /\ (forall k, k <> cacheKeyOf recordTypeName articleType ->
                       assoc k (recordTypeCache st1) = assoc k (recordTypeCache st))
         /\ cacheSize st <= cacheSize st1 <= cacheSize st + 1)
  /\ cacheSize (clearCache st) = 0
  /\ (forall r st1,
         getRecordTypeId recordTypeName articleType accessToken instanceUrl serviceID
                         (clearCache st) = (Normal r, st1) ->
         cached r = JUndefined).
Proof.
  assert (Size : forall k (v : JSValue) l,
             List.length l <= List.length (setProp k v l) <= List.length l + 1).
  { intros k v l. induction l as [|[k' v'] l IH]; cbn [setProp List.length]; [lia|].
    destruct (String.eqb k k'); cbn [List.length]; lia. }
  split; [|split; [|split]].
  - intros msg st1 Hrun.
    destruct (getRecordTypeId_cases recordTypeName articleType accessToken instanceUrl
                                    serviceID st)
      as [[msg' [_ E]] | [[_ E] | [[B [T E]] | [B [T [w [[err E] | [id [nm [dv E]]]]]]]]]];
      rewrite E in Hrun; try discriminate Hrun.
    now injection Hrun as _ <-.
  - intros r st1 Hrun.
    destruct (getRecordTypeId_cases recordTypeName articleType accessToken instanceUrl
                                    serviceID st)
      as [[msg' [_ E]] | [[_ E] | [[B [T E]] | [B [T [w [[err E] | [id [nm [dv E]]]]]]]]]];
      rewrite E in Hrun; try discriminate Hrun; injection Hrun as <- <-;
      unfold cacheSize; cbn [recordTypeCache].
    + repeat split; auto; lia.
    + repeat split; auto; lia.
    + split; [intros B'; congruence|]. repeat split; auto; lia.
    + cbn [rtSuccess cached recordTypeId lookedUp].
      split; [intros B'; congruence|].
      split; [intros [H | H]; discriminate H|].
      split; [right; split; reflexivity|].
      split; [intros k N; now apply assoc_setProp_other | apply Size].
  - reflexivity.
  - intros r st1 Hrun.
    destruct (getRecordTypeId_cases recordTypeName articleType accessToken instanceUrl
                                    serviceID (clearCache st))
      as [[msg' [_ E]] | [[_ E] | [[B [T E]] | [B [T [w [[err E] | [id [nm [dv E]]]]]]]]]];
      rewrite E in Hrun; try discriminate Hrun; injection Hrun as <- _;
      try reflexivity.
    discriminate T.
Qed.

End AnyService.

(** A service that answers every lookup with one record type; its world
    counts the calls. *)
Definition answering : LookupService nat := {|
  lookupCall := fun _ _ n =>
    (Normal (Some (mkServiceResult "OK"
                     (Some (mkResponseObject 200 true
                              (JObj [("records", JArr [JObj [("Id", JStr "012A")]])]) JNull))
                     JNull)),
     S n)
|}.

Definition lookedUpOnce : Store nat := mkStore [("Knowledge__kav:FAQ", JStr "012A")] 1.

Lemma getRecordTypeId_answers_from_cache_witness :
  getRecordTypeId (P := Runs.platform) (L := answering)
                  (JStr "FAQ") (JStr "Knowledge__kav") (JStr "token") (JStr "https://a")
                  (JStr "sf") (mkStore [] 0)
  = (Normal (lookedUp (JStr "012A") JUndefined JUndefined), lookedUpOnce)
  /\ getRecordTypeId (P := Runs.platform) (L := answering)
                     (JStr "FAQ") (JStr "Knowledge__kav") (JStr "other") (JStr "https://b")
                     (JStr "sf2") lookedUpOnce
     = (Normal (fromCache (JStr "012A")), lookedUpOnce).
Proof.
  assert (E : getRecordTypeId (P := Runs.platform) (L := answering)
                (JStr "FAQ") (JStr "Knowledge__kav") (JStr "token") (JStr "https://a")
                (JStr "sf") (mkStore [] 0)
              = (Normal (lookedUp (JStr "012A") JUndefined JUndefined), lookedUpOnce))
    by reflexivity.
  split; [exact E|].
  exact (@getRecordTypeId_answers_from_cache Runs.platform nat answering
           (JStr "FAQ") (JStr "Knowledge__kav") (JStr "token") (JStr "https://a") (JStr "sf")
           (mkStore [] 0) lookedUpOnce (lookedUp (JStr "012A") JUndefined JUndefined)
           E eq_refl eq_refl (JStr "other") (JStr "https://b") (JStr "sf2")).
Defined.

End RecordTypeFacts.

(* ===================================================================== *)
(** ** The cached token *)
(* ===================================================================== *)

Module AuthFacts.
Import Auth.

Section AnyPlatform.
Context {P : Platform} {W : Type} {O : OAuthPlatform W}.

(** The request holds a token. *)
Definition holdsToken (st : AuthState W) : bool :=
  match requestCustom st with
  | Some (Some _) => true
  | _ => false
  end.

Lemma readToken_cached (result : OAuthCallResult) (authResult : TokenResult) (store : bool) :
  readToken result = Normal (authResult, store) -> tokenSuccess authResult = store.
Proof.
  unfold readToken.
  destruct (String.eqb (callStatus result) "OK" && truthy (callObject result)).
  - destruct (truthy (getProp (callObject result) "access_token")
              && truthy (getProp (callObject result) "instance_url")).
    + destruct (idParts (getProp (callObject result) "id")) as [[org user]|msg];
        intros E; [|discriminate E]. now injection E as <- <-.
    + intros E. now injection E as <- <-.
  - intros E. now injection E as <- <-.
Qed.

Lemma requestToken_cases (serviceId : string) (grant : Grant) (st : AuthState W) :
  (tokenSuccess (fst (requestToken serviceId grant st)) = true
   /\ requestCustom (snd (requestToken serviceId grant st))
      = Some (Some (fst (requestToken serviceId grant st))))
  \/ (tokenSuccess (fst (requestToken serviceId grant st)) = false
      /\ requestCustom (snd (requestToken serviceId grant st)) = requestCustom st).
Proof.
  unfold requestToken.
  destruct (oauthCall serviceId grant (oauthWorld st)) as [[result|msg] w];
    [|right; split; reflexivity].
  destruct (readToken result) as [[authResult [|]]|msg] eqn:R;
    [| |right; split; reflexivity].
  - left. split; [exact (readToken_cached result R) | reflexivity].
  - right. split; [exact (readToken_cached result R) | reflexivity].
Qed.

Lemma grantFor_refused (credentials : Credentials) (failure : TokenResult) :
  grantFor credentials = inl failure -> exists err, failure = refused err.
Proof.
  unfold grantFor.
  repeat match goal with
         | |- context [if ?c then _ else _] => destruct c
         | |- context [match ?o with Some _ => _ | None => _ end] => destruct o
         end;
    intros E; try discriminate E; injection E as <-; eexists; reflexivity.
Qed.

(** A call on a request that holds no token. *)
Lemma getAccessToken_fresh (serviceId : JSValue) (st : AuthState W) :
  blankId serviceId = Normal false ->
  holdsToken st = false ->
  (exists err, getAccessToken serviceId st = (Normal (refused err), st))
  \/ exists grant,
      getAccessToken serviceId st
      = (Normal (fst (requestToken (ToString serviceId) grant st)),
         snd (requestToken (ToString serviceId) grant st)).
Proof.
  intros B H. unfold getAccessToken, holdsToken in *. rewrite B.
  destruct (requestCustom st) as [[c|]|] eqn:RC; [discriminate H| |];
    (destruct (getOAuthService (ToString serviceId) (oauthWorld st)) as [[authService|]|msg];
     [| left; eexists; reflexivity | left; eexists; reflexivity];
     destruct (getConfiguration authService) as [serviceConfig|];
     [| left; eexists; reflexivity];
     destruct (getCredential serviceConfig) as [credentials|];
     [| left; eexists; reflexivity];
     destruct (grantFor credentials) as [failure|grant] eqn:G;
     [ destruct (grantFor_refused credentials G) as [err ->]; left; exists err; reflexivity
     | right; exists grant;
       destruct (requestToken (ToString serviceId) grant st); reflexivity ]).
Qed.

(** The ways in which [getAccessToken] ends. *)
Lemma getAccessToken_cases (serviceId : JSValue) (st : AuthState W) :
  (exists msg, blankId serviceId = Throw msg /\ getAccessToken serviceId st = (Throw msg, st))
  \/ (blankId serviceId = Normal true
      /\ exists err, getAccessToken serviceId st = (Normal (refused err), st))
  \/ (blankId serviceId = Normal false
      /\ exists cachedResult,
          requestCustom st = Some (Some cachedResult)
          /\ getAccessToken serviceId st = (Normal cachedResult, st))
  \/ (blankId serviceId = Normal false
      /\ holdsToken st = false
      /\ ((exists err, getAccessToken serviceId st = (Normal (refused err), st))
          \/ exists grant,
              getAccessToken serviceId st
              = (Normal (fst (requestToken (ToString serviceId) grant st)),
                 snd (requestToken (ToString serviceId) grant st)))).
Proof.
  destruct (blankId serviceId) as [[|]|msg] eqn:B.
  - right. left. split; [reflexivity|]. unfold getAccessToken. rewrite B.
    eexists. reflexivity.
  - destruct (holdsToken st) eqn:H.
    + right. right. left. split; [reflexivity|].
      unfold holdsToken in H. unfold getAccessToken. rewrite B.
      destruct (requestCustom st) as [[c|]|]; try discriminate H.
      exists c. split; reflexivity.
    + right. right. right. split; [reflexivity|]. split; [reflexivity|].
      now apply getAccessToken_fresh.
  - left. exists msg. split; [reflexivity|]. unfold getAccessToken. now rewrite B.
Qed.

Lemma getAccessToken_cached (serviceId : JSValue) (st : AuthState W)
      (cachedResult : TokenResult) :
  blankId serviceId = Normal false ->
  requestCustom st = Some (Some cachedResult) ->
  getAccessToken serviceId st = (Normal cachedResult, st).
Proof. intros B H. unfold getAccessToken. now rewrite B, H. Qed.

(** X27. Once [getAccessToken] has returned a success, every later call
    with a service id that is not blank returns the same result and changes
    nothing, so the OAuth service is not called again: the token is cached
    on the request under one key, whatever the service id. *)
Theorem getAccessToken_reuses_token (serviceId : JSValue) (st st1 : AuthState W)
        (authResult : TokenResult) :
  getAccessToken serviceId st = (Normal authResult, st1) ->
  tokenSuccess authResult = true ->
  forall serviceId',
    blankId serviceId' = Normal false ->
    getAccessToken serviceId' st1 = (Normal authResult, st1).
Proof.
  intros Hrun Hs serviceId' B'.
  destruct (getAccessToken_cases serviceId st)
    as [[msg [_ E]] | [[_ [err E]] | [[_ [c [Hc E]]] | [_ [_ [[err E] | [grant E]]]]]]];
    rewrite E in Hrun; try discriminate Hrun; injection Hrun as <- <-;
    try discriminate Hs.
  - now apply getAccessToken_cached.
  - apply getAccessToken_cached; [exact B'|].
    destruct (requestToken_cases (ToString serviceId) grant st) as [[_ H] | [H _]];
      [exact H | congruence].
Qed.

(** X28. [getAccessToken] stores a result on the request only when it is a
    success that it has just obtained from the OAuth service: a failure
    leaves the request as it was.  [clearCachedToken] removes the token and
    nothing else, so that the next call is not answered from the request;
    on a request without [custom] it does nothing. *)
Theorem getAccessToken_caches_only_successes (serviceId : JSValue) (st : AuthState W) :
  (forall authResult st1,
      getAccessToken serviceId st = (Normal authResult, st1) ->
      (tokenSuccess authResult = false -> requestCustom st1 = requestCustom st)
      /\ (requestCustom st1 = requestCustom st
          \/ (tokenSuccess authResult = true /\ requestCustom st1 = Some (Some authResult))))
  /\ (forall msg st1, getAccessToken serviceId st = (Throw msg, st1) -> st1 = st)
  /\ holdsToken (clearCachedToken st) = false
  /\ oauthWorld (clearCachedToken st) = oauthWorld st
  /\ (holdsToken st = false -> clearCachedToken st = st).
Proof.
  split; [|split; [|split; [|split]]].
  - intros authResult st1 Hrun.
    destruct (getAccessToken_cases serviceId st)
      as [[msg [_ E]] | [[_ [err E]] | [[_ [c [Hc E]]] | [_ [_ [[err E] | [grant E]]]]]]];
      rewrite E in Hrun; try discriminate Hrun; injection Hrun as <- <-;
      try (split; [reflexivity | left; reflexivity]).
    destruct (requestToken_cases (ToString serviceId) grant st) as [[H1 H2] | [H1 H2]].
    + split; [congruence | right; split; assumption].
    + split; [intros _; exact H2 | left; exact H2].
  - intros msg st1 Hrun.
    destruct (getAccessToken_cases serviceId st)
      as [[msg' [_ E]] | [[_ [err E]] | [[_ [c [Hc E]]] | [_ [_ [[err E] | [grant E]]]]]]];
      rewrite E in Hrun; try discriminate Hrun. now injection Hrun as _ <-.
  - unfold clearCachedToken, holdsToken. now destruct (requestCustom st) as [[c|]|] eqn:E; cbn; try rewrite E.
  - unfold clearCachedToken. now destruct (requestCustom st) as [[c|]|].
  - unfold clearCachedToken, holdsToken. destruct (requestCustom st) as [[c|]|]; [discriminate | reflexivity | reflexivity].
Qed.

(** The parameters of a call are complete. *)
Definition complete (grant : Grant) : Prop :=
  match grant with
  | ClientCredentials clientId clientSecret =>
      truthy clientId = true /\ truthy clientSecret = true
  | PasswordGrant clientId clientSecret username passwordAndToken =>
      truthy clientId = true /\ truthy clientSecret = true
      /\ trim username <> ""%string /\ passwordAndToken <> ""%string
  end.

Lemma checked_credentials (credentials : Credentials) :
  fst (checkCredentials credentials) = [] ->
  exists grant, grantFor credentials = inr grant /\ complete grant.
Proof.
  unfold checkCredentials, grantFor.
  destruct (truthy (credCustom credentials)); cbn [negb orb]; [|discriminate].
  destruct (truthy (getProp (credCustom credentials) "clientid")) eqn:T1; cbn [negb orb pushWhen app].
  2: { destruct (usableGrantType (grantTypeOf (credCustom credentials))) as [g|];
         [destruct (String.eqb g "password"); [|destruct (String.eqb g "client_credentials")]|];
         cbn [fst]; discriminate. }
  destruct (truthy (getProp (credCustom credentials) "clientsecret")) eqn:T2;
    cbn [negb orb pushWhen app].
  2: { destruct (usableGrantType (grantTypeOf (credCustom credentials))) as [g|];
         [destruct (String.eqb g "password"); [|destruct (String.eqb g "client_credentials")]|];
         cbn [fst]; discriminate. }
  destruct (usableGrantType (grantTypeOf (credCustom credentials))) as [g|];
    [|cbn [fst]; discriminate].
  destruct (String.eqb g "password") eqn:Gp.
  - apply String.eqb_eq in Gp. subst g. cbn [String.eqb Ascii.eqb Bool.eqb fst].
    change (String.eqb "password" "client_credentials") with false. cbv iota.
    destruct (credUser credentials) as [user|]; cbn [blankText pushWhen app]; [|discriminate].
    destruct (String.eqb user "") eqn:U; cbn [orb pushWhen app]; [discriminate|].
    destruct (String.eqb (trim user) "") eqn:Ut; cbn [pushWhen app]; [discriminate|].
    destruct (credPassword credentials) as [password|]; cbn [blankText pushWhen app];
      [|discriminate].
    destruct (String.eqb password "") eqn:Pw; cbn [orb pushWhen app]; [discriminate|].
    destruct (String.eqb (trim password) ""); cbn [pushWhen app]; [discriminate|].
    intros _. unfold present. rewrite U, Pw. cbn [negb orb].
    eexists. split; [reflexivity|]. cbn [complete].
    split; [exact T1|]. split; [exact T2|]. split.
    + intros E. rewrite E in Ut. discriminate Ut.
    + destruct password; [discriminate Pw | discriminate].
  - destruct (String.eqb g "client_credentials") eqn:Gc; cbn [fst].
    + intros _. eexists. split; [reflexivity|]. split; assumption.
    + intros E. discriminate E.
Qed.

(** X29. A configuration that [validateConfiguration] accepts is one with
    which [getAccessToken] gets as far as the OAuth service: on a request
    that holds no token it calls the service, with parameters that are
    complete (client id and secret, and for the password grant a user name
    and a password), and its result is the outcome of that call; the
    accepted configuration has no error. *)
Theorem validated_configuration_reaches_the_service (serviceId : JSValue) (st : AuthState W)
        (validation : Validation) :
  validateConfiguration serviceId (oauthWorld st) = Normal validation ->
  valid validation = true ->
  holdsToken st = false ->
  errors validation = []
  /\ exists grant,
      complete grant
      /\ getAccessToken serviceId st
         = (Normal (fst (requestToken (ToString serviceId) grant st)),
            snd (requestToken (ToString serviceId) grant st)).
Proof.
  unfold validateConfiguration, getAccessToken, holdsToken.
  destruct (blankId serviceId) as [[|]|msg]; try discriminate.
  - intros E. injection E as <-. discriminate.
  - destruct (getOAuthService (ToString serviceId) (oauthWorld st)) as [[authService|]|msg];
      try (intros E; injection E as <-; discriminate).
    destruct (getConfiguration authService) as [serviceConfig|];
      try (intros E; injection E as <-; discriminate).
    destruct (getCredential serviceConfig) as [credentials|];
      try (intros E; injection E as <-; discriminate).
    destruct (checkCredentials credentials) as [errs warns] eqn:Ck.
    intros E V H. injection E as <-. cbn [valid errors] in *.
    destruct errs as [|e errs]; [|discriminate V].
    split; [reflexivity|].
    destruct (@checked_credentials credentials) as [grant [G Cg]]; [now rewrite Ck|].
    exists grant. split; [exact Cg|]. rewrite G.
    destruct (requestToken (ToString serviceId) grant st) as [authResult st'].
    destruct (requestCustom st) as [[c|]|]; [discriminate H | reflexivity | reflexivity].
Qed.

End AnyPlatform.

(** A service that is configured for the client credentials grant and
    answers every call with a token; its world counts the calls. *)
Definition clientCredentials : Credentials :=
  mkCredentials None None
    (JObj [("clientid", JStr "3MVG9"); ("clientsecret", JStr "s3cr3t");
           ("granttype", JArr [JStr "client_credentials"])]).

Definition configured : OAuthPlatform nat := {|
  getOAuthService := fun _ _ =>
    Normal (Some (mkOAuthService (Some (mkServiceConfiguration (Some clientCredentials)))));
  oauthCall := fun _ _ n =>
    (Normal (mkOAuthCallResult "OK"
               (JObj [("access_token", JStr "00Dxx"); ("instance_url", JStr "https://na1");
                      ("id", JStr "https://login/id/00D1/0051")])
               JNull JNull JNull),
     S n)
|}.

Definition issued : TokenResult :=
  mkTokenResult true (JStr "00Dxx") (JStr "https://na1") (JStr "Bearer") JUndefined
                (JStr "0051") (JStr "00D1") JUndefined JUndefined.

Definition afterFirstCall : AuthState nat := mkAuthState (Some (Some issued)) 1.

Lemma getAccessToken_reuses_token_witness :
  getAccessToken (P := Runs.platform) (O := configured) (JStr "salesforce.oauth")
                 (mkAuthState None 0)
  = (Normal issued, afterFirstCall)
  /\ getAccessToken (P := Runs.platform) (O := configured) (JStr "another.service")
                    afterFirstCall
     = (Normal issued, afterFirstCall).
Proof.
  assert (E : getAccessToken (P := Runs.platform) (O := configured) (JStr "salesforce.oauth")
                             (mkAuthState None 0)
              = (Normal issued, afterFirstCall)) by reflexivity.
  split; [exact E|].
  exact (@getAccessToken_reuses_token Runs.platform nat configured (JStr "salesforce.oauth")
           (mkAuthState None 0) afterFirstCall issued E eq_refl
           (JStr "another.service") eq_refl).
Defined.

Lemma validated_configuration_reaches_the_service_witness :
  validateConfiguration (P := Runs.platform) (O := configured) (JStr "salesforce.oauth") 0
  = Normal (mkValidation true [] [])
  /\ exists grant,
      complete grant
      /\ getAccessToken (P := Runs.platform) (O := configured) (JStr "salesforce.oauth")
                        (mkAuthState None 0)
         = (Normal (fst (requestToken (O := configured)
                           "salesforce.oauth" grant (mkAuthState None 0))),
            snd (requestToken (O := configured)
                   "salesforce.oauth" grant (mkAuthState None 0))).
Proof.
  assert (E : validateConfiguration (P := Runs.platform) (O := configured)
                (JStr "salesforce.oauth") (oauthWorld (mkAuthState None 0))
              = Normal (mkValidation true [] [])) by reflexivity.
  split; [exact E|].
  exact (proj2 (@validated_configuration_reaches_the_service Runs.platform nat configured
                  (JStr "salesforce.oauth") (mkAuthState None 0) (mkValidation true [] [])
                  E eq_refl eq_refl)).
Defined.

End AuthFacts.
